(** * Agent client: response normalisation and error classification

    A shallow embedding of [src/hooks/useAgent.ts] and [src/utils/aiAgent.ts].

    - [JS] models the part of the JavaScript run time the two files rely on:
      dynamically typed values, truthiness, [typeof], property reads,
      [String(v)], [JSON.parse] and [JSON.stringify].
    - [Effects] is the error-and-state monad in which the asynchronous
      functions run: a [throw] is a rejected promise or a raised exception, the
      state holds the observable effects.
    - [UseAgent] and [AiAgent] follow the two source files function by
      function.
    - [Extractor], [Worlds], [AiWorlds] and [Uuid] hold what the statements
      are written with: the extractor of the examples, sample pages, the
      outcomes of a call, the shape of a UUID.
    - [Traces], [UseAIAgent], [UseCases] and [AiTraces] add the hook and the
      ready-made requests of [src/utils/aiAgent.ts], and what the statements
      about the effects of a call are written with.
    - [Logic] has the rules for reasoning about runs, [JsonFacts] shows that
      the parser never runs out of fuel, [ExtractFacts], [ApiFacts],
      [AiFacts] and [HookFacts] specify the functions, and [Claims] states
      the properties of the specification.
    - [RunLogic] has the rules for runs and the worlds they leave,
      [TraceFacts] and [AiTraceFacts] follow the events of a call, and
      [Behaviour] states further properties of the two files. *)

From Stdlib Require Import ZArith NArith List String Ascii Bool Lia DecimalString.
Import ListNotations.
Local Open Scope string_scope.

(* ================================================================== *)
(** * JavaScript values                                                 *)
(* ================================================================== *)

Module JS.

(** ** Text

    A JavaScript string is modelled by a byte string holding the UTF-8 form of
    the text.  The quotation mark is named, and [dq] turns each apostrophe
    of a literal into a quotation mark, so that JSON text can be written
    legibly: [dq "{'a': 1}"] is the text [{"a": 1}]. *)

Definition quote_char : ascii := ascii_of_nat 34.
Definition backslash : ascii := ascii_of_nat 92.
Definition newline : ascii := ascii_of_nat 10.

Fixpoint dq (s : string) : string :=
  match s with
  | EmptyString => EmptyString
  | String c r => String (if Ascii.eqb c "'" then quote_char else c) (dq r)
  end.

Fixpoint repeat_char (c : ascii) (n : nat) : string :=
  match n with
  | O => EmptyString
  | S k => String c (repeat_char c k)
  end.

Definition is_digit (c : ascii) : bool :=
  let n := N_of_ascii c in (48 <=? n)%N && (n <=? 57)%N.

(** Decimal digits of a natural number, without leading zeros. *)
Definition digits (n : N) : string := NilEmpty.string_of_uint (N.to_uint n).

(** Value of a string of decimal digits. *)
Fixpoint digits_value_from (acc : N) (s : string) : N :=
  match s with
  | EmptyString => acc
  | String c r => digits_value_from (acc * 10 + (N_of_ascii c - 48))%N r
  end.

Definition digits_value (s : string) : N := digits_value_from 0%N s.

Definition hex_digit (n : N) : ascii :=
  if (n <? 10)%N then ascii_of_N (48 + n) else ascii_of_N (87 + n).

Definition hex_value (c : ascii) : option N :=
  let n := N_of_ascii c in
  if (48 <=? n)%N && (n <=? 57)%N then Some (n - 48)%N
  else if (97 <=? n)%N && (n <=? 102)%N then Some (n - 87)%N
  else if (65 <=? n)%N && (n <=? 70)%N then Some (n - 55)%N
  else None.

(** ** Numbers

    A number is an exact decimal [mantissa * 10 ^ exponent].  JavaScript rounds
    every number to binary64; the two agree on the literals binary64 carries
    without loss (up to 15 significant digits, inside its range of normal
    numbers: [kept_by_binary64], below), and differ beyond: JavaScript reads
    [1e-400] as zero, [1e400] as infinity and rounds an integer of 20 digits.
    The program only tests numbers for truthiness and prints them; a
    statement that depends on the numbers of a text it parses says
    [numbers_kept] of them. *)

Record number := Number { mantissa : Z; exponent : Z }.

Fixpoint strip_zeros (fuel : nat) (m e : Z) : Z * Z :=
  match fuel with
  | O => (m, e)
  | S f => if (m mod 10 =? 0)%Z then strip_zeros f (m / 10)%Z (e + 1)%Z else (m, e)
  end.

(** The shortest mantissa denoting the same value. *)
Definition normal (x : number) : number :=
  if (mantissa x =? 0)%Z then Number 0 0
  else
    let '(m, e) :=
      strip_zeros (S (Z.to_nat (Z.log2 (Z.abs (mantissa x))))) (mantissa x) (exponent x) in
    Number m e.

Definition number_of_Z (z : Z) : number := normal (Number z 0).

(** [Number::toString] of ECMAScript, radix 10. *)
Definition number_toString (x : number) : string :=
  let x := normal x in
  let m := mantissa x in
  if (m =? 0)%Z then "0"
  else
    let ds := digits (Z.to_N (Z.abs m)) in
    let k := Z.of_nat (String.length ds) in
    let n := (k + exponent x)%Z in
    let body :=
      if (k <=? n)%Z && (n <=? 21)%Z then
        ds ++ repeat_char "0" (Z.to_nat (n - k))
      else if (0 <? n)%Z && (n <=? 21)%Z then
        substring 0 (Z.to_nat n) ds ++ "." ++ substring (Z.to_nat n) (Z.to_nat (k - n)) ds
      else if (-6 <? n)%Z && (n <=? 0)%Z then
        "0." ++ repeat_char "0" (Z.to_nat (- n)) ++ ds
      else
        let e := (n - 1)%Z in
        let es := (if (e <? 0)%Z then "-" else "+") ++ digits (Z.to_N (Z.abs e)) in
        if (k =? 1)%Z then ds ++ "e" ++ es
        else substring 0 1 ds ++ "." ++ substring 1 (Z.to_nat (k - 1)) ds ++ "e" ++ es in
    if (m <? 0)%Z then "-" ++ body else body.

(** [Number.prototype.toString(16)] on an integer. *)
Fixpoint hex_digits (fuel : nat) (n : N) (acc : string) : string :=
  match fuel with
  | O => acc
  | S f =>
      let acc' := String (hex_digit (n mod 16)%N) acc in
      if (n / 16 =? 0)%N then acc' else hex_digits f (n / 16)%N acc'
  end.

Definition toString16 (v : Z) : string :=
  let n := Z.to_N (Z.abs v) in
  let body := hex_digits (S (N.to_nat (N.log2 n))) n "" in
  if (v <? 0)%Z then "-" ++ body else body.

(** ** Values *)

#[local] Unset Elimination Schemes.

Inductive value :=
| JUndefined
| JNull
| JBool (b : bool)
| JNum (n : number)
| JStr (s : string)
| JArr (items : list value)
| JObj (props : list (string * value)).

#[local] Set Elimination Schemes.

Definition props := list (string * value).

(** [ToBoolean]. *)
Definition truthy (v : value) : bool :=
  match v with
  | JUndefined | JNull => false
  | JBool b => b
  | JNum n => negb (mantissa n =? 0)%Z
  | JStr s => negb (String.eqb s "")
  | JArr _ | JObj _ => true
  end.

(** [typeof v]. *)
Definition typeof (v : value) : string :=
  match v with
  | JUndefined => "undefined"
  | JNull | JArr _ | JObj _ => "object"
  | JBool _ => "boolean"
  | JNum _ => "number"
  | JStr _ => "string"
  end.

(** [a || b] on values whose operands have no effect. *)
Definition js_or (a b : value) : value := if truthy a then a else b.

(** [v === false] and [v === 'text']. *)
Definition is_false (v : value) : bool :=
  match v with JBool false => true | _ => false end.

Definition is_string (v : value) (s : string) : bool :=
  match v with JStr t => String.eqb t s | _ => false end.

Fixpoint lookup (k : string) (ps : props) : option value :=
  match ps with
  | [] => None
  | (k', v) :: r => if String.eqb k k' then Some v else lookup k r
  end.

(** [v?.k]: the property [k] of [v], [undefined] on [null] and [undefined].
    The names the program reads (response, success, error, result, message,
    raw_response, status, details, agent_id, user_id, session_id, timestamp)
    are no index, not [length] and on no built-in prototype, so an array
    and a primitive answer [undefined]. *)
Definition get_opt (v : value) (k : string) : value :=
  match v with
  | JObj ps => match lookup k ps with Some x => x | None => JUndefined end
  | _ => JUndefined
  end.

(** Whether [v.k] raises a [TypeError]. *)
Definition nullish (v : value) : bool :=
  match v with JUndefined | JNull => true | _ => false end.

(** The text [String(v)] gives for plain data, when it gives one: whether it
    does is [stringable], below, and [String_of] in [Effects] is the
    conversion with its throw. *)
Fixpoint ToString (v : value) : string :=
  match v with
  | JUndefined => "undefined"
  | JNull => "null"
  | JBool true => "true"
  | JBool false => "false"
  | JNum n => number_toString n
  | JStr s => s
  | JArr items =>
      (fix join (l : list value) : string :=
         match l with
         | [] => ""
         | [x] => if nullish x then "" else ToString x
         | x :: r => (if nullish x then "" else ToString x) ++ "," ++ join r
         end) items
  | JObj _ => "[object Object]"
  end.

(** Whether [String(v)] returns.  The conversion of an object calls its
    [toString]: that of [Object.prototype], which answers [[object Object]],
    unless the object has a property [toString] of its own; plain data holds
    no function, so an own [toString] cannot be called, [valueOf] (own,
    or that of [Object.prototype], which answers the object) gives no
    primitive either, and the conversion throws a [TypeError].  An array is
    joined, each element but [null] and [undefined] converted in turn. *)
Fixpoint stringable (v : value) : bool :=
  match v with
  | JArr items =>
      (fix all (l : list value) : bool :=
         match l with
         | [] => true
         | x :: r => stringable x && all r
         end) items
  | JObj ps =>
      match lookup "toString" ps with
      | Some _ => false
      | None => true
      end
  | _ => true
  end.

(** Numbers that binary64 carries as they are written: zero, and the
    numbers of at most 15 significant digits between 1e-307 and 1e308 in
    magnitude.  On these the exact decimal and the number of JavaScript agree:
    the same truth value, the same text. *)
Definition kept_by_binary64 (x : number) : bool :=
  let x := normal x in
  let k := Z.of_nat (String.length (digits (Z.to_N (Z.abs (mantissa x))))) in
  let n := (k + exponent x)%Z in
  (mantissa x =? 0)%Z || ((k <=? 15)%Z && (-306 <=? n)%Z && (n <=? 308)%Z).

(** Every number in the value is one of these. *)
Fixpoint numbers_kept (v : value) : bool :=
  match v with
  | JNum n => kept_by_binary64 n
  | JArr items =>
      (fix all (l : list value) : bool :=
         match l with
         | [] => true
         | x :: r => numbers_kept x && all r
         end) items
  | JObj ps =>
      (fix all (l : list (string * value)) : bool :=
         match l with
         | [] => true
         | (_, x) :: r => numbers_kept x && all r
         end) ps
  | _ => true
  end.

(** ** Objects

    The own properties of an object, in the order [JSON.stringify] and
    [Object.keys] walk them: array indices first, ascending, then the other
    names in the order of their creation. *)

Definition all_digits (s : string) : bool :=
  (fix go (t : string) : bool :=
     match t with
     | EmptyString => true
     | String c r => is_digit c && go r
     end) s.

(** The array index a property name denotes, if any: a canonical decimal
    numeral below [2^32 - 1]. *)
Definition array_index (k : string) : option N :=
  match k with
  | EmptyString => None
  | String c r =>
      if all_digits k && (negb (Ascii.eqb c "0") || String.eqb r "")
         && Nat.leb (String.length k) 10
         && (digits_value k <? 4294967295)%N
      then Some (digits_value k) else None
  end.

Fixpoint replace_prop (k : string) (v : value) (ps : props) : props :=
  match ps with
  | [] => []
  | (k', v') :: r =>
      if String.eqb k k' then (k', v) :: r else (k', v') :: replace_prop k v r
  end.

Fixpoint insert_index (i : N) (k : string) (v : value) (ps : props) : props :=
  match ps with
  | [] => [(k, v)]
  | (k', v') :: r =>
      match array_index k' with
      | Some j => if (j <? i)%N then (k', v') :: insert_index i k v r
                  else (k, v) :: ps
      | None => (k, v) :: ps
      end
  end.

(** [CreateDataProperty]: a later value for a name replaces the earlier one
    in place. *)
Definition define_prop (k : string) (v : value) (ps : props) : props :=
  match lookup k ps with
  | Some _ => replace_prop k v ps
  | None =>
      match array_index k with
      | Some i => insert_index i k v ps
      | None => (ps ++ [(k, v)])%list
      end
  end.

(** An object literal [{k1: v1, ..., kn: vn}]. *)
Definition object (fields : list (string * value)) : value :=
  JObj (fold_left (fun ps kv => define_prop (fst kv) (snd kv) ps) fields []).

(** ** JSON.stringify *)

Definition hex4 (n : N) : string :=
  String (hex_digit ((n / 4096) mod 16)%N)
    (String (hex_digit ((n / 256) mod 16)%N)
       (String (hex_digit ((n / 16) mod 16)%N)
          (String (hex_digit (n mod 16)%N) EmptyString))).

(** [QuoteJSONString] without the enclosing quotation marks.  A lone
    surrogate, held in its three-byte form [ED A0..BF xx], is written as an
    escape. *)
Fixpoint quote_body (s : string) : string :=
  match s with
  | EmptyString => EmptyString
  | String c r =>
      let n := N_of_ascii c in
      let plain := String c (quote_body r) in
      if Ascii.eqb c quote_char then String backslash (String quote_char (quote_body r))
      else if Ascii.eqb c backslash then String backslash (String backslash (quote_body r))
      else if (n =? 8)%N then String backslash (String "b" (quote_body r))
      else if (n =? 9)%N then String backslash (String "t" (quote_body r))
      else if (n =? 10)%N then String backslash (String "n" (quote_body r))
      else if (n =? 12)%N then String backslash (String "f" (quote_body r))
      else if (n =? 13)%N then String backslash (String "r" (quote_body r))
      else if (n <? 32)%N then String backslash (String "u" (hex4 n ++ quote_body r))
      else if (n =? 237)%N then
        match r with
        | String c2 (String c3 r') =>
            let n2 := N_of_ascii c2 in
            let n3 := N_of_ascii c3 in
            if (160 <=? n2)%N && (n2 <=? 191)%N && (128 <=? n3)%N && (n3 <=? 191)%N
            then String backslash
                   (String "u" (hex4 (53248 + (n2 - 128) * 64 + (n3 - 128))%N ++ quote_body r'))
            else plain
        | _ => plain
        end
      else plain
  end.

Definition quote (s : string) : string :=
  String quote_char (quote_body s ++ String quote_char EmptyString).

Fixpoint join (sep : string) (parts : list string) : string :=
  match parts with
  | [] => ""
  | [p] => p
  | p :: r => p ++ sep ++ join sep r
  end.

(** The text of a non-empty array or object whose parts are serialized. *)
Definition bracket (open close gap indent : string) (parts : list string) : string :=
  match parts with
  | [] => open ++ close
  | _ =>
      if String.eqb gap "" then open ++ join "," parts ++ close
      else
        let inner := indent ++ gap in
        let nl := String newline EmptyString in
        open ++ nl ++ inner ++ join ("," ++ nl ++ inner) parts ++ nl ++ indent ++ close
  end.

(** [SerializeJSONProperty] with indentation unit [gap] at the current
    [indent]; [None] is JavaScript's [undefined]. *)
Fixpoint serialize (gap indent : string) (v : value) : option string :=
  match v with
  | JUndefined => None
  | JNull => Some "null"
  | JBool true => Some "true"
  | JBool false => Some "false"
  | JNum n => Some (number_toString n)
  | JStr s => Some (quote s)
  | JArr items =>
      let inner := indent ++ gap in
      Some (bracket "[" "]" gap indent
              (map (fun x => match serialize gap inner x with
                             | Some t => t
                             | None => "null"
                             end) items))
  | JObj ps =>
      let inner := indent ++ gap in
      let colon := if String.eqb gap "" then ":" else ": " in
      Some (bracket "{" "}" gap indent
              ((fix members (l : props) : list string :=
                  match l with
                  | [] => []
                  | (k, x) :: r =>
                      match serialize gap inner x with
                      | Some t => (quote k ++ colon ++ t) :: members r
                      | None => members r
                      end
                  end) ps))
  end.

Definition lift (o : option string) : value :=
  match o with Some s => JStr s | None => JUndefined end.

(** [JSON.stringify(v)] and [JSON.stringify(v, null, 2)]. *)
Definition JSON_stringify (v : value) : value := lift (serialize "" "" v).
Definition JSON_stringify_2 (v : value) : value := lift (serialize "  " "" v).

(** ** JSON.parse *)

(** UTF-8 form of a code point; a surrogate takes its three-byte form. *)
Definition utf8 (cp : N) : string :=
  let byte (n : N) := ascii_of_N n in
  let cont (n : N) := byte (128 + n mod 64)%N in
  if (cp <? 128)%N then String (byte cp) EmptyString
  else if (cp <? 2048)%N then
    String (byte (192 + cp / 64)%N) (String (cont cp) EmptyString)
  else if (cp <? 65536)%N then
    String (byte (224 + cp / 4096)%N)
      (String (cont (cp / 64)%N) (String (cont cp) EmptyString))
  else
    String (byte (240 + cp / 262144)%N)
      (String (cont (cp / 4096)%N)
         (String (cont (cp / 64)%N) (String (cont cp) EmptyString))).

Definition hex4_value (a b c d : ascii) : option N :=
  match hex_value a, hex_value b, hex_value c, hex_value d with
  | Some x, Some y, Some z, Some w => Some (((x * 16 + y) * 16 + z) * 16 + w)%N
  | _, _, _, _ => None
  end.

Definition high_surrogate (n : N) : bool := (55296 <=? n)%N && (n <=? 56319)%N.
Definition low_surrogate (n : N) : bool := (56320 <=? n)%N && (n <=? 57343)%N.

Definition is_space (c : ascii) : bool :=
  let n := N_of_ascii c in
  (n =? 32)%N || (n =? 9)%N || (n =? 10)%N || (n =? 13)%N.

Fixpoint skip_space (s : string) : string :=
  match s with
  | String c r => if is_space c then skip_space r else s
  | EmptyString => s
  end.

(** The character a two-character escape denotes. *)
Definition simple_escape (c : ascii) : option ascii :=
  if Ascii.eqb c quote_char then Some quote_char
  else if Ascii.eqb c backslash then Some backslash
  else if Ascii.eqb c "/" then Some "/"%char
  else if Ascii.eqb c "b" then Some (ascii_of_nat 8)
  else if Ascii.eqb c "f" then Some (ascii_of_nat 12)
  else if Ascii.eqb c "n" then Some (ascii_of_nat 10)
  else if Ascii.eqb c "r" then Some (ascii_of_nat 13)
  else if Ascii.eqb c "t" then Some (ascii_of_nat 9)
  else None.

Definition prepend (p : string) (o : option (string * string)) : option (string * string) :=
  match o with
  | Some (t, rest) => Some (p ++ t, rest)
  | None => None
  end.

(** A string literal after its opening quotation mark: the text it denotes
    and the input left after the closing mark. *)
Fixpoint string_body (s : string) : option (string * string) :=
  match s with
  | EmptyString => None
  | String c r =>
      if Ascii.eqb c quote_char then Some (EmptyString, r)
      else if Ascii.eqb c backslash then
        match r with
        | EmptyString => None
        | String e r1 =>
            match simple_escape e with
            | Some ch => prepend (String ch EmptyString) (string_body r1)
            | None =>
                if Ascii.eqb e "u" then
                  match r1 with
                  | String h1 (String h2 (String h3 (String h4 r2))) =>
                      match hex4_value h1 h2 h3 h4 with
                      | None => None
                      | Some hi =>
                          let alone := prepend (utf8 hi) (string_body r2) in
                          if high_surrogate hi then
                            match r2 with
                            | String b (String u
                                (String l1 (String l2 (String l3 (String l4 r3))))) =>
                                if Ascii.eqb b backslash && Ascii.eqb u "u" then
                                  match hex4_value l1 l2 l3 l4 with
                                  | Some lo =>
                                      if low_surrogate lo then
                                        prepend
                                          (utf8 (65536 + (hi - 55296) * 1024 + (lo - 56320))%N)
                                          (string_body r3)
                                      else alone
                                  | None => alone
                                  end
                                else alone
                            | _ => alone
                            end
                          else alone
                      end
                  | _ => None
                  end
                else None
            end
        end
      else if (N_of_ascii c <? 32)%N then None
      else prepend (String c EmptyString) (string_body r)
  end.

Fixpoint span_digits (s : string) : string * string :=
  match s with
  | String c r =>
      if is_digit c then let '(d, rest) := span_digits r in (String c d, rest)
      else (EmptyString, s)
  | EmptyString => (EmptyString, s)
  end.

(** The optional fraction of a number literal: its digits and the rest. *)
Definition fraction (s : string) : option (string * string) :=
  match s with
  | String c r =>
      if Ascii.eqb c "." then
        let '(fd, rest) := span_digits r in
        if String.eqb fd "" then None else Some (fd, rest)
      else Some (EmptyString, s)
  | EmptyString => Some (EmptyString, s)
  end.

(** An optional sign: whether it is a minus, and the rest. *)
Definition sign (plus_too : bool) (s : string) : bool * string :=
  match s with
  | String c r =>
      if Ascii.eqb c "-" then (true, r)
      else if plus_too && Ascii.eqb c "+" then (false, r)
      else (false, s)
  | EmptyString => (false, s)
  end.

(** The optional exponent of a number literal: its value and the rest. *)
Definition exponent_part (s : string) : option (Z * string) :=
  match s with
  | String c r =>
      if Ascii.eqb c "e" || Ascii.eqb c "E" then
        let '(minus, r1) := sign true r in
        let '(ed, rest) := span_digits r1 in
        if String.eqb ed "" then None
        else
          let e := Z.of_N (digits_value ed) in
          Some (if minus then (- e)%Z else e, rest)
      else Some (0%Z, s)
  | EmptyString => Some (0%Z, s)
  end.

(** A number literal: [-? int frac? exp?], [int] without a leading zero. *)
Definition number_literal (s : string) : option (number * string) :=
  let '(negative, s1) := sign false s in
  let '(int, s2) := span_digits s1 in
  match int with
  | EmptyString => None
  | String d more =>
      if Ascii.eqb d "0" && negb (String.eqb more "") then None
      else
        match fraction s2 with
        | None => None
        | Some (fd, s3) =>
            match exponent_part s3 with
            | None => None
            | Some (e, s4) =>
                let m := Z.of_N (digits_value (int ++ fd)) in
                Some (normal (Number (if negative then (- m)%Z else m)
                                (e - Z.of_nat (String.length fd))%Z),
                      s4)
            end
        end
  end.

(** The input after the keyword [k], if it starts with [k]. *)
Fixpoint keyword (k : string) (s : string) : option string :=
  match k, s with
  | EmptyString, _ => Some s
  | String a k', String b s' => if Ascii.eqb a b then keyword k' s' else None
  | String _ _, EmptyString => None
  end.

(** One JSON value at the head of [s], after optional white space; then the
    elements of an array after its first bracket, and the members of an
    object after its first brace.  [fuel] bounds the calls in a chain: each
    one has consumed a character more than the one before, so twice the
    length of the text and two is never used up ([fuel_is_enough] below). *)
Fixpoint json_value (fuel : nat) (s : string) : option (value * string) :=
  match fuel with
  | O => None
  | S f =>
      match skip_space s with
      | EmptyString => None
      | String c r as t =>
          if Ascii.eqb c quote_char then
            match string_body r with
            | Some (str, rest) => Some (JStr str, rest)
            | None => None
            end
          else if Ascii.eqb c "[" then
            match skip_space r with
            | EmptyString => None
            | String c' rest =>
                if Ascii.eqb c' "]" then Some (JArr [], rest)
                else
                  match json_elements f r with
                  | Some (items, rest') => Some (JArr items, rest')
                  | None => None
                  end
            end
          else if Ascii.eqb c "{" then
            match skip_space r with
            | EmptyString => None
            | String c' rest =>
                if Ascii.eqb c' "}" then Some (JObj [], rest)
                else
                  match json_members f [] r with
                  | Some (ps, rest') => Some (JObj ps, rest')
                  | None => None
                  end
            end
          else if Ascii.eqb c "n" then
            match keyword "null" t with Some rest => Some (JNull, rest) | None => None end
          else if Ascii.eqb c "t" then
            match keyword "true" t with Some rest => Some (JBool true, rest) | None => None end
          else if Ascii.eqb c "f" then
            match keyword "false" t with Some rest => Some (JBool false, rest) | None => None end
          else
            match number_literal t with
            | Some (n, rest) => Some (JNum n, rest)
            | None => None
            end
      end
  end

with json_elements (fuel : nat) (s : string) : option (list value * string) :=
  match fuel with
  | O => None
  | S f =>
      match json_value f s with
      | None => None
      | Some (v, rest) =>
          match skip_space rest with
          | EmptyString => None
          | String c rest' =>
              if Ascii.eqb c "]" then Some ([v], rest')
              else if Ascii.eqb c "," then
                match json_elements f rest' with
                | Some (vs, rest'') => Some (v :: vs, rest'')
                | None => None
                end
              else None
          end
      end
  end

with json_members (fuel : nat) (acc : props) (s : string) : option (props * string) :=
  match fuel with
  | O => None
  | S f =>
      match skip_space s with
      | EmptyString => None
      | String q r =>
          if Ascii.eqb q quote_char then
            match string_body r with
            | None => None
            | Some (k, rest) =>
                match skip_space rest with
                | EmptyString => None
                | String c rest1 =>
                    if Ascii.eqb c ":" then
                      match json_value f rest1 with
                      | None => None
                      | Some (v, rest2) =>
                          let acc' := define_prop k v acc in
                          match skip_space rest2 with
                          | EmptyString => None
                          | String c' rest3 =>
                              if Ascii.eqb c' "}" then Some (acc', rest3)
                              else if Ascii.eqb c' "," then json_members f acc' rest3
                              else None
                          end
                      end
                    else None
                end
            end
          else None
      end
  end.

(** [JSON.parse(text)]: [None] stands for the [SyntaxError] it throws.  The
    numbers of the text are kept as written; they are the numbers of
    JavaScript where [numbers_kept] holds of the value. *)
Definition JSON_parse (text : string) : option value :=
  match json_value (2 * String.length text + 2) text with
  | Some (v, rest) =>
      match skip_space rest with
      | EmptyString => Some v
      | _ => None
      end
  | None => None
  end.

End JS.

Import JS.

(* ================================================================== *)
(** * Exceptions and effects                                            *)
(* ================================================================== *)

Module Effects.

(** What a [throw], or the rejection of an awaited promise, carries. *)
Inductive thrown :=
| ErrorObject (name message : string) (stack : value)  (* [instanceof Error] *)
| Thrown (v : value).                                  (* any other value *)

(** The [TypeError] of a property read on [null] or [undefined], and the
    [SyntaxError] of [JSON.parse]; the wording of the message is the
    engine's. *)
Definition TypeError (receiver key : string) : thrown :=
  ErrorObject "TypeError"
    ("Cannot read properties of " ++ receiver ++ " (reading '" ++ key ++ "')")
    JUndefined.

Definition SyntaxError (text : string) : thrown :=
  ErrorObject "SyntaxError" ("Unexpected token in JSON: " ++ text) JUndefined.

(** [e instanceof Error ? e.message : other]. *)
Definition message_or (e : thrown) (other : value) : value :=
  match e with
  | ErrorObject _ m _ => JStr m
  | Thrown _ => other
  end.

Inductive result (A : Type) :=
| Ok (a : A)
| Throw (e : thrown).

Arguments Ok {A} a.
Arguments Throw {A} e.

(** Code with effects on a world [W]: it may end in a [throw], and what it
    did to the world before stays done. *)
Definition M (W A : Type) : Type := W -> result A * W.

Class Monad (T : Type -> Type) := {
  ret : forall {A : Type}, A -> T A;
  bind : forall {A B : Type}, T A -> (A -> T B) -> T B
}.

#[export] Instance result_monad : Monad result := {|
  ret := fun A a => Ok a;
  bind := fun A B m k => match m with Ok a => k a | Throw e => Throw e end
|}.

#[export] Instance M_monad (W : Type) : Monad (M W) := {|
  ret := fun A a w => (Ok a, w);
  bind := fun A B m k w =>
            match m w with
            | (Ok a, w') => k a w'
            | (Throw e, w') => (Throw e, w')
            end
|}.

Declare Scope monad_scope.
Delimit Scope monad_scope with monad.

Notation "x <- c1 ;; c2" := (bind c1 (fun x => c2))
  (at level 61, c1 at next level, right associativity) : monad_scope.
Notation "c1 ;; c2" := (bind c1 (fun _ => c2))
  (at level 61, right associativity) : monad_scope.

Local Open Scope monad_scope.

(** A pure computation that may throw, run inside effectful code. *)
Definition lift {W A : Type} (r : result A) : M W A := fun w => (r, w).

Definition throw {W A : Type} (e : thrown) : M W A := fun w => (Throw e, w).

Definition gets {W A : Type} (f : W -> A) : M W A := fun w => (Ok (f w), w).

Definition modify {W : Type} (f : W -> W) : M W unit := fun w => (Ok tt, f w).

(** [try { body } catch (e) { handler }], with and without effects. *)
Definition try_catch {W A : Type} (body : M W A) (handler : thrown -> M W A) : M W A :=
  fun w =>
    match body w with
    | (Ok a, w') => (Ok a, w')
    | (Throw e, w') => handler e w'
    end.

Definition catch {A : Type} (body : result A) (handler : thrown -> result A) : result A :=
  match body with
  | Ok a => Ok a
  | Throw e => handler e
  end.

(** [try { body } finally { after }]: [after] runs on every way out of
    [body], and the outcome of [body] stands unless [after] throws. *)
Definition try_finally {W A : Type} (body : M W A) (after : M W unit) : M W A :=
  fun w =>
    let '(r, w1) := body w in
    match after w1 with
    | (Ok _, w2) => (r, w2)
    | (Throw e, w2) => (Throw e, w2)
    end.

(** Every run of [m] ends well with a result in [Q], or in a throw of
    something in [E]. *)
Definition spec {W A : Type} (m : M W A) (Q : A -> Prop) (E : thrown -> Prop) : Prop :=
  forall w, match fst (m w) with
            | Ok a => Q a
            | Throw e => E e
            end.

(** [m] never throws, and its result is in [Q]. *)
Definition returns {W A : Type} (m : M W A) (Q : A -> Prop) : Prop :=
  spec m Q (fun _ => False).

(** The run of [m] from the world [w] ends with an outcome and a world that
    [Q] holds of. *)
Definition runs {W A : Type} (m : M W A) (w : W) (Q : result A -> W -> Prop) : Prop :=
  Q (fst (m w)) (snd (m w)).

(** [v.k]: reading a property of [null] or [undefined] throws. *)
Definition get (v : value) (k : string) : result value :=
  if nullish v then Throw (TypeError (ToString v) k) else Ok (get_opt v k).

(** [String(v)]: the text, or the [TypeError] of a value that has none
    (the wording of its message is the engine's). *)
Definition String_of (v : value) : result string :=
  if stringable v then Ok (ToString v)
  else Throw (ErrorObject "TypeError" "Cannot convert object to primitive value" JUndefined).

(** [JSON.parse(v)], the argument converted to text first. *)
Definition JSON_parse_value (v : value) : result value :=
  text <- String_of v ;;
  match JSON_parse text with
  | Some parsed => Ok parsed
  | None => Throw (SyntaxError text)
  end.

(** An optional string of the typed interfaces, as a value. *)
Definition optional (o : option string) : value :=
  match o with Some s => JStr s | None => JUndefined end.

(** [a || b] on optional strings: the empty string is falsy. *)
Definition or_else (a b : option string) : option string :=
  match a with
  | Some s => if String.eqb s "" then b else a
  | None => b
  end.

(** [res.ok]: the status is in the range 200 to 299. *)
Definition ok_status (status : Z) : bool := (200 <=? status)%Z && (status <=? 299)%Z.

(** The outcome of the one HTTP request of a call: [fetch] rejects, or it
    answers with a status and [res.text()] yields the body or rejects. *)
Inductive transport :=
| Rejects (e : thrown)
| Responds (status : Z) (text : result string).

End Effects.

Import Effects.
Local Open Scope monad_scope.

(* ================================================================== *)
(** * src/hooks/useAgent.ts                                             *)
(* ================================================================== *)

Module UseAgent.

Definition LYZR_API_URL : string := "https://agent-prod.studio.lyzr.ai/v3/inference/chat".

(** ** Types *)

Inductive error_type := react_error | api_error | parse_error | network_error | unknown.

(** [interface ErrorDetails].  A field the interface declares a string holds
    whatever the untyped payload put there, so it is a [value]; an optional
    field that is absent is [JUndefined]. *)
Module ErrorDetails.
Record t := make {
  type : error_type;
  message : value;
  stack : value;
  raw_response : value;
  endpoint : string;
  timestamp : string;
  userAgent : string;
  url : string
}.
End ErrorDetails.
Definition ErrorDetails : Type := ErrorDetails.t.

(** [interface AgentResponse]. *)
Module AgentResponse.
Record t := make {
  success : bool;
  data : value;
  message : value;
  raw_response : value;
  error : option ErrorDetails
}.
End AgentResponse.
Definition AgentResponse : Type := AgentResponse.t.

(** [interface UseAgentOptions]; a callback is known by a number. *)
Module UseAgentOptions.
Record t := make {
  agentId : option string;
  onError : option nat;
  showErrorModal : option bool
}.
End UseAgentOptions.
Definition UseAgentOptions : Type := UseAgentOptions.t.

(** [interface AgentCallOptions]. *)
Module AgentCallOptions.
Record t := make {
  message : string;
  agentId : option string;
  userId : option string;
  sessionId : option string;
  assets : option (list string)
}.
End AgentCallOptions.
Definition AgentCallOptions : Type := AgentCallOptions.t.

(** The third parameter of [callAgentAPI]. *)
Module ApiOptions.
Record t := make {
  userId : option string;
  sessionId : option string;
  assets : option (list string)
}.
End ApiOptions.
Definition ApiOptions : Type := ApiOptions.t.

(** ** The world of a call *)

(** What the function meets outside itself. *)
Record Host := {
  (** [new Date().toISOString()], reading by reading *)
  Date_toISOString : nat -> string;
  (** [navigator.userAgent], when [typeof navigator !== 'undefined'] *)
  navigator : option string;
  (** [window.location.href], when [typeof window !== 'undefined'] *)
  window : option string;
  (** [import.meta.env] *)
  VITE_LYZR_API_KEY : option string;
  VITE_AGENT_ID : option string;
  (** what becomes of the HTTP request *)
  network : transport;
  (** the answer of [isInIframe()] of [@/components/ErrorBoundary], which is
      not among the sources: whether the page is embedded in a host frame *)
  isInIframe : bool
}.

(** What the function does to the outside, in the order it does it: the
    request, the messages to the host frame, the calls of the observers. *)
Inductive event :=
| Requested (url api_key body : string)
| SentToParent (e : ErrorDetails)
| FixRequested (e : ErrorDetails)
| GlobalError (callback : nat) (e : option ErrorDetails)
| OnError (callback : nat) (e : ErrorDetails).

(** The state of one [useAgent] hook: its three [useState] cells. *)
Module Hook.
Record t := make {
  loading : bool;
  error : option ErrorDetails;
  lastResponse : value
}.
End Hook.

Record State := {
  (** [let globalErrorCallback]: the single slot of the module *)
  globalErrorCallback : option nat;
  clock : nat;
  events : list event;
  hook : Hook.t
}.

Definition emit (e : event) : M State unit :=
  modify (fun s => {| globalErrorCallback := globalErrorCallback s;
                      clock := clock s;
                      events := (events s ++ [e])%list;
                      hook := hook s |}).

Definition set_hook (f : Hook.t -> Hook.t) : M State unit :=
  modify (fun s => {| globalErrorCallback := globalErrorCallback s;
                      clock := clock s;
                      events := events s;
                      hook := f (hook s) |}).

(** Modelled from the spec: [sendErrorToParent] and [requestFixFromParent]
    of [@/components/ErrorBoundary], which is not among the sources.  The
    forwarding of an error record to the host frame "is fire-and-forget and
    must never block or fail the primary call path": the message is sent and
    the call goes on. *)
Definition sendErrorToParent (e : ErrorDetails) : M State unit := emit (SentToParent e).
Definition requestFixFromParent (e : ErrorDetails) : M State unit := emit (FixRequested e).

(** A call of a registered observer, [globalErrorCallback] or
    [options.onError]: the observer is outside the program, its call is
    recorded and returns. *)
Definition call_global (callback : nat) (e : option ErrorDetails) : M State unit :=
  emit (GlobalError callback e).
Definition call_onError (callback : nat) (e : ErrorDetails) : M State unit :=
  emit (OnError callback e).

Definition setLoading (b : bool) : M State unit :=
  set_hook (fun h => Hook.make b (Hook.error h) (Hook.lastResponse h)).

Definition setError (e : option ErrorDetails) : M State unit :=
  set_hook (fun h => Hook.make (Hook.loading h) e (Hook.lastResponse h)).

Definition setLastResponse (v : value) : M State unit :=
  set_hook (fun h => Hook.make (Hook.loading h) (Hook.error h) v).

Definition setGlobalErrorCallback (callback : nat) : M State unit :=
  modify (fun s => {| globalErrorCallback := Some callback;
                      clock := clock s;
                      events := events s;
                      hook := hook s |}).

Definition clearGlobalError : M State unit :=
  cb <- gets globalErrorCallback ;;
  match cb with
  | Some c => call_global c None
  | None => ret tt
  end.

(** ** extractAgentMessage *)

(** Lines 90 to 110 of the source, "Priority 2: Try raw_response": where
    [extractAgentMessage] goes on when [data.response] is no usable object. *)
Definition from_raw_response (data response : value) : result value :=
  own <- get data "raw_response" ;;
  let rawResponse := js_or (get_opt response "raw_response") own in
  if truthy rawResponse then
    catch
      (parsed <- JSON_parse_value rawResponse ;;
       (* Extract message from common structures *)
       result_ <- get parsed "result" ;;
       if truthy (get_opt result_ "message") then get result_ "message"
       else
         message <- get parsed "message" ;;
         if truthy message then ret message
         else
           status <- get parsed "status" ;;
           if is_string status "success" && truthy result_ then
             if String.eqb (typeof result_) "string" then ret result_
             else
               m <- get result_ "message" ;;
               ret (js_or m (JSON_stringify_2 result_))
           else ret (JSON_stringify_2 parsed))
      (* raw_response is plain text *)
      (fun _ => ret rawResponse)
  else ret (JStr "No response received").

Definition extractAgentMessage (data : value) : result value :=
  response <- get data "response" ;;
  (* Priority 1: Check if response has valid parsed data *)
  if truthy response && String.eqb (typeof response) "object" then
    success <- get response "success" ;;
    error <- get response "error" ;;
    (* Check if parsing failed *)
    if is_false success || truthy error then
      (* Parsing failed - fall through to raw_response *)
      from_raw_response data response
    else
      (* Valid parsed response - extract message *)
      result_ <- get response "result" ;;
      if truthy (get_opt result_ "message") then get result_ "message"
      else
        message <- get response "message" ;;
        if truthy message then ret message
        else if truthy result_ && String.eqb (typeof result_) "string" then ret result_
        else if String.eqb (typeof response) "string" then ret response
        (* Return stringified object *)
        else ret (JSON_stringify_2 response)
  else from_raw_response data response.

(** ** detectError *)

Section WithHost.

Variable host : Host.

Definition now : M State string :=
  fun s => (Ok (Date_toISOString host (clock s)),
            {| globalErrorCallback := globalErrorCallback s;
               clock := S (clock s);
               events := events s;
               hook := hook s |}).

(** [typeof navigator !== 'undefined' ? navigator.userAgent : 'unknown'] *)
Definition userAgent_or_unknown : string :=
  match navigator host with Some ua => ua | None => "unknown" end.

(** [typeof window !== 'undefined' ? window.location.href : 'unknown'] *)
Definition href_or_unknown : string :=
  match window host with Some href => href | None => "unknown" end.

Definition detectError (data : value) (endpoint : string) : M State (option ErrorDetails) :=
  response <- lift (get data "response") ;;
  (* Check for parse error (response.success === false with error message) *)
  parse_failed <-
    (if truthy response && String.eqb (typeof response) "object" then
       success <- lift (get response "success") ;;
       error <- lift (get response "error") ;;
       ret (is_false success && truthy error)
     else ret false) ;;
  if parse_failed then
    message <- lift (get response "error") ;;
    own <- lift (get data "raw_response") ;;
    t <- now ;;
    ret (Some (ErrorDetails.make parse_error message JUndefined
                 (js_or (get_opt response "raw_response") own)
                 endpoint t userAgent_or_unknown href_or_unknown))
  else
    (* Check for top-level API error *)
    success <- lift (get data "success") ;;
    error <- lift (get data "error") ;;
    if is_false success && truthy error then
      details <- lift (get data "details") ;;
      own <- lift (get data "raw_response") ;;
      t <- now ;;
      ret (Some (ErrorDetails.make api_error error JUndefined
                   (js_or details own)
                   endpoint t userAgent_or_unknown href_or_unknown))
    else ret None.

(** ** The request and the envelope, shared by the hook and [callAgentAPI] *)

(** The tolerant extractor [parseLLMJson] of [@/utils/jsonParser] is not
    among the sources.  It is a parameter: any function from the body to a
    value, or to a throw. *)
Variable parseLLMJson : string -> result value.

(** [const LYZR_API_KEY = import.meta.env.VITE_LYZR_API_KEY || ''] *)
Definition LYZR_API_KEY : string :=
  match or_else (VITE_LYZR_API_KEY host) (Some "") with Some k => k | None => "" end.

Definition assets_value (a : option (list string)) : value :=
  match a with Some l => JArr (map JStr l) | None => JUndefined end.

(** [await fetch(LYZR_API_URL, {method: 'POST', headers, body})] followed by
    [await res.text()]: the status and the body, or the rejection. *)
Definition fetch_text (body : value) : M State (Z * string) :=
  emit (Requested LYZR_API_URL LYZR_API_KEY (ToString (JSON_stringify body))) ;;
  match network host with
  | Rejects e => throw e
  | Responds status (Ok rawText) => ret (status, rawText)
  | Responds status (Throw e) => throw e
  end.

(** [left || new Date().toISOString()]: the clock is read only if needed. *)
Definition or_now (left : value) : M State value :=
  if truthy left then ret left else (t <- now ;; ret (JStr t)).

(** "Transform Lyzr API response to expected format": the value of [data]. *)
Definition envelope (status : Z) (rawText : string) (parsed : value)
    (agentId userId sessionId : value) : M State value :=
  if ok_status status then
    (* Check if parsing failed *)
    if is_false (get_opt parsed "success") || truthy (get_opt parsed "error") then
      ret (object [("success", JBool false);
                   ("error", js_or (get_opt parsed "error") (JStr "Failed to parse agent response"));
                   ("raw_response", JStr rawText)])
    else
      t <- or_now (get_opt parsed "timestamp") ;;
      ret (object [("success", JBool true);
                   ("response", parsed);
                   ("agent_id", js_or (get_opt parsed "agent_id") agentId);
                   ("user_id", js_or (get_opt parsed "user_id") userId);
                   ("session_id", js_or (get_opt parsed "session_id") sessionId);
                   ("timestamp", t);
                   ("raw_response", JStr rawText)])
  else
    ret (object [("success", JBool false);
                 ("error", js_or (get_opt parsed "error")
                             (js_or (get_opt parsed "message")
                                 (JStr ("API returned status "
                                        ++ number_toString (number_of_Z status)))));
                 ("details", JStr rawText);
                 ("raw_response", JStr rawText)]).

(** [if (globalErrorCallback && enabled) globalErrorCallback(e)] *)
Definition notify_global (enabled : bool) (e : ErrorDetails) : M State unit :=
  cb <- gets globalErrorCallback ;;
  match cb with
  | Some c => if enabled then call_global c (Some e) else ret tt
  | None => ret tt
  end.

(** ** useAgent: callAgent *)

Definition not_false (b : option bool) : bool :=
  match b with Some false => false | _ => true end.

Definition notify_onError (options : UseAgentOptions) (e : ErrorDetails) : M State unit :=
  match UseAgentOptions.onError options with
  | Some c => call_onError c e
  | None => ret tt
  end.

(** [navigator.userAgent] and [window.location.href], read unguarded: a
    [ReferenceError] where the global is not defined. *)
Definition navigator_userAgent : M State string :=
  match navigator host with
  | Some ua => ret ua
  | None => throw (ErrorObject "ReferenceError" "navigator is not defined" JUndefined)
  end.

Definition window_location_href : M State string :=
  match window host with
  | Some href => ret href
  | None => throw (ErrorObject "ReferenceError" "window is not defined" JUndefined)
  end.

Definition callAgent (options : UseAgentOptions) (callOptions : AgentCallOptions)
    : M State AgentResponse :=
  let message := AgentCallOptions.message callOptions in
  let userId := AgentCallOptions.userId callOptions in
  let sessionId := AgentCallOptions.sessionId callOptions in
  let assets := AgentCallOptions.assets callOptions in
  let finalAgentId :=
    or_else (AgentCallOptions.agentId callOptions)
      (or_else (UseAgentOptions.agentId options) (VITE_AGENT_ID host)) in
  if negb (truthy (optional finalAgentId)) then
    t <- now ;;
    ua <- navigator_userAgent ;;
    href <- window_location_href ;;
    let err := ErrorDetails.make api_error (JStr "No agent_id provided") JUndefined JUndefined
                 LYZR_API_URL t ua href in
    setError (Some err) ;;
    ret (AgentResponse.make false JNull (JStr "No agent_id provided") JUndefined (Some err))
  else
    setLoading true ;;
    setError None ;;
    try_finally
      (try_catch
         (res <- fetch_text (object [("message", JStr message);
                                     ("agent_id", optional finalAgentId);
                                     ("user_id", optional userId);
                                     ("session_id", optional sessionId);
                                     ("assets", assets_value assets)]) ;;
          let '(status, rawText) := res in
          (* Parse with bulletproof JSON parser *)
          parsed <- lift (parseLLMJson rawText) ;;
          data <- envelope status rawText parsed
                    (optional finalAgentId) (optional userId) (optional sessionId) ;;
          setLastResponse data ;;
          (* Detect any errors (parse errors, API errors) *)
          detectedError <- detectError data LYZR_API_URL ;;
          match detectedError with
          | Some e =>
              setError (Some e) ;;
              (if isInIframe host then
                 sendErrorToParent e ;;
                 notify_global (not_false (UseAgentOptions.showErrorModal options)) e
               else ret tt) ;;
              notify_onError options e ;;
              (* Still return the extracted message as fallback *)
              message <- lift (extractAgentMessage data) ;;
              raw <- lift (get data "raw_response") ;;
              ret (AgentResponse.make false JNull message raw (Some e))
          | None =>
              (* Success - extract message *)
              extractedMessage <- lift (extractAgentMessage data) ;;
              response <- lift (get data "response") ;;
              raw <- lift (get data "raw_response") ;;
              ret (AgentResponse.make true response extractedMessage raw None)
          end)
         (fun networkError =>
            t <- now ;;
            ua <- navigator_userAgent ;;
            href <- window_location_href ;;
            let err := ErrorDetails.make network_error
                         (message_or networkError (JStr "Network request failed"))
                         (match networkError with
                          | ErrorObject _ _ stack => stack
                          | Thrown _ => JUndefined
                          end)
                         JUndefined LYZR_API_URL t ua href in
            setError (Some err) ;;
            (if isInIframe host then
               sendErrorToParent err ;;
               notify_global (not_false (UseAgentOptions.showErrorModal options)) err
             else ret tt) ;;
            notify_onError options err ;;
            ret (AgentResponse.make false JNull (JStr "Failed to connect to agent")
                   JUndefined (Some err))))
      (setLoading false).

(** [requestFix] and [clearError] of the hook. *)
Definition requestFix : M State unit :=
  error <- gets (fun s => Hook.error (hook s)) ;;
  match error with
  | Some e => requestFixFromParent e
  | None => ret tt
  end.

Definition clearError : M State unit := setError None.

(** ** callAgentAPI *)

Definition callAgentAPI (message agentId : string) (options : option ApiOptions)
    : M State AgentResponse :=
  let userId := match options with Some o => ApiOptions.userId o | None => None end in
  let sessionId := match options with Some o => ApiOptions.sessionId o | None => None end in
  let assets := match options with Some o => ApiOptions.assets o | None => None end in
  try_catch
    (res <- fetch_text (object [("message", JStr message);
                                ("agent_id", JStr agentId);
                                ("user_id", optional userId);
                                ("session_id", optional sessionId);
                                ("assets", assets_value assets)]) ;;
     let '(status, rawText) := res in
     (* Parse with bulletproof JSON parser *)
     parsed <- lift (parseLLMJson rawText) ;;
     data <- envelope status rawText parsed
               (JStr agentId) (optional userId) (optional sessionId) ;;
     detectedError <- detectError data LYZR_API_URL ;;
     match detectedError with
     | Some e =>
         (if isInIframe host then
            sendErrorToParent e ;;
            notify_global true e
          else ret tt) ;;
         message <- lift (extractAgentMessage data) ;;
         raw <- lift (get data "raw_response") ;;
         ret (AgentResponse.make false JNull message raw (Some e))
     | None =>
         response <- lift (get data "response") ;;
         message <- lift (extractAgentMessage data) ;;
         raw <- lift (get data "raw_response") ;;
         ret (AgentResponse.make true response message raw None)
     end)
    (fun networkError =>
       t <- now ;;
       let err := ErrorDetails.make network_error
                    (message_or networkError (JStr "Network request failed"))
                    JUndefined JUndefined "/api/agent" t
                    userAgent_or_unknown href_or_unknown in
       (if isInIframe host then
          sendErrorToParent err ;;
          notify_global true err
        else ret tt) ;;
       ret (AgentResponse.make false JNull (JStr "Failed to connect to agent")
              JUndefined (Some err))).

End WithHost.

End UseAgent.

(* ================================================================== *)
(** * src/utils/aiAgent.ts                                              *)
(* ================================================================== *)

Module AiAgent.

Definition LYZR_API_URL : string := "https://agent-prod.studio.lyzr.ai/v3/inference/chat/".

(** [interface AIAgentResponse]; an absent field is [JUndefined]. *)
Module AIAgentResponse.
Record t := make {
  success : bool;
  response : value;
  agent_id : value;
  user_id : value;
  session_id : value;
  timestamp : value;
  raw_response : value;
  error : value;
  details : value
}.
End AIAgentResponse.
Definition AIAgentResponse : Type := AIAgentResponse.t.

(** The third parameter of [callAIAgent]. *)
Module Options.
Record t := make {
  user_id : option string;
  session_id : option string
}.
End Options.
Definition Options : Type := Options.t.

(** ** Random numbers

    A result of [Math.random()]: a binary64 in the interval from 0 up to, not
    including, 1.  Every such number is [numerator / 2 ^ scale] with
    [numerator < 2 ^ scale]. *)
Record unit_double := {
  numerator : N;
  scale : N;
  below_one : (numerator <? 2 ^ scale)%N = true
}.

(** [ToInt32] of an integer: wrap-around into the signed 32-bit range. *)
Definition ToInt32 (z : Z) : Z :=
  ((z + 2147483648) mod 4294967296 - 2147483648)%Z.

(** [a | b] and [a & b] on integers. *)
Definition bit_or (a b : Z) : Z := ToInt32 (Z.lor (ToInt32 a) (ToInt32 b)).
Definition bit_and (a b : Z) : Z := ToInt32 (Z.land (ToInt32 a) (ToInt32 b)).

(** [x * 16 | 0]: the product is exact, [| 0] drops its fraction. *)
Definition times16_or_0 (x : unit_double) : Z :=
  bit_or (Z.of_N ((numerator x * 16) / 2 ^ scale x)) 0.

(** ** The world of a call *)

Record Host := {
  (** [Math.random()], call by call *)
  Math_random : nat -> unit_double;
  (** [new Date().toISOString()] *)
  Date_toISOString : string;
  (** [import.meta.env.VITE_LYZR_API_KEY] *)
  VITE_LYZR_API_KEY : option string;
  (** what becomes of the HTTP request *)
  network : transport
}.

Inductive event :=
| Requested (url api_key body : string)
| ConsoleError (label : string) (e : thrown).

Record State := {
  draws : nat;
  events : list event
}.

Definition emit (e : event) : M State unit :=
  modify (fun s => {| draws := draws s; events := (events s ++ [e])%list |}).

Section WithHost.

Variable host : Host.

Definition random : M State unit_double :=
  fun s => (Ok (Math_random host (draws s)),
            {| draws := S (draws s); events := events s |}).

(** ** generateUUID *)

(** The function given to [replace]: the text put in place of [c]. *)
Definition replacement (c : ascii) : M State string :=
  x <- random ;;
  let r := times16_or_0 x in
  let v := if Ascii.eqb c "x" then r else bit_or (bit_and r 3) 8 in
  ret (toString16 v).

(** [template.replace(/[xy]/g, replacement)], left to right. *)
Fixpoint replace_xy (template : string) : M State string :=
  match template with
  | EmptyString => ret EmptyString
  | String c rest =>
      if Ascii.eqb c "x" || Ascii.eqb c "y" then
        h <- replacement c ;;
        t <- replace_xy rest ;;
        ret (h ++ t)
      else
        t <- replace_xy rest ;;
        ret (String c t)
  end.

Definition generateUUID : M State string :=
  replace_xy "xxxxxxxx-xxxx-4xxx-yxxx-xxxxxxxxxxxx".

(** ** callAIAgent *)

(** The tolerant extractor [parseLLMJson] of [@/utils/jsonParser] is not
    among the sources.  It is a parameter: any function from the body to a
    value, or to a throw. *)
Variable parseLLMJson : string -> result value.

(** [const LYZR_API_KEY = import.meta.env.VITE_LYZR_API_KEY || ''] *)
Definition LYZR_API_KEY : string :=
  match or_else (VITE_LYZR_API_KEY host) (Some "") with Some k => k | None => "" end.

(** [await fetch(...)] followed by [await response.text()]. *)
Definition fetch_text (body : value) : M State (Z * string) :=
  emit (Requested LYZR_API_URL LYZR_API_KEY (ToString (JSON_stringify body))) ;;
  match network host with
  | Rejects e => throw e
  | Responds status (Ok rawText) => ret (status, rawText)
  | Responds status (Throw e) => throw e
  end.

Definition status_message (status : Z) : string :=
  "API returned status " ++ number_toString (number_of_Z status).

(** [given || fresh], the fresh identifier made only when needed. *)
Definition given_or (given : option string) (fresh : M State string) : M State string :=
  match given with
  | Some s => if String.eqb s "" then fresh else ret s
  | None => fresh
  end.

(** "Try to parse error response": the value of [errorData], the [catch]
    of the inner [try] included. *)
Definition error_data (status : Z) (rawText : string) : result value :=
  catch
    (first <- parseLLMJson rawText ;;
     if truthy first then ret first else JSON_parse_value (JStr rawText))
    (fun _ => ret (object [("error", js_or (JStr rawText) (JStr (status_message status)))])).

(** [error instanceof Error ? error.message : String(error)]: the
    conversion of what is no [Error] may throw. *)
Definition describe (error : thrown) : result value :=
  match error with
  | ErrorObject _ m _ => ret (JStr m)
  | Thrown v => text <- String_of v ;; ret (JStr text)
  end.

Definition callAIAgent (message agent_id : string) (options : option Options)
    : M State AIAgentResponse :=
  try_catch
    ((* Auto-generate IDs if not provided *)
     user_id <- given_or (match options with Some o => Options.user_id o | None => None end)
                  (u <- generateUUID ;; ret ("user-" ++ u)) ;;
     session_id <- given_or (match options with Some o => Options.session_id o | None => None end)
                     (u <- generateUUID ;; ret (agent_id ++ "-" ++ substring 0 12 u)) ;;
     (* Direct call to Lyzr Agent API *)
     res <- fetch_text (object [("message", JStr message);
                                ("agent_id", JStr agent_id);
                                ("user_id", JStr user_id);
                                ("session_id", JStr session_id)]) ;;
     let '(status, rawText) := res in
     if ok_status status then
       (* Parse raw response with bulletproof JSON parser *)
       parsed <- lift (parseLLMJson rawText) ;;
       (* Check if parsing failed *)
       if is_false (get_opt parsed "success") || truthy (get_opt parsed "error") then
         ret (AIAgentResponse.make false JUndefined JUndefined JUndefined JUndefined JUndefined
                (JStr rawText)
                (js_or (get_opt parsed "error") (JStr "Failed to parse agent response"))
                JUndefined)
       else
         ret (AIAgentResponse.make true parsed
                (js_or (get_opt parsed "agent_id") (JStr agent_id))
                (js_or (get_opt parsed "user_id") (JStr user_id))
                (js_or (get_opt parsed "session_id") (JStr session_id))
                (js_or (get_opt parsed "timestamp") (JStr (Date_toISOString host)))
                (JStr rawText) JUndefined JUndefined)
     else
       (* Try to parse error response *)
       errorData <- lift (error_data status rawText) ;;
       error <- lift (get errorData "error") ;;
       message <- lift (get errorData "message") ;;
       details <- lift (get errorData "details") ;;
       ret (AIAgentResponse.make false JUndefined JUndefined JUndefined JUndefined JUndefined
              (JStr rawText)
              (js_or error (js_or message (JStr (status_message status))))
              (js_or details (JStr rawText))))
    (fun error =>
       emit (ConsoleError "AI Agent call failed:" error) ;;
       details <- lift (describe error) ;;
       ret (AIAgentResponse.make false JUndefined JUndefined JUndefined JUndefined JUndefined
              JUndefined
              (JStr "Failed to call AI agent")
              details)).

End WithHost.

End AiAgent.

(* ================================================================== *)
(** * The extractor and the worlds the statements speak of              *)
(* ================================================================== *)

Module Extractor.

(** Modelled from the spec: the failure result of the tolerant extractor (the
    last step of its algorithm), "carrying the original text as rawResponse
    and a diagnostic message".  The callers recognise it by
    [parsed?.success === false || parsed?.error]. *)
Definition failure (diagnostic text : string) : value :=
  object [("success", JBool false); ("error", JStr diagnostic); ("raw_response", JStr text)].

(** What the callers test on the extractor's answer: "Check if parsing
    failed". *)
Definition failed (parsed : value) : bool :=
  is_false (get_opt parsed "success") || truthy (get_opt parsed "error").

(** Modelled from the spec: [parseLLMJson] of [@/utils/jsonParser], which
    is not among the sources, cut down to two steps of its algorithm: the
    strict parse of the text (step 2) and the failure result (step 5).  It
    is the extractor of the examples; the theorems are about every
    extractor. *)
Definition strict (text : string) : result value :=
  match JSON_parse text with
  | Some v => Ok v
  | None => Ok (failure "No valid JSON found in response" text)
  end.

End Extractor.

Module Worlds.

Import UseAgent.

(** A browser page, embedded in a host frame or not, whose one request
    ends as [net] says. *)
Definition browser (embedded : bool) (net : transport) : Host := {|
  Date_toISOString := fun n => "2024-01-01T00:00:0" ++ digits (N.of_nat n) ++ ".000Z";
  navigator := Some "Mozilla/5.0";
  window := Some "https://app.example/";
  VITE_LYZR_API_KEY := Some "key";
  VITE_AGENT_ID := None;
  network := net;
  isInIframe := embedded
|}.

(** A page just loaded: an observer of errors registered, nothing done
    yet. *)
Definition fresh : State := {|
  globalErrorCallback := Some 0;
  clock := 0;
  events := [];
  hook := Hook.make false None JNull
|}.


(** The bodies the statements speak of. *)
Definition hello_body : string := dq "{'result': {'message': 'hello'}}".
Definition rate_limited_body : string := dq "{'error': 'rate limited'}".
Definition oops_body : string := dq "{'message': 'oops'}".
Definition quoted_hello : string := dq "'hello'".
Definition number_body : string := dq "{'message': 42}".

(** The error type a result carries, if any. *)
Definition classification (r : AgentResponse) : option error_type :=
  match AgentResponse.error r with
  | Some e => Some (ErrorDetails.type e)
  | None => None
  end.

Definition is_parse_error (t : option error_type) : bool :=
  match t with Some parse_error => true | _ => false end.

(** The envelope [callAgentAPI] builds around a parsed value that shows no
    failure mark, given the body it was parsed from. *)
Definition wrapped (parsed : value) (rawText : string) : value :=
  object [("success", JBool true); ("response", parsed); ("raw_response", JStr rawText)].

(** The message of a usable response: the first of the four sources that
    applies, in the order of the source text. *)
Definition priority (response : value) : value :=
  let result_ := get_opt response "result" in
  if truthy (get_opt result_ "message") then get_opt result_ "message"
  else if truthy (get_opt response "message") then get_opt response "message"
  else if truthy result_ && (typeof result_ =? "string") then result_
  else JSON_stringify_2 response.

(** The test of the first branch of [detectError]: the response is an
    object that says [success: false] and carries an error. *)
Definition parse_error_shown (data : value) : bool :=
  let response := get_opt data "response" in
  truthy response && (typeof response =? "object")
  && (is_false (get_opt response "success") && truthy (get_opt response "error")).

(** The envelope of a failure: no response, the body kept. *)
Definition unwrapped (rawText : string) : value :=
  object [("raw_response", JStr rawText)].

(** The message [extractAgentMessage] finds in an envelope. *)
Definition message_of (data : value) : value :=
  match extractAgentMessage data with
  | Ok v => v
  | Throw _ => JUndefined
  end.

(** "API returned status N". *)
Definition status_message (status : Z) : value :=
  JStr ("API returned status " ++ number_toString (number_of_Z status)).

(** The three results [callAgentAPI] can hand back. *)
Definition connection_failed (e : thrown) (r : AgentResponse) : Prop :=
  AgentResponse.success r = false /\
  AgentResponse.data r = JNull /\
  AgentResponse.message r = JStr "Failed to connect to agent" /\
  AgentResponse.raw_response r = JUndefined /\
  exists d, AgentResponse.error r = Some d /\
            ErrorDetails.type d = network_error /\
            ErrorDetails.message d = message_or e (JStr "Network request failed").

Definition api_failed (message : value) (rawText : string) (r : AgentResponse) : Prop :=
  AgentResponse.success r = false /\
  AgentResponse.data r = JNull /\
  AgentResponse.message r = message_of (unwrapped rawText) /\
  AgentResponse.raw_response r = JStr rawText /\
  exists d, AgentResponse.error r = Some d /\
            ErrorDetails.type d = api_error /\
            ErrorDetails.message d = message /\
            ErrorDetails.raw_response d = JStr rawText.

Definition succeeded (parsed : value) (rawText : string) (r : AgentResponse) : Prop :=
  AgentResponse.success r = true /\
  AgentResponse.data r = parsed /\
  AgentResponse.message r = message_of (wrapped parsed rawText) /\
  AgentResponse.raw_response r = JStr rawText /\
  AgentResponse.error r = None.

(** The message of the error record when the status is not a success. *)
Definition api_error_message (status : Z) (parsed : value) : value :=
  js_or (get_opt parsed "error") (js_or (get_opt parsed "message") (status_message status)).

(** The message of the error record when the extractor failed. *)
Definition parse_failure_message (parsed : value) : value :=
  js_or (get_opt parsed "error") (JStr "Failed to parse agent response").

(** What [detectError] and [extractAgentMessage] read of the envelope. *)
Definition envelope_reads (status : Z) (rawText : string) (parsed data : value) : Prop :=
  nullish data = false /\
  get_opt data "raw_response" = JStr rawText /\
  if ok_status status && negb (Extractor.failed parsed) then
    get_opt data "response" = parsed /\ get_opt data "success" = JBool true
  else
    get_opt data "response" = JUndefined /\
    get_opt data "success" = JBool false /\
    get_opt data "error" = (if ok_status status then parse_failure_message parsed
                            else api_error_message status parsed) /\
    (get_opt data "details" = JUndefined \/ get_opt data "details" = JStr rawText).

(** What [callAgentAPI] hands back, case by case: by what the network did,
    what the extractor [parse] made of the body, and the status. *)
Definition api_outcome (net : transport) (parse : string -> result value)
    (r : AgentResponse) : Prop :=
  match net with
  | Rejects e | Responds _ (Throw e) => connection_failed e r
  | Responds status (Ok rawText) =>
      match parse rawText with
      | Throw e => connection_failed e r
      | Ok parsed =>
          if ok_status status then
            if Extractor.failed parsed
            then api_failed (parse_failure_message parsed) rawText r
            else succeeded parsed rawText r
          else api_failed (api_error_message status parsed) rawText r
      end
  end.

(** The result of the hook's [callAgent] when no identifier is at hand. *)
Definition identifier_missing (r : AgentResponse) : Prop :=
  AgentResponse.success r = false /\
  AgentResponse.data r = JNull /\
  AgentResponse.message r = JStr "No agent_id provided" /\
  exists d, AgentResponse.error r = Some d /\
            ErrorDetails.type d = api_error /\
            ErrorDetails.message d = JStr "No agent_id provided".

(** The identifier the hook settles on:
    [agentId || options.agentId || import.meta.env.VITE_AGENT_ID]. *)
Definition finalAgentId (host : Host) (options : UseAgentOptions)
    (callOptions : AgentCallOptions) : option string :=
  or_else (AgentCallOptions.agentId callOptions)
    (or_else (UseAgentOptions.agentId options) (VITE_AGENT_ID host)).

(** What reaches the [catch] of [callAgentAPI]: the rejection of the request,
    or a throw of the extractor. *)
Definition caught (net : transport) (parse : string -> result value) (e : thrown) : Prop :=
  match net with
  | Rejects e' | Responds _ (Throw e') => e = e'
  | Responds _ (Ok rawText) => parse rawText = Throw e
  end.

(** What the transport threw, if it threw: [fetch] or [res.text()]. *)
Definition transport_failure (net : transport) : option thrown :=
  match net with
  | Rejects e => Some e
  | Responds _ (Throw e) => Some e
  | Responds _ (Ok _) => None
  end.

End Worlds.

Module AiWorlds.

Import AiAgent.

(** A page whose random numbers are [j / 1024] for [j] running through the
    residues, and whose one request ends as [net] says. *)
Definition draw (n : nat) : unit_double :=
  {| numerator := N.of_nat n mod 1024; scale := 10;
     below_one := proj2 (N.ltb_lt _ _) (N.mod_lt (N.of_nat n) 1024 (N.neq_succ_0 1023)) |}.

Definition page (net : transport) : Host := {|
  Math_random := fun n => draw (n * 37 + 900);
  Date_toISOString := "2024-01-01T00:00:00.000Z";
  VITE_LYZR_API_KEY := Some "key";
  network := net
|}.

Definition fresh : State := {| draws := 0; events := [] |}.

(** The result of the [catch] of [callAIAgent]. *)
Definition call_failed (e : thrown) (r : AIAgentResponse) : Prop :=
  AIAgentResponse.success r = false /\
  AIAgentResponse.error r = JStr "Failed to call AI agent" /\
  describe e = Ok (AIAgentResponse.details r) /\
  AIAgentResponse.response r = JUndefined /\
  AIAgentResponse.raw_response r = JUndefined.

(** The result for a status that is not a success, read off [errorData]. *)
Definition status_failed (status : Z) (rawText : string) (errorData : value)
    (r : AIAgentResponse) : Prop :=
  AIAgentResponse.success r = false /\
  AIAgentResponse.error r
  = js_or (get_opt errorData "error")
      (js_or (get_opt errorData "message") (JStr (status_message status))) /\
  AIAgentResponse.details r = js_or (get_opt errorData "details") (JStr rawText) /\
  AIAgentResponse.raw_response r = JStr rawText.

(** What [callAIAgent] hands back, case by case. *)
Definition ai_outcome (net : transport) (parse : string -> result value)
    (r : AIAgentResponse) : Prop :=
  match net with
  | Rejects e | Responds _ (Throw e) => call_failed e r
  | Responds status (Ok rawText) =>
      if ok_status status then
        match parse rawText with
        | Throw e => call_failed e r
        | Ok parsed =>
            if Extractor.failed parsed then
              AIAgentResponse.success r = false /\
              AIAgentResponse.error r = Worlds.parse_failure_message parsed /\
              AIAgentResponse.raw_response r = JStr rawText
            else
              AIAgentResponse.success r = true /\
              AIAgentResponse.response r = parsed /\
              AIAgentResponse.raw_response r = JStr rawText /\
              AIAgentResponse.error r = JUndefined
        end
      else
        match error_data parse status rawText with
        | Throw e => call_failed e r
        | Ok errorData =>
            if nullish errorData
            then call_failed (TypeError (ToString errorData) "error") r
            else status_failed status rawText errorData r
        end
  end.

(** What reaches the [catch] of [callAIAgent]. *)
Definition caught (net : transport) (parse : string -> result value) (e : thrown) : Prop :=
  match net with
  | Rejects e' | Responds _ (Throw e') => e = e'
  | Responds status (Ok rawText) =>
      if ok_status status then parse rawText = Throw e
      else
        match error_data parse status rawText with
        | Throw e' => e = e'
        | Ok errorData =>
            nullish errorData = true /\ e = TypeError (ToString errorData) "error"
        end
  end.

(** What [callAIAgent] throws, when it does: what the conversion of the
    value it caught threw, in its [catch]. *)
Definition rejected (net : transport) (parse : string -> result value) (t : thrown) : Prop :=
  exists e, caught net parse e /\ describe e = Throw t.

End AiWorlds.

Module Uuid.

(** The shape of a version-4 UUID in text: 8-4-4-4-12. *)
Definition lower_hex (c : ascii) : bool :=
  let n := N_of_ascii c in
  ((48 <=? n)%N && (n <=? 57)%N) || ((97 <=? n)%N && (n <=? 102)%N).

Definition variant_digit (c : ascii) : bool :=
  Ascii.eqb c "8" || Ascii.eqb c "9" || Ascii.eqb c "a" || Ascii.eqb c "b".

Definition char_ok (i : nat) (c : ascii) : bool :=
  if Nat.eqb i 8 || Nat.eqb i 13 || Nat.eqb i 18 || Nat.eqb i 23 then Ascii.eqb c "-"
  else if Nat.eqb i 14 then Ascii.eqb c "4"
  else if Nat.eqb i 19 then variant_digit c
  else lower_hex c.

Fixpoint chars_ok_from (i : nat) (s : string) : bool :=
  match s with
  | EmptyString => true
  | String c r => char_ok i c && chars_ok_from (S i) r
  end.

Definition is_uuid_v4 (u : string) : bool :=
  Nat.eqb (String.length u) 36 && chars_ok_from 0 u.

(** What a character of the output may be, given the character of the
    template it stands for. *)
Definition stands_for (t o : ascii) : bool :=
  if Ascii.eqb t "x" then lower_hex o
  else if Ascii.eqb t "y" then variant_digit o
  else Ascii.eqb o t.

Fixpoint instance_of (template out : string) : bool :=
  match template, out with
  | EmptyString, EmptyString => true
  | String t tr, String o rest => stands_for t o && instance_of tr rest
  | _, _ => false
  end.

End Uuid.

(* ================================================================== *)
(** * What a call does to the world around it                           *)
(* ================================================================== *)

Module Traces.

Import UseAgent.

(** From [s] to [s']: the events [l] were added, in this order, the slot of
    the observer is as it was, and the cells of the hook are [h] (the clock
    has no observer). *)
Definition reached (l : list event) (h : Hook.t) (s s' : State) : Prop :=
  events s' = (events s ++ l)%list /\
  globalErrorCallback s' = globalErrorCallback s /\
  hook s' = h.

(** The events [l] were added and nothing else has changed. *)
Definition added (l : list event) (s s' : State) : Prop := reached l (hook s) s s'.

(** What the hook keeps of the answer: the envelope when one was built, else
    what it held. *)
Definition last_response (net : transport) (parse : string -> result value)
    (before after : value) : Prop :=
  match net with
  | Responds status (Ok rawText) =>
      match parse rawText with
      | Ok parsed => Worlds.envelope_reads status rawText parsed after
      | Throw _ => after = before
      end
  | _ => after = before
  end.

(** The request of [callAgentAPI]. *)
Definition api_request (host : Host) (message agentId : string) (options : option ApiOptions)
    : event :=
  let userId := match options with Some o => ApiOptions.userId o | None => None end in
  let sessionId := match options with Some o => ApiOptions.sessionId o | None => None end in
  let assets := match options with Some o => ApiOptions.assets o | None => None end in
  Requested LYZR_API_URL (LYZR_API_KEY host)
    (ToString (JSON_stringify (object [("message", JStr message);
                                       ("agent_id", JStr agentId);
                                       ("user_id", optional userId);
                                       ("session_id", optional sessionId);
                                       ("assets", assets_value assets)]))).

(** The request of the hook's [callAgent]. *)
Definition hook_request (host : Host) (options : UseAgentOptions)
    (callOptions : AgentCallOptions) : event :=
  Requested LYZR_API_URL (LYZR_API_KEY host)
    (ToString (JSON_stringify
       (object [("message", JStr (AgentCallOptions.message callOptions));
                ("agent_id", optional (Worlds.finalAgentId host options callOptions));
                ("user_id", optional (AgentCallOptions.userId callOptions));
                ("session_id", optional (AgentCallOptions.sessionId callOptions));
                ("assets", assets_value (AgentCallOptions.assets callOptions))]))).

(** What is told of the error [e] outside the page: the host frame hears
    of it when the page is embedded, and then the registered observer too,
    if there is one and it is not switched off. *)
Definition forwarded (host : Host) (observer : option nat) (enabled : bool)
    (e : ErrorDetails) : list event :=
  if isInIframe host then
    SentToParent e ::
    match observer with
    | Some c => if enabled then [GlobalError c (Some e)] else []
    | None => []
    end
  else [].

(** What [callAgentAPI] tells of the error of its result. *)
Definition api_reports (host : Host) (observer : option nat) (error : option ErrorDetails)
    : list event :=
  match error with
  | Some e => forwarded host observer true e
  | None => []
  end.

(** What the hook tells of the error of its result: as above, under the
    switch [showErrorModal], and then its own observer [onError]. *)
Definition hook_reports (host : Host) (options : UseAgentOptions) (observer : option nat)
    (error : option ErrorDetails) : list event :=
  match error with
  | Some e =>
      (forwarded host observer (not_false (UseAgentOptions.showErrorModal options)) e
       ++ match UseAgentOptions.onError options with
          | Some c => [OnError c e]
          | None => []
          end)%list
  | None => []
  end.

(** What holds when the hook's [callAgent] is done with a request: one
    request was sent; the error of the result, if any, was told; the hook is
    not loading, and its error is the error of the result. *)
Definition settled (host : Host) (parse : string -> result value)
    (options : UseAgentOptions) (callOptions : AgentCallOptions)
    (s : State) (r : result AgentResponse) (s' : State) : Prop :=
  match r with
  | Ok a =>
      events s' = (events s ++ hook_request host options callOptions
                     :: hook_reports host options (globalErrorCallback s)
                          (AgentResponse.error a))%list /\
      globalErrorCallback s' = globalErrorCallback s /\
      Hook.loading (hook s') = false /\
      Hook.error (hook s') = AgentResponse.error a /\
      last_response (network host) parse
        (Hook.lastResponse (hook s)) (Hook.lastResponse (hook s'))
  | Throw _ => False
  end.

(** Two results that say the same: the same fields, and error records of
    the same type with the same message. *)
Definition same_answer (r1 r2 : AgentResponse) : Prop :=
  AgentResponse.success r1 = AgentResponse.success r2 /\
  AgentResponse.data r1 = AgentResponse.data r2 /\
  AgentResponse.message r1 = AgentResponse.message r2 /\
  AgentResponse.raw_response r1 = AgentResponse.raw_response r2 /\
  match AgentResponse.error r1, AgentResponse.error r2 with
  | Some d1, Some d2 =>
      ErrorDetails.type d1 = ErrorDetails.type d2 /\
      ErrorDetails.message d1 = ErrorDetails.message d2
  | None, None => True
  | _, _ => False
  end.

(** The options with which [callAgentAPI] does what the hook's [callAgent]
    does with [callOptions]. *)
Definition api_options (callOptions : AgentCallOptions) : option ApiOptions :=
  Some (ApiOptions.make (AgentCallOptions.userId callOptions)
          (AgentCallOptions.sessionId callOptions)
          (AgentCallOptions.assets callOptions)).

(** Code run where there is no page: [navigator] and [window] are not
    defined. *)
Definition off_page (net : transport) : Host := {|
  Date_toISOString := fun _ => "2024-01-01T00:00:00.000Z";
  navigator := None;
  window := None;
  VITE_LYZR_API_KEY := Some "key";
  VITE_AGENT_ID := Some "agent-1";
  network := net;
  isInIframe := false
|}.


(** The events the hook's [requestFix] adds for the error it holds. *)
Definition fix_request (error : option ErrorDetails) : list event :=
  match error with
  | Some e => [FixRequested e]
  | None => []
  end.

(** What [detectError] looks for: a [success] that is [false] next to an
    [error], in the response or at the top. *)
Definition failure_flagged (data : value) : bool :=
  Worlds.parse_error_shown data
  || (is_false (get_opt data "success") && truthy (get_opt data "error")).

End Traces.

(* ================================================================== *)
(** * src/utils/aiAgent.ts: the hook and the ready-made requests        *)
(* ================================================================== *)

Module UseAIAgent.

Import AiAgent.

(** The three [useState] cells of one [useAIAgent] hook. *)
Module Cells.
Record t := make {
  loading : bool;
  error : value;
  response : value
}.
End Cells.

(** The world of the hook: the world of [callAIAgent], and the cells. *)
Record HookState := {
  world : State;
  cells : Cells.t
}.

(** A run of code that knows nothing of the cells. *)
Definition within {A : Type} (m : M State A) : M HookState A :=
  fun s => let '(r, w) := m (world s) in (r, {| world := w; cells := cells s |}).

Definition set_cells (f : Cells.t -> Cells.t) : M HookState unit :=
  modify (fun s => {| world := world s; cells := f (cells s) |}).

Definition setLoading (b : bool) : M HookState unit :=
  set_cells (fun c => Cells.make b (Cells.error c) (Cells.response c)).

Definition setError (e : value) : M HookState unit :=
  set_cells (fun c => Cells.make (Cells.loading c) e (Cells.response c)).

Definition setResponse (v : value) : M HookState unit :=
  set_cells (fun c => Cells.make (Cells.loading c) (Cells.error c) v).

Section WithHost.

Variable host : Host.
Variable parseLLMJson : string -> result value.

Definition callAgent (message agent_id : string) (options : option Options)
    : M HookState AIAgentResponse :=
  setLoading true ;;
  setError JNull ;;
  setResponse JNull ;;
  result <- within (callAIAgent host parseLLMJson message agent_id options) ;;
  (if AIAgentResponse.success result then
     setResponse (AIAgentResponse.response result)
   else
     setError (js_or (AIAgentResponse.error result) (JStr "Unknown error"))) ;;
  setLoading false ;;
  ret result.

End WithHost.

End UseAIAgent.

(** "Common AI Agent Use Cases": [generateCommitMessage], [explainCode],
    [getSuggestions], [generateDocs]. *)
Module UseCases.

Import AiAgent.

(** A line feed, the [\n] of the prompts. *)
Definition nl : string := String newline EmptyString.

(** [text.split('\n')]. *)
Fixpoint split_lines (text : string) : list string :=
  match text with
  | EmptyString => [EmptyString]
  | String c rest =>
      if Ascii.eqb c newline then EmptyString :: split_lines rest
      else
        match split_lines rest with
        | line :: lines => String c line :: lines
        | [] => [String c EmptyString]
        end
  end.

(** The white space and line terminators of three bytes that [trim] strips:
    U+1680, U+2000 to U+200A, U+2028, U+2029, U+202F, U+205F, U+3000 and
    U+FEFF, in UTF-8. *)
Definition space_of_three (x y z : N) : bool :=
  ((x =? 225) && (y =? 154) && (z =? 128))%N
  || ((x =? 226) && (y =? 128)
      && (((128 <=? z) && (z <=? 138)) || (z =? 168) || (z =? 169) || (z =? 175)))%N
  || ((x =? 226) && (y =? 129) && (z =? 159))%N
  || ((x =? 227) && (y =? 128) && (z =? 128))%N
  || ((x =? 239) && (y =? 187) && (z =? 191))%N.

(** [line.trim().length > 0] is false: the line is made of white space and
    line terminators only (U+0009 to U+000D, U+0020, U+00A0 and those of
    three bytes). *)
Fixpoint blank (line : string) : bool :=
  match line with
  | EmptyString => true
  | String a r =>
      let x := N_of_ascii a in
      if ((9 <=? x) && (x <=? 13))%N || (x =? 32)%N then blank r
      else
        match r with
        | EmptyString => false
        | String b r' =>
            let y := N_of_ascii b in
            if ((x =? 194) && (y =? 160))%N then blank r'
            else
              match r' with
              | EmptyString => false
              | String c r'' =>
                  if space_of_three x y (N_of_ascii c) then blank r'' else false
              end
        end
  end.

(** [typeof response === 'string' ? response
     : response.message || response.response || fallback] *)
Definition text_of (response : value) (fallback : string) : result value :=
  if typeof response =? "string" then ret response
  else
    message <- get response "message" ;;
    if truthy message then ret message
    else
      inner <- get response "response" ;;
      ret (js_or inner (JStr fallback)).

Section WithHost.

Variable host : Host.
Variable parseLLMJson : string -> result value.

Definition generateCommitMessage (changes agent_id : string) : M State value :=
  result <- callAIAgent host parseLLMJson
              ("Generate a concise git commit message for these changes:" ++ nl ++ nl
               ++ changes ++ nl ++ nl
               ++ "Requirements:" ++ nl
               ++ "- One line summary (max 72 chars)" ++ nl
               ++ "- Present tense" ++ nl
               ++ "- No quotes")
              agent_id None ;;
  if AIAgentResponse.success result && truthy (AIAgentResponse.response result) then
    lift (text_of (AIAgentResponse.response result) "Update")
  else ret (JStr "Update").

Definition explainCode (code agent_id : string) : M State value :=
  result <- callAIAgent host parseLLMJson
              ("Explain this code in simple terms:" ++ nl ++ nl ++ code)
              agent_id None ;;
  if AIAgentResponse.success result && truthy (AIAgentResponse.response result) then
    lift (text_of (AIAgentResponse.response result) "")
  else ret (JStr "").

Definition getSuggestions (code agent_id : string) : M State (list string) :=
  result <- callAIAgent host parseLLMJson
              ("Suggest improvements for this code:" ++ nl ++ nl ++ code ++ nl ++ nl
               ++ "Provide 3-5 specific suggestions.")
              agent_id None ;;
  if AIAgentResponse.success result && truthy (AIAgentResponse.response result) then
    text <- lift (text_of (AIAgentResponse.response result) "") ;;
    (* Split by newlines and filter out empty lines *)
    match text with
    | JStr s => ret (filter (fun line => negb (blank line)) (split_lines s))
    | _ => throw (ErrorObject "TypeError" "text.split is not a function" JUndefined)
    end
  else ret [].

Definition generateDocs (code agent_id : string) : M State value :=
  result <- callAIAgent host parseLLMJson
              ("Generate JSDoc documentation for this code:" ++ nl ++ nl ++ code)
              agent_id None ;;
  if AIAgentResponse.success result && truthy (AIAgentResponse.response result) then
    lift (text_of (AIAgentResponse.response result) "")
  else ret (JStr "").

End WithHost.

End UseCases.

(** What the statements about [src/utils/aiAgent.ts] are written with. *)
Module AiTraces.

Import AiAgent.

(** From [s] to [s']: [n] random numbers were drawn and the events [l]
    added. *)
Definition advanced (n : nat) (l : list event) (s s' : State) : Prop :=
  draws s' = draws s + n /\ events s' = (events s ++ l)%list.

(** An identifier of the caller's that is used: one that is not empty. *)
Definition given (o : option string) : option string :=
  match o with
  | Some s => if String.eqb s "" then None else Some s
  | None => None
  end.

Definition user_id_of (options : option Options) : option string :=
  given (match options with Some o => Options.user_id o | None => None end).

Definition session_id_of (options : option Options) : option string :=
  given (match options with Some o => Options.session_id o | None => None end).

(** How many identifiers [callAIAgent] has to make. *)
Definition missing (options : option Options) : nat :=
  (match user_id_of options with Some _ => 0 | None => 1 end)
  + (match session_id_of options with Some _ => 0 | None => 1 end).

(** The characters of a template that [replace] puts a digit for. *)
Fixpoint count_xy (template : string) : nat :=
  match template with
  | EmptyString => 0
  | String c rest =>
      (if Ascii.eqb c "x" || Ascii.eqb c "y" then 1 else 0) + count_xy rest
  end.

(** The request of [callAIAgent] for the identifiers it settled on. *)
Definition request (host : Host) (message agent_id user_id session_id : string) : event :=
  Requested LYZR_API_URL (LYZR_API_KEY host)
    (ToString (JSON_stringify (object [("message", JStr message);
                                       ("agent_id", JStr agent_id);
                                       ("user_id", JStr user_id);
                                       ("session_id", JStr session_id)]))).

(** The identifiers sent: the caller's, or fresh ones of the two shapes. *)
Definition user_id_sent (options : option Options) (user_id : string) : Prop :=
  match user_id_of options with
  | Some s => user_id = s
  | None => exists u, Uuid.is_uuid_v4 u = true /\ user_id = "user-" ++ u
  end.

Definition session_id_sent (agent_id : string) (options : option Options)
    (session_id : string) : Prop :=
  match session_id_of options with
  | Some s => session_id = s
  | None => exists u, Uuid.is_uuid_v4 u = true /\
                      session_id = agent_id ++ "-" ++ substring 0 12 u
  end.

(** What reaches the [catch] of [callAIAgent], if anything does. *)
Definition failure (net : transport) (parse : string -> result value) : option thrown :=
  match net with
  | Rejects e | Responds _ (Throw e) => Some e
  | Responds status (Ok rawText) =>
      if ok_status status then
        match parse rawText with
        | Throw e => Some e
        | Ok _ => None
        end
      else
        match error_data parse status rawText with
        | Throw e => Some e
        | Ok errorData =>
            if nullish errorData then Some (TypeError (ToString errorData) "error") else None
        end
  end.


(** What the console shows of a call. *)
Definition console (net : transport) (parse : string -> result value) : list event :=
  match failure net parse with
  | Some e => [ConsoleError "AI Agent call failed:" e]
  | None => []
  end.

(** The identifiers of a result that says success: those of the answer,
    and where it has none those of the request. *)
Definition echoes (host : Host) (agent_id user_id session_id : string)
    (r : AIAgentResponse) : Prop :=
  let parsed := AIAgentResponse.response r in
  AIAgentResponse.agent_id r = js_or (get_opt parsed "agent_id") (JStr agent_id) /\
  AIAgentResponse.user_id r = js_or (get_opt parsed "user_id") (JStr user_id) /\
  AIAgentResponse.session_id r = js_or (get_opt parsed "session_id") (JStr session_id) /\
  AIAgentResponse.timestamp r
  = js_or (get_opt parsed "timestamp") (JStr (Date_toISOString host)).

(** What is known of a run of [callAIAgent] when it ends, by a result or by
    a throw: the identifiers it settled on, the random numbers it drew, the
    request and what the console shows, and what a success names. *)
Definition sent (host : Host) (parse : string -> result value)
    (message agent_id : string) (options : option Options)
    (s : State) (out : result AIAgentResponse) (s' : State) : Prop :=
  exists user_id session_id,
    user_id_sent options user_id /\
    session_id_sent agent_id options session_id /\
    advanced (31 * missing options)
      (request host message agent_id user_id session_id :: console (network host) parse)
      s s' /\
    (forall a, out = Ok a -> AIAgentResponse.success a = true ->
               echoes host agent_id user_id session_id a).

(** The answer of the agent, when the call succeeds: the extractor's value
    for a body that came with a success status and shows no failure. *)
Definition answer (net : transport) (parse : string -> result value) : option value :=
  match net with
  | Responds status (Ok rawText) =>
      if ok_status status then
        match parse rawText with
        | Ok parsed => if Extractor.failed parsed then None else Some parsed
        | Throw _ => None
        end
      else None
  | _ => None
  end.

(** No line feed in the line. *)
Fixpoint one_line (line : string) : bool :=
  match line with
  | EmptyString => true
  | String c rest => negb (Ascii.eqb c newline) && one_line rest
  end.

End AiTraces.

(* ================================================================== *)
(** * Reasoning about runs                                              *)
(* ================================================================== *)

Module Logic.

Section Rules.

Context {W : Type}.

Lemma spec_ret {A} (a : A) (Q : A -> Prop) E : Q a -> spec (W := W) (ret a) Q E.
Proof. intros H w. exact H. Qed.

Lemma spec_throw {A} (e : thrown) (Q : A -> Prop) (E : thrown -> Prop) :
  E e -> spec (W := W) (throw e) Q E.
Proof. intros H w. exact H. Qed.

Lemma spec_lift {A} (r : result A) (Q : A -> Prop) (E : thrown -> Prop) :
  match r with Ok a => Q a | Throw e => E e end -> spec (W := W) (lift r) Q E.
Proof. intros H w. exact H. Qed.

Lemma spec_gets {A} (f : W -> A) (Q : A -> Prop) E :
  (forall w, Q (f w)) -> spec (gets f) Q E.
Proof. intros H w. apply H. Qed.

Lemma spec_modify (f : W -> W) (Q : unit -> Prop) E : Q tt -> spec (modify f) Q E.
Proof. intros H w. exact H. Qed.

Lemma spec_bind {A B} (m : M W A) (k : A -> M W B) (P : A -> Prop) Q E :
  spec m P E -> (forall a, P a -> spec (k a) Q E) -> spec (bind m k) Q E.
Proof.
  intros Hm Hk w. specialize (Hm w). cbn [bind M_monad].
  destruct (m w) as [[a | e] w']; cbn [fst] in *.
  - apply Hk, Hm.
  - exact Hm.
Qed.

Lemma spec_bind_lift_ok {A B} (a : A) (k : A -> M W B) Q E :
  spec (k a) Q E -> spec (bind (lift (Ok a)) k) Q E.
Proof. intros H w. apply H. Qed.

Lemma spec_bind_lift_throw {A B} (e : thrown) (k : A -> M W B) (Q : B -> Prop)
    (E : thrown -> Prop) :
  E e -> spec (bind (lift (Throw e)) k) Q E.
Proof. intros H w. exact H. Qed.

Lemma spec_weaken {A} (m : M W A) (P Q : A -> Prop) (D E : thrown -> Prop) :
  spec m P D -> (forall a, P a -> Q a) -> (forall e, D e -> E e) -> spec m Q E.
Proof.
  intros Hm HQ HE w. specialize (Hm w). destruct (fst (m w)); auto.
Qed.

(** What never throws fits every account of what may be thrown. *)
Lemma returns_spec {A} (m : M W A) (Q : A -> Prop) (E : thrown -> Prop) :
  returns m Q -> spec m Q E.
Proof. intros H. apply (spec_weaken m Q Q (fun _ => False)); auto. intros e []. Qed.

(** The rule of [try ... catch]: whatever the body throws is the handler's to
    answer for. *)
Lemma spec_try_catch {A} (body : M W A) (handler : thrown -> M W A)
    (Q : A -> Prop) (D E : thrown -> Prop) :
  spec body Q D -> (forall e, D e -> spec (handler e) Q E) ->
  spec (try_catch body handler) Q E.
Proof.
  intros Hb Hh w. specialize (Hb w). unfold try_catch.
  destruct (body w) as [[a | e] w']; cbn [fst] in *.
  - exact Hb.
  - apply Hh, Hb.
Qed.

(** The rule of [try ... finally] for a clean-up that cannot throw. *)
Lemma spec_try_finally {A} (body : M W A) (after : M W unit) (Q : A -> Prop) E :
  spec body Q E -> returns after (fun _ => True) -> spec (try_finally body after) Q E.
Proof.
  intros Hb Ha w. specialize (Hb w). unfold try_finally.
  destruct (body w) as [r w1]. specialize (Ha w1).
  destruct (after w1) as [[u | e] w2]; cbn [fst] in *.
  - exact Hb.
  - contradiction.
Qed.

(** A run that is specified never to throw hands over its result. *)
Lemma returns_run {A} (m : M W A) (Q : A -> Prop) :
  returns m Q -> forall w, exists a w', m w = (Ok a, w') /\ Q a.
Proof.
  intros H w. specialize (H w). destruct (m w) as [[a | e] w']; cbn [fst] in H.
  - eauto.
  - contradiction.
Qed.

End Rules.

(** ** Values *)

Lemma truthy_not_nullish v : truthy v = true -> nullish v = false.
Proof. destruct v; simpl; congruence. Qed.

Lemma truthy_get_opt_receiver v k : truthy (get_opt v k) = true -> nullish v = false.
Proof. destruct v; simpl; congruence. Qed.

Lemma get_present v k : nullish v = false -> get v k = Ok (get_opt v k).
Proof. unfold get. intros ->. reflexivity. Qed.

Lemma truthy_or_right a b : truthy b = true -> truthy (js_or a b) = true.
Proof. unfold js_or. destruct (truthy a) eqn:H; auto. Qed.

Lemma or_same a : js_or a a = a.
Proof. unfold js_or. destruct (truthy a); reflexivity. Qed.

Lemma catch_total (body : result value) (fallback : value) :
  exists w, catch body (fun _ => ret fallback) = Ok w.
Proof. destruct body; simpl; eauto. Qed.

Lemma object_not_nullish v :
  truthy v && (typeof v =? "object") = true -> nullish v = false.
Proof. intros H. apply andb_prop in H. apply truthy_not_nullish, H. Qed.

End Logic.

(* ================================================================== *)
(** * JSON.parse: the fuel is enough                                    *)
(* ================================================================== *)

Module JsonFacts.

Ltac break_match H :=
  match type of H with
  | context [match ?x with _ => _ end] => destruct x eqn:?
  end.

Lemma skip_space_length s : String.length (skip_space s) <= String.length s.
Proof.
  induction s as [|c r IH]; cbn; [lia|]. destruct (is_space c); cbn; lia.
Qed.

Lemma skip_space_head s c r :
  skip_space s = String c r -> String.length r < String.length s.
Proof.
  intros H. pose proof (skip_space_length s) as L. rewrite H in L. cbn in L. lia.
Qed.

Lemma prepend_rest p o t rest :
  prepend p o = Some (t, rest) -> exists t', o = Some (t', rest).
Proof.
  destruct o as [[t' r']|]; cbn; [|discriminate].
  intros H. injection H as _ <-. eauto.
Qed.

(** Every parser of a part leaves less than it was given. *)
Lemma string_body_length n : forall s t rest,
  String.length s <= n -> string_body s = Some (t, rest) ->
  String.length rest < String.length s.
Proof.
  induction n as [|n IH]; intros s t rest Hn H.
  - destruct s; [discriminate H | cbn in Hn; lia].
  - destruct s as [|c r]; [discriminate H|]. cbn [string_body] in H. cbv zeta in H.
    cbn [String.length] in *.
    repeat (break_match H; try discriminate H; subst; cbn [String.length] in * );
      try (injection H as _ <-; lia);
      apply prepend_rest in H; destruct H as [t' H];
      apply IH in H; cbn [String.length] in *; lia.
Qed.

Lemma span_digits_length s : forall d rest,
  span_digits s = (d, rest) -> String.length s = String.length d + String.length rest.
Proof.
  induction s as [|c r IH]; cbn [span_digits]; intros d rest H.
  - injection H as <- <-. reflexivity.
  - destruct (is_digit c).
    + destruct (span_digits r) as [d' rest'] eqn:E. injection H as <- <-.
      cbn. rewrite (IH _ _ eq_refl). reflexivity.
    + injection H as <- <-. reflexivity.
Qed.

Lemma fraction_length s fd rest :
  fraction s = Some (fd, rest) -> String.length rest <= String.length s.
Proof.
  unfold fraction. intros H.
  repeat (break_match H; try discriminate H; subst);
    injection H as <- <-;
    repeat match goal with
           | E : span_digits _ = _ |- _ => apply span_digits_length in E
           end;
    cbn [String.length] in *; lia.
Qed.

Lemma sign_length plus_too s minus rest :
  sign plus_too s = (minus, rest) -> String.length rest <= String.length s.
Proof.
  unfold sign. intros H.
  repeat (break_match H; try discriminate H; subst);
    injection H as <- <-; cbn [String.length]; lia.
Qed.

Lemma exponent_part_length s e rest :
  exponent_part s = Some (e, rest) -> String.length rest <= String.length s.
Proof.
  unfold exponent_part. intros H.
  repeat (break_match H; try discriminate H; subst);
    injection H as <- <-;
    repeat match goal with
           | E : span_digits _ = _ |- _ => apply span_digits_length in E
           | E : sign _ _ = _ |- _ => apply sign_length in E
           end;
    cbn [String.length] in *; lia.
Qed.

Lemma number_literal_length s x rest :
  number_literal s = Some (x, rest) -> String.length rest < String.length s.
Proof.
  unfold number_literal. intros H.
  repeat (break_match H; try discriminate H; subst).
  all: injection H as <- <-;
    repeat match goal with
           | E : span_digits _ = _ |- _ => apply span_digits_length in E
           | E : sign _ _ = _ |- _ => apply sign_length in E
           | E : fraction _ = _ |- _ => apply fraction_length in E
           | E : exponent_part _ = _ |- _ => apply exponent_part_length in E
           end;
    cbn [String.length] in *; lia.
Qed.

Lemma keyword_length k : forall s rest,
  keyword k s = Some rest -> String.length s = String.length k + String.length rest.
Proof.
  induction k as [|a k IH]; intros s rest H; cbn [keyword] in H.
  - destruct s; injection H as <-; reflexivity.
  - destruct s as [|b s]; [discriminate H|].
    destruct (Ascii.eqb a b); [|discriminate H].
    cbn. rewrite (IH _ _ H). reflexivity.
Qed.

(** A value, the elements of an array, the members of an object: each
    leaves less than it was given. *)
Lemma json_length n :
  (forall s v rest, json_value n s = Some (v, rest) -> String.length rest < String.length s)
  /\ (forall s vs rest,
         json_elements n s = Some (vs, rest) -> String.length rest < String.length s)
  /\ (forall acc s ps rest,
         json_members n acc s = Some (ps, rest) -> String.length rest < String.length s).
Proof.
  induction n as [|n (IHv & IHe & IHm)]; [repeat split; discriminate|].
  repeat split.
  - intros s v rest H. cbn [json_value] in H.
    repeat (break_match H; try discriminate H; subst);
      injection H as <- <-;
      repeat match goal with
             | E : skip_space _ = String _ _ |- _ => apply skip_space_head in E
             | E : string_body _ = _ |- _ => apply (string_body_length _ _ _ _ (le_n _)) in E
             | E : keyword _ _ = _ |- _ => apply keyword_length in E
             | E : number_literal _ = _ |- _ => apply number_literal_length in E
             | E : json_elements _ _ = _ |- _ => apply IHe in E
             | E : json_members _ _ _ = _ |- _ => apply IHm in E
             end;
      cbn [String.length] in *; lia.
  - intros s vs rest H. cbn [json_elements] in H.
    repeat (break_match H; try discriminate H; subst);
      injection H as <- <-;
      repeat match goal with
             | E : skip_space _ = String _ _ |- _ => apply skip_space_head in E
             | E : json_value _ _ = _ |- _ => apply IHv in E
             | E : json_elements _ _ = _ |- _ => apply IHe in E
             end;
      cbn [String.length] in *; lia.
  - intros acc s ps rest H. cbn [json_members] in H. cbv zeta in H.
    repeat (break_match H; try discriminate H; subst);
      try (injection H as <- <-);
      repeat match goal with
             | E : skip_space _ = String _ _ |- _ => apply skip_space_head in E
             | E : string_body _ = _ |- _ => apply (string_body_length _ _ _ _ (le_n _)) in E
             | E : json_value _ _ = _ |- _ => apply IHv in E
             | E : json_members _ _ _ = _ |- _ => apply IHm in E
             end;
      cbn [String.length] in *; lia.
Qed.
(** With fuel above twice the length of the text, more fuel changes
    nothing. *)
Lemma json_fuel n :
  (forall s m, 2 * String.length s + 1 <= n -> n <= m -> json_value m s = json_value n s)
  /\ (forall s m, 2 * String.length s + 2 <= n -> n <= m ->
                  json_elements m s = json_elements n s)
  /\ (forall acc s m, 2 * String.length s + 2 <= n -> n <= m ->
                      json_members m acc s = json_members n acc s).
Proof.
  induction n as [|n (IHv & IHe & IHm)]; [repeat split; intros; lia|].
  repeat split.
  - intros s m Hs Hm. destruct m as [|m]; [lia|]. cbn [json_value].
    destruct (skip_space s) as [|c r] eqn:Es; [reflexivity|].
    apply skip_space_head in Es.
    destruct (Ascii.eqb c quote_char); [reflexivity|].
    destruct (Ascii.eqb c "[").
    { destruct (skip_space r) as [|c' rest]; [reflexivity|].
      destruct (Ascii.eqb c' "]"); [reflexivity|].
      rewrite (IHe r m) by lia. reflexivity. }
    destruct (Ascii.eqb c "{").
    { destruct (skip_space r) as [|c' rest]; [reflexivity|].
      destruct (Ascii.eqb c' "}"); [reflexivity|].
      rewrite (IHm [] r m) by lia. reflexivity. }
    reflexivity.
  - intros s m Hs Hm. destruct m as [|m]; [lia|]. cbn [json_elements].
    rewrite (IHv s m) by lia.
    destruct (json_value n s) as [[v rest]|] eqn:Ev; [|reflexivity].
    apply (proj1 (json_length n)) in Ev.
    destruct (skip_space rest) as [|c rest'] eqn:Es; [reflexivity|].
    apply skip_space_head in Es.
    destruct (Ascii.eqb c "]"); [reflexivity|].
    destruct (Ascii.eqb c ","); [|reflexivity].
    rewrite (IHe rest' m) by lia. reflexivity.
  - intros acc s m Hs Hm. destruct m as [|m]; [lia|]. cbn [json_members].
    destruct (skip_space s) as [|q r] eqn:Es; [reflexivity|].
    apply skip_space_head in Es.
    destruct (Ascii.eqb q quote_char); [|reflexivity].
    destruct (string_body r) as [[k rest]|] eqn:Ek; [|reflexivity].
    apply (string_body_length _ _ _ _ (le_n _)) in Ek.
    destruct (skip_space rest) as [|c rest1] eqn:Es1; [reflexivity|].
    apply skip_space_head in Es1.
    destruct (Ascii.eqb c ":"); [|reflexivity].
    rewrite (IHv rest1 m) by lia.
    destruct (json_value n rest1) as [[v rest2]|] eqn:Ev; [|reflexivity].
    apply (proj1 (json_length n)) in Ev. cbv zeta.
    destruct (skip_space rest2) as [|c' rest3] eqn:Es2; [reflexivity|].
    apply skip_space_head in Es2.
    destruct (Ascii.eqb c' "}"); [reflexivity|].
    destruct (Ascii.eqb c' ","); [|reflexivity].
    apply IHm; lia.
Qed.

(** The fuel [JSON_parse] gives is enough: more of it changes nothing, so a
    refusal is a refusal of the text. *)
Theorem fuel_is_enough text m :
  2 * String.length text + 2 <= m ->
  json_value m text = json_value (2 * String.length text + 2) text.
Proof.
  intros H. apply (proj1 (json_fuel (2 * String.length text + 2))); lia.
Qed.
End JsonFacts.

(* ================================================================== *)
(** * extractAgentMessage                                               *)
(* ================================================================== *)

Module ExtractFacts.

Import UseAgent Worlds Logic.

(** The raw-response path always ends in a value: what its [try] block
    throws, its [catch] answers with the raw response. *)
Lemma from_raw_response_total data response :
  nullish data = false -> exists v, from_raw_response data response = Ok v.
Proof.
  intros Hd. unfold from_raw_response.
  rewrite (get_present data _ Hd). cbn [bind ret result_monad].
  destruct (truthy _).
  - apply catch_total.
  - eauto.
Qed.

(** Neither a response nor a raw response: the fixed text. *)
Lemma from_raw_response_nothing data response :
  nullish data = false ->
  truthy (js_or (get_opt response "raw_response") (get_opt data "raw_response")) = false ->
  from_raw_response data response = Ok (JStr "No response received").
Proof.
  intros Hd Hraw. unfold from_raw_response.
  rewrite (get_present data _ Hd). cbn [bind ret result_monad].
  rewrite Hraw. reflexivity.
Qed.

Lemma extractAgentMessage_usable data :
  nullish data = false ->
  truthy (get_opt data "response") && (typeof (get_opt data "response") =? "object") = true ->
  Extractor.failed (get_opt data "response") = false ->
  extractAgentMessage data = Ok (priority (get_opt data "response")).
Proof.
  intros Hd Hobj Hfail. unfold extractAgentMessage, priority.
  rewrite (get_present data _ Hd). cbn [bind ret result_monad].
  set (response := get_opt data "response") in *.
  rewrite Hobj.
  rewrite !(get_present response _ (object_not_nullish _ Hobj)).
  cbn [bind ret result_monad].
  unfold Extractor.failed in Hfail. rewrite Hfail.
  destruct (truthy (get_opt (get_opt response "result") "message")) eqn:Hm.
  - apply get_present, (truthy_get_opt_receiver _ _ Hm).
  - destruct (truthy (get_opt response "message")); [reflexivity|].
    destruct (truthy (get_opt response "result") && _); [reflexivity|].
    apply andb_prop in Hobj. destruct Hobj as [_ Hty].
    apply String.eqb_eq in Hty. rewrite Hty. reflexivity.
Qed.

Lemma extractAgentMessage_unusable data :
  nullish data = false ->
  truthy (get_opt data "response") && (typeof (get_opt data "response") =? "object")
    && negb (Extractor.failed (get_opt data "response")) = false ->
  extractAgentMessage data = from_raw_response data (get_opt data "response").
Proof.
  intros Hd Hun. unfold extractAgentMessage.
  rewrite (get_present data _ Hd). cbn [bind ret result_monad].
  set (response := get_opt data "response") in *.
  destruct (truthy response && (typeof response =? "object")) eqn:Hobj; [|reflexivity].
  rewrite !(get_present response _ (object_not_nullish _ Hobj)).
  cbn [bind ret result_monad].
  cbn [andb] in Hun. apply negb_false_iff in Hun.
  unfold Extractor.failed in Hun. rewrite Hun. reflexivity.
Qed.

(** No plain data makes [extractAgentMessage] throw. *)
Lemma extractAgentMessage_total data :
  nullish data = false -> exists v, extractAgentMessage data = Ok v.
Proof.
  intros Hd.
  destruct (truthy (get_opt data "response") && (typeof (get_opt data "response") =? "object")
            && negb (Extractor.failed (get_opt data "response"))) eqn:H.
  - apply andb_prop in H. destruct H as [Hobj Hfail]. apply negb_true_iff in Hfail.
    rewrite (extractAgentMessage_usable data Hd Hobj Hfail). eauto.
  - rewrite (extractAgentMessage_unusable data Hd H).
    apply from_raw_response_total, Hd.
Qed.

(** A response that is a string is no usable response: the result is
    that of the raw response, the same for every string. *)
Lemma string_response_ignored data (s t : string) :
  nullish data = false -> get_opt data "response" = JStr s ->
  extractAgentMessage data = from_raw_response data (JStr t).
Proof.
  intros Hd Hs. rewrite (extractAgentMessage_unusable data Hd).
  - rewrite Hs. reflexivity.
  - rewrite Hs. cbn [typeof]. destruct (truthy (JStr s)); reflexivity.
Qed.

End ExtractFacts.

(* ================================================================== *)
(** * callAgentAPI                                                      *)
(* ================================================================== *)

Module ApiFacts.

Import UseAgent Worlds Logic ExtractFacts.

Lemma extractAgentMessage_reads d1 d2 :
  nullish d1 = false -> nullish d2 = false ->
  get_opt d1 "response" = get_opt d2 "response" ->
  get_opt d1 "raw_response" = get_opt d2 "raw_response" ->
  extractAgentMessage d1 = extractAgentMessage d2.
Proof.
  intros H1 H2 Hr Hraw. unfold extractAgentMessage, from_raw_response.
  rewrite !(get_present d1 _ H1), !(get_present d2 _ H2), Hr, Hraw. reflexivity.
Qed.

Lemma message_of_total data :
  nullish data = false -> extractAgentMessage data = Ok (message_of data).
Proof.
  intros Hd. unfold message_of.
  destruct (extractAgentMessage_total data Hd) as [v ->]. reflexivity.
Qed.

Lemma message_of_reads d1 d2 :
  nullish d1 = false -> nullish d2 = false ->
  get_opt d1 "response" = get_opt d2 "response" ->
  get_opt d1 "raw_response" = get_opt d2 "raw_response" ->
  message_of d1 = message_of d2.
Proof.
  intros H1 H2 Hr Hraw. unfold message_of.
  rewrite (extractAgentMessage_reads d1 d2 H1 H2 Hr Hraw). reflexivity.
Qed.

Lemma not_failed_no_parse_error data :
  Extractor.failed (get_opt data "response") = false -> parse_error_shown data = false.
Proof.
  unfold Extractor.failed, parse_error_shown. intros H.
  apply orb_false_elim in H. destruct H as [-> _]. apply andb_false_r.
Qed.

Lemma truthy_parse_failure_message parsed : truthy (parse_failure_message parsed) = true.
Proof. apply truthy_or_right. reflexivity. Qed.

Lemma truthy_api_error_message status parsed : truthy (api_error_message status parsed) = true.
Proof. apply truthy_or_right, truthy_or_right. reflexivity. Qed.

Section WithHost.

Variable host : Host.
Variable parse : string -> result value.

Lemma returns_now (Q : string -> Prop) : (forall t, Q t) -> returns (now host) Q.
Proof. intros H w. apply H. Qed.

Lemma returns_emit (e : event) (Q : unit -> Prop) : Q tt -> returns (emit e) Q.
Proof. intros H w. exact H. Qed.

Lemma returns_notify_global enabled e (Q : unit -> Prop) :
  Q tt -> returns (notify_global enabled e) Q.
Proof.
  intros H w. unfold notify_global. cbn.
  destruct (globalErrorCallback w); [destruct enabled|]; exact H.
Qed.

(** Forwarding an error to the host frame and to the observer. *)
Lemma returns_forward enabled e (Q : unit -> Prop) :
  Q tt ->
  returns (if isInIframe host
           then (sendErrorToParent e ;; notify_global enabled e)%monad
           else ret tt) Q.
Proof.
  intros H. destruct (isInIframe host).
  - apply spec_bind with (P := fun _ => True); [apply returns_emit; exact I|].
    intros _ _. apply returns_notify_global, H.
  - apply spec_ret, H.
Qed.

(** ** detectError *)

Lemma detectError_spec data endpoint :
  nullish data = false ->
  returns (detectError host data endpoint)
    (fun o =>
       if parse_error_shown data then
         exists d, o = Some d /\ ErrorDetails.type d = parse_error
       else if is_false (get_opt data "success") && truthy (get_opt data "error") then
         exists d, o = Some d /\ ErrorDetails.type d = api_error
                   /\ ErrorDetails.message d = get_opt data "error"
                   /\ ErrorDetails.raw_response d
                      = js_or (get_opt data "details") (get_opt data "raw_response")
                   /\ ErrorDetails.endpoint d = endpoint
       else o = None).
Proof.
  intros Hd w. unfold detectError, parse_error_shown.
  rewrite !(get_present data _ Hd).
  set (response := get_opt data "response").
  cbn [bind ret M_monad lift fst].
  destruct (truthy response && (typeof response =? "object")) eqn:Hobj.
  - rewrite !(get_present response _ (object_not_nullish _ Hobj)).
    cbn [bind ret M_monad lift fst andb].
    destruct (is_false (get_opt response "success") && truthy (get_opt response "error")).
    + cbn. eauto.
    + cbn [bind ret M_monad lift fst andb].
      destruct (is_false (get_opt data "success") && truthy (get_opt data "error"));
        cbn; eauto 10.
  - cbn [bind ret M_monad lift fst andb].
    destruct (is_false (get_opt data "success") && truthy (get_opt data "error"));
      cbn; eauto 10.
Qed.

(** ** The envelope and what follows it *)

Lemma envelope_spec status rawText parsed agentId userId sessionId :
  returns (envelope host status rawText parsed agentId userId sessionId)
    (envelope_reads status rawText parsed).
Proof.
  intros w. unfold envelope, envelope_reads, Extractor.failed.
  destruct (ok_status status).
  - destruct (is_false (get_opt parsed "success") || truthy (get_opt parsed "error")).
    + cbn. auto 10.
    + unfold or_now. destruct (truthy (get_opt parsed "timestamp")); cbn; auto.
  - cbn. auto 10.
Qed.
Lemma fetch_text_spec body :
  spec (fetch_text host body)
    (fun res => network host = Responds (fst res) (Ok (snd res)))
    (fun e => transport_failure (network host) = Some e).
Proof.
  intros w. unfold fetch_text. cbn [bind M_monad emit modify].
  destruct (network host) as [e | status [rawText | e]]; reflexivity.
Qed.

(** After the envelope: classification and message. *)
Lemma classify_spec status rawText parsed data :
  envelope_reads status rawText parsed data ->
  returns
    (detectedError <- detectError host data LYZR_API_URL ;;
     match detectedError with
     | Some e =>
         (if isInIframe host then sendErrorToParent e ;; notify_global true e else ret tt) ;;
         message <- lift (extractAgentMessage data) ;;
         raw <- lift (get data "raw_response") ;;
         ret (AgentResponse.make false JNull message raw (Some e))
     | None =>
         response <- lift (get data "response") ;;
         message <- lift (extractAgentMessage data) ;;
         raw <- lift (get data "raw_response") ;;
         ret (AgentResponse.make true response message raw None)
     end)%monad
    (fun r => if ok_status status then
                if Extractor.failed parsed
                then api_failed (parse_failure_message parsed) rawText r
                else succeeded parsed rawText r
              else api_failed (api_error_message status parsed) rawText r).
Proof.
  intros (Hd & Hraw & Hshape).
  eapply spec_bind; [apply (detectError_spec data LYZR_API_URL Hd)|].
  cbv beta. intros o Ho.
  rewrite !(get_present data _ Hd), (message_of_total data Hd), Hraw.
  destruct (ok_status status && negb (Extractor.failed parsed)) eqn:Hcase.
  - (* a parsed value without failure mark *)
    destruct Hshape as [Hresp Hsucc].
    apply andb_prop in Hcase. destruct Hcase as [Hok Hnf]. apply negb_true_iff in Hnf.
    rewrite Hok, Hnf.
    rewrite not_failed_no_parse_error in Ho by (rewrite Hresp; exact Hnf).
    rewrite Hsucc in Ho. cbn [is_false andb] in Ho. subst o.
    intros w. cbn. unfold succeeded. cbn. rewrite Hresp. repeat split.
    apply message_of_reads; auto.
  - (* a failure *)
    destruct Hshape as (Hresp & Hsucc & Herr & Hdet).
    assert (Hnp : parse_error_shown data = false).
    { unfold parse_error_shown. rewrite Hresp. reflexivity. }
    rewrite Hnp, Hsucc, Herr in Ho.
    assert (Hmsg : message_of data = message_of (unwrapped rawText)).
    { apply message_of_reads; auto. }
    assert (Hr : js_or (get_opt data "details") (get_opt data "raw_response") = JStr rawText).
    { rewrite Hraw. destruct Hdet as [-> | ->]; [reflexivity | apply or_same]. }
    rewrite Hr in Ho.
    destruct (ok_status status).
    + cbn [andb] in Hcase. apply negb_false_iff in Hcase. rewrite Hcase.
      rewrite truthy_parse_failure_message in Ho. cbn [is_false andb] in Ho.
      destruct Ho as (d & -> & Hty & Hm & Hrr & _).
      apply spec_bind with (P := fun _ => True); [apply returns_forward; exact I|].
      intros _ _.
      intros w. cbn. unfold api_failed. cbn. rewrite Hmsg. eauto 10.
    + rewrite truthy_api_error_message in Ho. cbn [is_false andb] in Ho.
      destruct Ho as (d & -> & Hty & Hm & Hrr & _).
      apply spec_bind with (P := fun _ => True); [apply returns_forward; exact I|].
      intros _ _.
      intros w. cbn. unfold api_failed. cbn. rewrite Hmsg. eauto 10.
Qed.


(** The [catch] of [callAgentAPI]: a result that says the connection
    failed, whatever was thrown. *)
Lemma handler_spec (e : thrown) :
  returns
    (t <- now host ;;
     let err := ErrorDetails.make network_error
                  (message_or e (JStr "Network request failed"))
                  JUndefined JUndefined "/api/agent" t
                  (userAgent_or_unknown host) (href_or_unknown host) in
     (if isInIframe host then sendErrorToParent err ;; notify_global true err else ret tt) ;;
     ret (AgentResponse.make false JNull (JStr "Failed to connect to agent")
            JUndefined (Some err)))%monad
    (connection_failed e).
Proof.
  apply spec_bind with (P := fun _ => True); [apply returns_now; auto|].
  intros t _. cbv zeta.
  apply spec_bind with (P := fun _ => True); [apply returns_forward; exact I|].
  intros _ _. apply spec_ret. unfold connection_failed. cbn. eauto 10.
Qed.

(** With an observer that returns, [callAgentAPI] never throws, and its
    result is the one [api_outcome] describes. *)
Lemma callAgentAPI_spec message agentId options :
  returns (callAgentAPI host parse message agentId options)
    (api_outcome (network host) parse).
Proof.
  unfold callAgentAPI.
  apply spec_try_catch with (D := caught (network host) parse).
  - eapply spec_bind.
    + eapply spec_weaken; [apply fetch_text_spec | intros a Ha; exact Ha |].
      intros e He. unfold caught.
      destruct (network host) as [e' | status [rawText | e']]; cbn in He; congruence.
    + intros [status rawText] Hnet. cbn [fst snd] in Hnet. rewrite Hnet.
      unfold api_outcome, caught.
      destruct (parse rawText) as [parsed | e] eqn:Hparse.
      * apply spec_bind_lift_ok.
        eapply spec_bind.
        -- eapply spec_weaken; [apply envelope_spec | intros a Ha; exact Ha |].
           intros e He. contradiction.
        -- intros data Hdata.
           eapply spec_weaken; [apply (classify_spec status rawText parsed data Hdata) | |].
           ++ intros r Hr. exact Hr.
           ++ intros e He. contradiction.
      * apply spec_bind_lift_throw. reflexivity.
  - intros e He.
    eapply spec_weaken; [apply (handler_spec e) | | intros e' He'; exact He'].
    intros r Hr. unfold caught in He. unfold api_outcome.
    destruct (network host) as [e' | status [rawText | e']]; try (subst e'; exact Hr).
    rewrite He. exact Hr.
Qed.

End WithHost.

End ApiFacts.

(* ================================================================== *)
(** * generateUUID and callAIAgent                                      *)
(* ================================================================== *)

Module AiFacts.

Import AiAgent AiWorlds Uuid Logic.

Lemma below_16_cases (r : N) :
  (r < 16)%N ->
  In r [0; 1; 2; 3; 4; 5; 6; 7; 8; 9; 10; 11; 12; 13; 14; 15]%N.
Proof.
  intros H. cbn [In].
  destruct r as [|p]; [auto|].
  do 4 (destruct p as [p|p|]; try lia; auto 20).
Qed.

Lemma draw_below_16 (x : unit_double) : (numerator x * 16 / 2 ^ scale x < 16)%N.
Proof.
  apply N.Div0.div_lt_upper_bound.
  pose proof (below_one x) as B. apply N.ltb_lt in B.
  apply N.mul_lt_mono_pos_r with (p := 16%N) in B; [|reflexivity].
  exact B.
Qed.

(** The text put for an [x] is one lower-case hexadecimal digit, the text
    put for a [y] one of 8, 9, a, b. *)
Lemma digit_stands_for (c : ascii) (r : N) :
  (r < 16)%N -> c = "x"%char \/ c = "y"%char ->
  let v := if Ascii.eqb c "x" then bit_or (Z.of_N r) 0
           else bit_or (bit_and (bit_or (Z.of_N r) 0) 3) 8 in
  exists o, toString16 v = String o EmptyString /\ stands_for c o = true.
Proof.
  intros Hr Hc. apply below_16_cases in Hr. cbn [In] in Hr.
  destruct Hc as [-> | ->];
    repeat (destruct Hr as [<- | Hr]; [vm_compute; eauto|]); contradiction.
Qed.


Section WithHost.
Variable host : Host.

Lemma replacement_spec (c : ascii) :
  c = "x"%char \/ c = "y"%char ->
  returns (replacement host c)
    (fun h => exists o, h = String o EmptyString /\ stands_for c o = true).
Proof.
  intros Hc w. unfold replacement, random. cbn [bind ret M_monad fst].
  unfold times16_or_0.
  exact (digit_stands_for c _ (draw_below_16 (Math_random host (draws w))) Hc).
Qed.

Lemma replace_xy_spec (template : string) :
  returns (replace_xy host template) (fun out => instance_of template out = true).
Proof.
  induction template as [|c rest IH]; cbn [replace_xy].
  - apply spec_ret. reflexivity.
  - destruct (Ascii.eqb c "x" || Ascii.eqb c "y") eqn:Hxy.
    + assert (Hc : c = "x"%char \/ c = "y"%char).
      { apply orb_prop in Hxy. destruct Hxy as [H | H]; apply Ascii.eqb_eq in H; auto. }
      eapply spec_bind; [apply (replacement_spec c Hc)|].
      intros h (o & -> & Ho).
      eapply spec_bind; [apply IH|]. cbv beta.
      intros t Ht. apply spec_ret. cbn. rewrite Ho, Ht. reflexivity.
    + eapply spec_bind; [apply IH|]. cbv beta.
      intros t Ht. apply spec_ret. cbn [instance_of]. rewrite Ht.
      apply orb_false_elim in Hxy. destruct Hxy as [Hx Hy].
      unfold stands_for. rewrite Hx, Hy, Ascii.eqb_refl. reflexivity.
Qed.

Lemma instance_is_uuid (u : string) :
  instance_of "xxxxxxxx-xxxx-4xxx-yxxx-xxxxxxxxxxxx" u = true -> is_uuid_v4 u = true.
Proof.
  intros H.
  do 36 (destruct u as [|? u]; [discriminate H|];
         apply andb_prop in H; destruct H as [? H]).
  destruct u; [|discriminate H].
  unfold is_uuid_v4. cbn [String.length Nat.eqb andb chars_ok_from].
  unfold stands_for in *. cbn in *.
  repeat match goal with E : _ = true |- _ => rewrite E; clear E end.
  reflexivity.
Qed.

Lemma generateUUID_spec : returns (generateUUID host) (fun u => is_uuid_v4 u = true).
Proof.
  eapply spec_weaken; [apply replace_xy_spec | | auto].
  intros u Hu. apply instance_is_uuid, Hu.
Qed.


Variable parse : string -> result value.

Lemma returns_given_or given (fresh : M State string) :
  returns fresh (fun _ => True) -> returns (given_or given fresh) (fun _ => True).
Proof.
  intros H. unfold given_or.
  destruct given as [s|]; [destruct (String.eqb s "")|]; try exact H.
  apply spec_ret. exact I.
Qed.

Lemma returns_fresh_id (f : string -> string) :
  returns (u <- generateUUID host ;; ret (f u))%monad (fun _ => True).
Proof.
  eapply spec_bind; [apply generateUUID_spec|].
  intros u _. apply spec_ret. exact I.
Qed.

Lemma ai_fetch_text_spec body :
  spec (fetch_text host body)
    (fun res => network host = Responds (fst res) (Ok (snd res)))
    (fun e => match network host with
              | Rejects e' | Responds _ (Throw e') => e = e'
              | Responds _ (Ok _) => False
              end).
Proof.
  intros w. unfold fetch_text. cbn [bind M_monad emit modify].
  destruct (network host) as [e | status [rawText | e]]; reflexivity.
Qed.

(** The inner [try] of the failure branch always yields a value. *)
Lemma error_data_total status rawText :
  exists errorData, error_data parse status rawText = Ok errorData.
Proof.
  unfold error_data. apply catch_total.
Qed.

(** [callAIAgent] returns the result [ai_outcome] describes, unless the
    value its [catch] caught cannot be turned into text: then the conversion
    throws, and so does the call. *)
Lemma callAIAgent_spec message agent_id options :
  spec (callAIAgent host parse message agent_id options)
    (ai_outcome (network host) parse) (rejected (network host) parse).
Proof.
  unfold callAIAgent.
  apply spec_try_catch with (D := caught (network host) parse).
  - apply spec_bind with (P := fun _ => True).
    { eapply spec_weaken;
        [apply returns_given_or, returns_fresh_id | auto | intros e []]. }
    intros user_id _.
    apply spec_bind with (P := fun _ => True).
    { eapply spec_weaken;
        [apply returns_given_or, returns_fresh_id | auto | intros e []]. }
    intros session_id _.
    eapply spec_bind.
    + eapply spec_weaken; [apply ai_fetch_text_spec | intros a Ha; exact Ha |].
      intros e He. unfold caught.
      destruct (network host) as [e' | status [rawText | e']]; auto; contradiction.
    + intros [status rawText] Hnet. cbn [fst snd] in Hnet. rewrite Hnet.
      unfold ai_outcome, caught.
      destruct (ok_status status).
      * destruct (parse rawText) as [parsed | e].
        -- apply spec_bind_lift_ok. unfold Extractor.failed.
           destruct (is_false (get_opt parsed "success") || truthy (get_opt parsed "error"));
             apply spec_ret; cbn; auto.
        -- apply spec_bind_lift_throw. reflexivity.
      * destruct (error_data parse status rawText) as [errorData | e].
        -- apply spec_bind_lift_ok. unfold get.
           destruct (nullish errorData).
           ++ apply spec_bind_lift_throw. auto.
           ++ do 3 apply spec_bind_lift_ok. apply spec_ret.
              unfold status_failed. cbn. auto.
        -- apply spec_bind_lift_throw. reflexivity.
  - intros e He.
    apply spec_bind with (P := fun _ => True); [intros w; exact I|].
    intros _ _.
    destruct (describe e) as [details | t] eqn:Hd.
    + apply spec_bind_lift_ok. apply spec_ret.
      assert (Hr : call_failed e
                     (AIAgentResponse.make false JUndefined JUndefined JUndefined JUndefined
                        JUndefined JUndefined (JStr "Failed to call AI agent") details)).
      { unfold call_failed. cbn. auto. }
      unfold caught in He. unfold ai_outcome.
      destruct (network host) as [e' | status [rawText | e']]; try (subst e'; exact Hr).
      destruct (ok_status status).
      * rewrite He. exact Hr.
      * destruct (error_data parse status rawText) as [errorData | e'].
        -- destruct He as [-> ->]. exact Hr.
        -- subst e'. exact Hr.
    + apply spec_bind_lift_throw. exists e. auto.
Qed.

(** Every run of [callAIAgent] ends in one of the two. *)
Lemma callAIAgent_run message agent_id options s :
  exists out s',
    callAIAgent host parse message agent_id options s = (out, s') /\
    match out with
    | Ok r => ai_outcome (network host) parse r
    | Throw t => rejected (network host) parse t
    end.
Proof.
  pose proof (callAIAgent_spec message agent_id options s) as H.
  destruct (callAIAgent host parse message agent_id options s) as [out s'].
  exists out, s'. split; [reflexivity | exact H].
Qed.

End WithHost.

(** ** Sample runs *)

Example sample_uuid :
  fst (generateUUID (page (Rejects (Thrown JNull))) fresh)
  = Ok "eeff0012-2334-4556-a778-99aabbcddeef".
Proof. vm_compute. reflexivity. Qed.

(** Status 500 with the error in the body: the error field is the message,
    the body is kept. *)
Example sample_rate_limited :
  exists r s,
    callAIAgent (page (Responds 500 (Ok Worlds.rate_limited_body))) Extractor.strict
      "hi" "agent-1" None fresh = (Ok r, s) /\
    AIAgentResponse.success r = false /\
    AIAgentResponse.error r = JStr "rate limited" /\
    AIAgentResponse.raw_response r = JStr Worlds.rate_limited_body.
Proof. vm_compute. do 2 eexists. repeat split. Qed.

(** Status 500 with the body [null]: [errorData] is [null], reading its
    [error] throws, and the outer [catch] answers. *)
Example sample_null_body :
  exists r s,
    callAIAgent (page (Responds 500 (Ok "null"))) Extractor.strict
      "hi" "agent-1" None fresh = (Ok r, s) /\
    AIAgentResponse.success r = false /\
    AIAgentResponse.error r = JStr "Failed to call AI agent" /\
    AIAgentResponse.details r = JStr "Cannot read properties of null (reading 'error')".
Proof. vm_compute. do 2 eexists. repeat split. Qed.

End AiFacts.

(* ================================================================== *)
(** * The hook: callAgent                                               *)
(* ================================================================== *)

Module HookFacts.

Import UseAgent Worlds Logic.


Section WithHost.

Variable host : Host.
Variable parse : string -> result value.
Variables ua href : string.
Hypothesis on_a_page : navigator host = Some ua /\ window host = Some href.

Lemma returns_set_hook f (Q : unit -> Prop) : Q tt -> returns (set_hook f) Q.
Proof. intros H w. exact H. Qed.

Lemma returns_notify_onError options e (Q : unit -> Prop) :
  Q tt -> returns (notify_onError options e) Q.
Proof.
  intros H. unfold notify_onError.
  destruct (UseAgentOptions.onError options); [|apply spec_ret, H].
  intros w. exact H.
Qed.

Lemma returns_userAgent (Q : string -> Prop) : Q ua -> returns (navigator_userAgent host) Q.
Proof.
  intros H. unfold navigator_userAgent. destruct on_a_page as [-> _]. apply spec_ret, H.
Qed.

Lemma returns_href (Q : string -> Prop) : Q href -> returns (window_location_href host) Q.
Proof.
  intros H. unfold window_location_href. destruct on_a_page as [_ ->]. apply spec_ret, H.
Qed.

(** Telling the hook, the host frame and the observers of an error. *)
Lemma returns_report options e (k : M State AgentResponse) (Q : AgentResponse -> Prop) E :
  spec k Q E ->
  spec (setError (Some e) ;;
        (if isInIframe host
         then sendErrorToParent e ;;
              notify_global (not_false (UseAgentOptions.showErrorModal options)) e
         else ret tt) ;;
        notify_onError options e ;;
        k)%monad Q E.
Proof.
  intros Hk.
  apply spec_bind with (P := fun _ => True).
  { intros w. exact I. }
  intros _ _. apply spec_bind with (P := fun _ => True).
  { eapply spec_weaken; [apply (ApiFacts.returns_forward host _ e (fun _ => True) I) | auto |].
    intros e' []. }
  intros _ _. apply spec_bind with (P := fun _ => True).
  { eapply spec_weaken; [apply (returns_notify_onError options e (fun _ => True) I) | auto |].
    intros e' []. }
  intros _ _. exact Hk.
Qed.

(** On a page, the hook's [callAgent] never throws: without an identifier
    it reports that, with one its result is that of [callAgentAPI]. *)
Lemma callAgent_spec options callOptions :
  returns (callAgent host parse options callOptions)
    (fun r => if truthy (optional (finalAgentId host options callOptions))
              then api_outcome (network host) parse r
              else identifier_missing r).
Proof.
  unfold callAgent. fold (finalAgentId host options callOptions).
  destruct (truthy (optional (finalAgentId host options callOptions))); cbn [negb].
  - (* an identifier: the request *)
    apply spec_bind with (P := fun _ => True); [apply returns_set_hook; exact I|].
    intros _ _.
    apply spec_bind with (P := fun _ => True); [apply returns_set_hook; exact I|].
    intros _ _.
    apply spec_try_finally; [|apply returns_set_hook; exact I].
    apply spec_try_catch with (D := caught (network host) parse).
    + eapply spec_bind.
      * eapply spec_weaken; [apply ApiFacts.fetch_text_spec | intros a Ha; exact Ha |].
        intros e He. unfold caught.
        destruct (network host) as [e' | status [rawText | e']]; cbn in He; congruence.
      * intros [status rawText] Hnet. cbn [fst snd] in Hnet. rewrite Hnet.
        unfold api_outcome, caught.
        destruct (parse rawText) as [parsed | e] eqn:Hparse;
          [|apply spec_bind_lift_throw; reflexivity].
        apply spec_bind_lift_ok.
        eapply spec_bind.
        { eapply spec_weaken; [apply ApiFacts.envelope_spec | intros a Ha; exact Ha |].
          intros e He. contradiction. }
        intros data Hdata.
        apply spec_bind with (P := fun _ => True);
          [apply returns_spec, returns_set_hook; exact I|].
        intros _ _.
        destruct Hdata as (Hd & Hraw & Hshape).
        eapply spec_bind;
          [apply returns_spec, (ApiFacts.detectError_spec host data LYZR_API_URL Hd)|].
        cbv beta. intros o Ho.
        rewrite !(get_present data _ Hd), (ApiFacts.message_of_total data Hd), Hraw.
        destruct (ok_status status && negb (Extractor.failed parsed)) eqn:Hcase.
        -- destruct Hshape as [Hresp Hsucc].
           apply andb_prop in Hcase. destruct Hcase as [Hok Hnf].
           apply negb_true_iff in Hnf. rewrite Hok, Hnf.
           rewrite ApiFacts.not_failed_no_parse_error in Ho by (rewrite Hresp; exact Hnf).
           rewrite Hsucc in Ho. cbn [is_false andb] in Ho. subst o.
           intros w. cbn. unfold succeeded. cbn. rewrite Hresp. repeat split.
           apply ApiFacts.message_of_reads; auto.
        -- destruct Hshape as (Hresp & Hsucc & Herr & Hdet).
           assert (Hnp : parse_error_shown data = false).
           { unfold parse_error_shown. rewrite Hresp. reflexivity. }
           rewrite Hnp, Hsucc, Herr in Ho.
           assert (Hmsg : message_of data = message_of (unwrapped rawText)).
           { apply ApiFacts.message_of_reads; auto. }
           assert (Hr : js_or (get_opt data "details") (get_opt data "raw_response")
                        = JStr rawText).
           { rewrite Hraw. destruct Hdet as [-> | ->]; [reflexivity | apply or_same]. }
           rewrite Hr in Ho.
           destruct (ok_status status).
           ++ cbn [andb] in Hcase. apply negb_false_iff in Hcase. rewrite Hcase.
              rewrite ApiFacts.truthy_parse_failure_message in Ho.
              cbn [is_false andb] in Ho.
              destruct Ho as (d & -> & Hty & Hm & Hrr & _).
              apply returns_report.
              intros w. cbn. unfold api_failed. cbn. rewrite Hmsg. eauto 10.
           ++ rewrite ApiFacts.truthy_api_error_message in Ho.
              cbn [is_false andb] in Ho.
              destruct Ho as (d & -> & Hty & Hm & Hrr & _).
              apply returns_report.
              intros w. cbn. unfold api_failed. cbn. rewrite Hmsg. eauto 10.
    + intros e He.
      assert (Hh : returns
                (t <- now host ;;
                 ua' <- navigator_userAgent host ;;
                 href' <- window_location_href host ;;
                 let err := ErrorDetails.make network_error
                              (message_or e (JStr "Network request failed"))
                              (match e with
                               | ErrorObject _ _ stack => stack
                               | Thrown _ => JUndefined
                               end)
                              JUndefined LYZR_API_URL t ua' href' in
                 setError (Some err) ;;
                 (if isInIframe host
                  then sendErrorToParent err ;;
                       notify_global (not_false (UseAgentOptions.showErrorModal options)) err
                  else ret tt) ;;
                 notify_onError options err ;;
                 ret (AgentResponse.make false JNull (JStr "Failed to connect to agent")
                        JUndefined (Some err)))%monad
                (connection_failed e)).
      { apply spec_bind with (P := fun _ => True); [apply ApiFacts.returns_now; auto|].
        intros t _.
        apply spec_bind with (P := fun _ => True); [apply returns_userAgent; exact I|].
        intros ua' _.
        apply spec_bind with (P := fun _ => True); [apply returns_href; exact I|].
        intros href' _. cbv zeta.
        apply returns_report. apply spec_ret. unfold connection_failed. cbn. eauto 10. }
      eapply spec_weaken; [apply Hh | | intros e' He'; exact He'].
      intros r Hr. unfold caught in He. unfold api_outcome.
      destruct (network host) as [e' | status [rawText | e']]; try (subst e'; exact Hr).
      rewrite He. exact Hr.
  - (* no identifier *)
    apply spec_bind with (P := fun _ => True); [apply ApiFacts.returns_now; auto|].
    intros t _.
    apply spec_bind with (P := fun _ => True); [apply returns_userAgent; exact I|].
    intros ua' _.
    apply spec_bind with (P := fun _ => True); [apply returns_href; exact I|].
    intros href' _. cbv zeta.
    apply spec_bind with (P := fun _ => True); [apply returns_set_hook; exact I|].
    intros _ _. apply spec_ret. unfold identifier_missing. cbn. eauto 10.
Qed.

(** So the hook keeps the contract of the call: a result, never a throw,
    and with a failure its error record. *)
Lemma callAgent_always_returns options callOptions s :
  exists r s',
    callAgent host parse options callOptions s = (Ok r, s') /\
    (AgentResponse.success r = false -> exists d, AgentResponse.error r = Some d).
Proof.
  destruct (returns_run _ _ (callAgent_spec options callOptions) s) as (r & s' & Hrun & Hout).
  exists r, s'. split; [exact Hrun|]. intros Hs.
  destruct (truthy (optional (finalAgentId host options callOptions))).
  - unfold api_outcome in Hout.
    assert (C : (exists e, connection_failed e r) \/ (exists m t, api_failed m t r)
                \/ (exists p t, succeeded p t r)).
    { destruct (network host) as [e | status [rawText | e]]; eauto.
      destruct (parse rawText); eauto.
      destruct (ok_status status); [destruct (Extractor.failed a)|]; eauto 6. }
    destruct C as [[e C] | [(m & t & C) | (p & t & C)]].
    + destruct C as (_ & _ & _ & _ & d & Hd & _). eauto.
    + destruct C as (_ & _ & _ & _ & d & Hd & _). eauto.
    + destruct C as (Ht & _). congruence.
  - destruct Hout as (_ & _ & _ & d & Hd & _). eauto.
Qed.

End WithHost.

End HookFacts.

(* ================================================================== *)
(** * The statements of the specification                               *)
(* ================================================================== *)

Module Claims.

Import Worlds Logic.
Import UseAgent.

(** ** What the outcomes say *)

Lemma connection_failed_captured e r :
  connection_failed e r ->
  AgentResponse.success r = false /\ AgentResponse.data r = JNull /\
  exists d, AgentResponse.error r = Some d /\ ErrorDetails.type d = network_error /\
            ErrorDetails.message d = message_or e (JStr "Network request failed").
Proof. intros (Hs & Hd & _ & _ & He). auto. Qed.

Lemma api_failed_captured m rawText r :
  api_failed m rawText r ->
  AgentResponse.success r = false /\ AgentResponse.raw_response r = JStr rawText /\
  exists d, AgentResponse.error r = Some d /\ ErrorDetails.type d = api_error /\
            ErrorDetails.message d = m /\ ErrorDetails.raw_response d = JStr rawText.
Proof. intros (Hs & _ & _ & Hr & He). auto. Qed.

(** A failure always carries its error record, of type network or API
    error; a success carries none. *)
Lemma api_outcome_error net parse r :
  api_outcome net parse r ->
  (AgentResponse.success r = false ->
   exists d, AgentResponse.error r = Some d /\
             (ErrorDetails.type d = network_error \/ ErrorDetails.type d = api_error)) /\
  is_parse_error (classification r) = false.
Proof.
  unfold api_outcome, classification. intros H.
  assert (C : (exists e, connection_failed e r) \/ (exists m t, api_failed m t r)
              \/ (exists p t, succeeded p t r)).
  { destruct net as [e | status [rawText | e]]; eauto.
    destruct (parse rawText); eauto.
    destruct (ok_status status); [destruct (Extractor.failed a)|]; eauto 6. }
  destruct C as [[e C] | [(m & t & C) | (p & t & C)]].
  - apply connection_failed_captured in C. destruct C as (_ & _ & d & Hd & Ht & _).
    rewrite Hd, Ht. split; [eauto|reflexivity].
  - apply api_failed_captured in C. destruct C as (_ & _ & d & Hd & Ht & _).
    rewrite Hd, Ht. split; [eauto|reflexivity].
  - destruct C as (Hs & _ & _ & _ & He). rewrite Hs, He. split; [discriminate|reflexivity].
Qed.

(** The same for [callAIAgent]: a failure always says why. *)
Lemma ai_outcome_error net parse r :
  AiWorlds.ai_outcome net parse r ->
  AiAgent.AIAgentResponse.success r = false ->
  truthy (AiAgent.AIAgentResponse.error r) = true.
Proof.
  unfold AiWorlds.ai_outcome. intros H Hs.
  assert (C : (exists e, AiWorlds.call_failed e r)
              \/ (exists p, AiAgent.AIAgentResponse.error r = parse_failure_message p)
              \/ (exists st t d, AiWorlds.status_failed st t d r)
              \/ AiAgent.AIAgentResponse.success r = true).
  { destruct net as [e | status [rawText | e]]; eauto.
    destruct (ok_status status).
    - destruct (parse rawText); eauto.
      destruct (Extractor.failed a); [right; left|]; intuition eauto.
    - destruct (AiAgent.error_data parse status rawText); eauto.
      destruct (nullish a); eauto 8. }
  destruct C as [[e C] | [[p C] | [(st & t & d & C) | C]]].
  - destruct C as (_ & -> & _). reflexivity.
  - rewrite C. apply ApiFacts.truthy_parse_failure_message.
  - destruct C as (_ & -> & _). apply truthy_or_right, truthy_or_right. reflexivity.
  - congruence.
Qed.

(** ** C1 *)

(** What reaches the [catch] of [callAIAgent] is what [failure] names. *)
Lemma caught_failure net parse e :
  AiWorlds.caught net parse e -> AiTraces.failure net parse = Some e.
Proof.
  unfold AiWorlds.caught, AiTraces.failure.
  destruct net as [e' | status [rawText | e']]; try (intros ->; reflexivity).
  destruct (ok_status status).
  - intros ->. reflexivity.
  - destruct (AiAgent.error_data parse status rawText) as [d | e'].
    + intros [-> ->]. reflexivity.
    + intros ->. reflexivity.
Qed.

(** A result of [callAIAgent] after a catch is the one of the catch. *)
Lemma failure_outcome net parse e r :
  AiTraces.failure net parse = Some e -> AiWorlds.ai_outcome net parse r ->
  AiWorlds.call_failed e r.
Proof.
  unfold AiTraces.failure, AiWorlds.ai_outcome.
  destruct net as [e' | status [rawText | e']];
    try (intros He; injection He as ->; auto).
  destruct (ok_status status).
  - destruct (parse rawText); [discriminate|]. intros He. injection He as ->. auto.
  - destruct (AiAgent.error_data parse status rawText) as [d | e'].
    + destruct (nullish d); [|discriminate]. intros He. injection He as <-. auto.
    + intros He. injection He as ->. auto.
Qed.

(** What the transport threw is what [callAIAgent] catches. *)
Lemma transport_failure_caught net parse e :
  transport_failure net = Some e -> AiTraces.failure net parse = Some e.
Proof.
  unfold transport_failure, AiTraces.failure.
  destruct net as [e' | status [rawText | e']]; auto. discriminate.
Qed.


Lemma describe_text v :
  stringable v = true -> AiAgent.describe (Thrown v) = Ok (JStr (ToString v)).
Proof. intros H. unfold AiAgent.describe, String_of. rewrite H. reflexivity. Qed.

(** [callAIAgent] returns when what its [catch] catches, if anything, is an
    [Error] or a value that has a text. *)
Lemma callAIAgent_returns host parse message agent_id options s :
  (forall v, AiTraces.failure (AiAgent.network host) parse = Some (Thrown v) ->
             stringable v = true) ->
  exists r s',
    AiAgent.callAIAgent host parse message agent_id options s = (Ok r, s') /\
    AiWorlds.ai_outcome (AiAgent.network host) parse r.
Proof.
  intros Hprint.
  destruct (AiFacts.callAIAgent_run host parse message agent_id options s)
    as ([r | t] & s' & Hrun & Hout); [eauto|].
  destruct Hout as (e & Hc & Hd). apply caught_failure in Hc.
  destruct e as [name text stack | v]; [discriminate Hd|].
  rewrite (describe_text v (Hprint v Hc)) in Hd. discriminate Hd.
Qed.


(** The run of [callAgentAPI], with its outcome. *)
Lemma callAgentAPI_run host parse message agentId options s :
  exists r s',
    callAgentAPI host parse message agentId options s = (Ok r, s') /\
    api_outcome (network host) parse r.
Proof.
  exact (returns_run _ _ (ApiFacts.callAgentAPI_spec host parse message agentId options) s).
Qed.

(** ** C2 *)

(** C2.  A success status with a body the extractor fails on is NOT
    classified as a parse error.  No call of [callAgentAPI] ever is: the
    branch of [detectError] that would say so looks for the failure inside
    [data.response], and the envelope puts it at the top.  When the status is
    a success and the extractor's answer shows a failure, the error record
    says [api_error]; its [raw_response] is the body verbatim.  So it is for
    status 200 and the body [not json at all]. *)
Theorem parse_failure_is_classified_api_error :
  (forall host parse message agentId options s,
      exists r s',
        callAgentAPI host parse message agentId options s = (Ok r, s') /\
        is_parse_error (classification r) = false)
  /\
  (forall host parse message agentId options s status rawText parsed,
      network host = Responds status (Ok rawText) -> ok_status status = true ->
      parse rawText = Ok parsed -> Extractor.failed parsed = true ->
      exists r s' d,
        callAgentAPI host parse message agentId options s = (Ok r, s') /\
        AgentResponse.error r = Some d /\
        ErrorDetails.type d = api_error /\
        ErrorDetails.raw_response d = JStr rawText /\
        AgentResponse.raw_response r = JStr rawText)
  /\
  (exists r s' d,
      callAgentAPI (browser false (Responds 200 (Ok "not json at all"))) Extractor.strict
        "hi" "agent-1" None fresh = (Ok r, s') /\
      AgentResponse.error r = Some d /\
      ErrorDetails.type d = api_error /\
      ErrorDetails.raw_response d = JStr "not json at all" /\
      AgentResponse.raw_response r = JStr "not json at all").
Proof.
  assert (General : forall host parse message agentId options s status rawText parsed,
      network host = Responds status (Ok rawText) -> ok_status status = true ->
      parse rawText = Ok parsed -> Extractor.failed parsed = true ->
      exists r s' d,
        callAgentAPI host parse message agentId options s = (Ok r, s') /\
        AgentResponse.error r = Some d /\
        ErrorDetails.type d = api_error /\
        ErrorDetails.raw_response d = JStr rawText /\
        AgentResponse.raw_response r = JStr rawText).
  { intros host parse message agentId options s status rawText parsed Hnet Hok Hp Hf.
    destruct (callAgentAPI_run host parse message agentId options s) as (r & s' & Hrun & Hout).
    unfold api_outcome in Hout. rewrite Hnet, Hp, Hok, Hf in Hout.
    apply api_failed_captured in Hout.
    destruct Hout as (_ & Hraw & d & Hd & Ht & _ & Hdr).
    exists r, s', d. auto. }
  split; [|split].
  - intros host parse message agentId options s.
    destruct (callAgentAPI_run host parse message agentId options s) as (r & s' & Hrun & Hout).
    exists r, s'. split; [exact Hrun|]. apply (api_outcome_error _ _ _ Hout).
  - exact General.
  - apply General with (status := 200%Z)
                       (parsed := Extractor.failure "No valid JSON found in response"
                                    "not json at all"); reflexivity.
Qed.

(** ** C4 *)

(** C4.  Status 200 and the body [{"result": {"message": "hello"}}], the
    extractor answering what the strict parse of the body yields: the call
    returns a success whose message is "hello". *)
Theorem hello_is_extracted host parse message agentId options s :
  network host = Responds 200 (Ok hello_body) ->
  (forall v, JSON_parse hello_body = Some v -> parse hello_body = Ok v) ->
  exists r s',
    callAgentAPI host parse message agentId options s = (Ok r, s') /\
    AgentResponse.success r = true /\
    AgentResponse.message r = JStr "hello" /\
    AgentResponse.data r = JObj [("result", JObj [("message", JStr "hello")])] /\
    AgentResponse.error r = None.
Proof.
  intros Hnet Hstrict.
  destruct (callAgentAPI_run host parse message agentId options s) as (r & s' & Hrun & Hout).
  unfold api_outcome in Hout.
  rewrite Hnet, (Hstrict _ eq_refl) in Hout. cbn in Hout.
  destruct Hout as (Hs & Hd & Hm & _ & He).
  exists r, s'. auto.
Qed.

Lemma hello_is_extracted_witness :
  exists r s',
    callAgentAPI (browser true (Responds 200 (Ok hello_body))) Extractor.strict
      "hi" "agent-1" None fresh = (Ok r, s') /\
    AgentResponse.success r = true /\
    AgentResponse.message r = JStr "hello" /\
    AgentResponse.data r = JObj [("result", JObj [("message", JStr "hello")])] /\
    AgentResponse.error r = None.
Proof.
  apply (hello_is_extracted (browser true (Responds 200 (Ok hello_body))) Extractor.strict).
  - reflexivity.
  - intros v Hv. unfold Extractor.strict. rewrite Hv. reflexivity.
Defined.

(** ** C5 *)





(** ** C6 *)

(** C6, as stated, fails for [callAIAgent]: when the transport throws an
    [Error] with the message "fetch failed", the error of its result is the
    fixed text "Failed to call AI agent"; the result has no error type and no
    [data] field. *)
Lemma transport_message_is_not_the_error_of_callAIAgent :
  exists r s',
    AiAgent.callAIAgent
      (AiWorlds.page (Rejects (ErrorObject "TypeError" "fetch failed" JUndefined)))
      Extractor.strict "hi" "agent-1" None AiWorlds.fresh = (Ok r, s') /\
    AiAgent.AIAgentResponse.success r = false /\
    AiAgent.AIAgentResponse.error r = JStr "Failed to call AI agent" /\
    AiAgent.AIAgentResponse.error r <> JStr "fetch failed".
Proof. vm_compute. do 2 eexists. repeat split. discriminate. Qed.

(** C6, amended.  The transport throws an [Error] with some message (the
    request is rejected, or the reading of the body is).  [callAgentAPI]
    returns a result whose error record says [network_error] and carries
    that message, and whose [data] is [null].  [callAIAgent] returns a
    failure whose [error] is the text "Failed to call AI agent" and whose
    [details] is that message; it carries no response and no raw
    response. *)
Theorem transport_exception_is_network_error (host : UseAgent.Host) (ai_host : AiAgent.Host)
    parse message agentId options s ai_options ai_s name text stack :
  transport_failure (network host) = Some (ErrorObject name text stack) ->
  transport_failure (AiAgent.network ai_host) = Some (ErrorObject name text stack) ->
  exists r s' d ai_r ai_s',
    callAgentAPI host parse message agentId options s = (Ok r, s') /\
    AgentResponse.success r = false /\
    AgentResponse.data r = JNull /\
    AgentResponse.error r = Some d /\
    ErrorDetails.type d = network_error /\
    ErrorDetails.message d = JStr text /\
    AiAgent.callAIAgent ai_host parse message agentId ai_options ai_s = (Ok ai_r, ai_s') /\
    AiAgent.AIAgentResponse.success ai_r = false /\
    AiAgent.AIAgentResponse.error ai_r = JStr "Failed to call AI agent" /\
    AiAgent.AIAgentResponse.details ai_r = JStr text /\
    AiAgent.AIAgentResponse.response ai_r = JUndefined /\
    AiAgent.AIAgentResponse.raw_response ai_r = JUndefined.
Proof.
  intros Hnet Hainet.
  destruct (callAgentAPI_run host parse message agentId options s) as (r & s' & Hrun & Hout).
  assert (C : connection_failed (ErrorObject name text stack) r).
  { unfold api_outcome in Hout.
    destruct (network host) as [e | status [rawText | e]]; cbn in Hnet;
      try discriminate; injection Hnet as ->; exact Hout. }
  apply connection_failed_captured in C.
  destruct C as (Hs & Hd & d & He & Ht & Hm).
  apply (transport_failure_caught _ parse) in Hainet.
  destruct (callAIAgent_returns ai_host parse message agentId ai_options ai_s)
    as (ai_r & ai_s' & Hairun & Haiout).
  { intros v Hv. rewrite Hainet in Hv. discriminate Hv. }
  destruct (failure_outcome _ _ _ _ Hainet Haiout) as (Hais & Haie & Haid & Hair & Hairaw).
  cbn in Haid. injection Haid as Haid.
  exists r, s', d, ai_r, ai_s'. repeat split; auto.
Qed.

Lemma transport_exception_is_network_error_witness :
  exists r s' d ai_r ai_s',
    callAgentAPI (browser true (Rejects (ErrorObject "TypeError" "fetch failed" JUndefined)))
      Extractor.strict "hi" "agent-1" None fresh = (Ok r, s') /\
    AgentResponse.success r = false /\
    AgentResponse.data r = JNull /\
    AgentResponse.error r = Some d /\
    ErrorDetails.type d = network_error /\
    ErrorDetails.message d = JStr "fetch failed" /\
    AiAgent.callAIAgent
      (AiWorlds.page (Rejects (ErrorObject "TypeError" "fetch failed" JUndefined)))
      Extractor.strict "hi" "agent-1" None AiWorlds.fresh = (Ok ai_r, ai_s') /\
    AiAgent.AIAgentResponse.success ai_r = false /\
    AiAgent.AIAgentResponse.error ai_r = JStr "Failed to call AI agent" /\
    AiAgent.AIAgentResponse.details ai_r = JStr "fetch failed" /\
    AiAgent.AIAgentResponse.response ai_r = JUndefined /\
    AiAgent.AIAgentResponse.raw_response ai_r = JUndefined.
Proof.
  apply (transport_exception_is_network_error
           (browser true (Rejects (ErrorObject "TypeError" "fetch failed" JUndefined)))
           (AiWorlds.page (Rejects (ErrorObject "TypeError" "fetch failed" JUndefined)))
           Extractor.strict "hi" "agent-1" None fresh None AiWorlds.fresh
           "TypeError" "fetch failed" JUndefined); reflexivity.
Defined.

(** ** C8 *)



(** ** C3 *)

(** C3.  On a response that is an object without failure mark the message is
    found in the order (a) [result.message], (b) [message], (c) [result] when
    a non-empty string, (e) the response as formatted text, and each of the
    four is reached.  Branch (d) is not: a response that is itself a string
    never enters the block that holds the test for it, the result is that of
    the raw response, whatever the string.  For the body ["hello"] at
    status 200 the parsed value is the string [hello] and the message is the
    body, quotation marks included. *)
Theorem string_response_branch_is_dead :
  (forall data,
      nullish data = false ->
      truthy (get_opt data "response") && (typeof (get_opt data "response") =? "object") = true ->
      Extractor.failed (get_opt data "response") = false ->
      extractAgentMessage data = Ok (priority (get_opt data "response")))
  /\
  (extractAgentMessage
     (wrapped (object [("result", object [("message", JStr "a")]); ("message", JStr "b")]) "")
   = Ok (JStr "a") /\
   extractAgentMessage (wrapped (object [("result", JStr "c"); ("message", JStr "b")]) "")
   = Ok (JStr "b") /\
   extractAgentMessage (wrapped (object [("result", JStr "c")]) "") = Ok (JStr "c") /\
   extractAgentMessage (wrapped (object [("answer", JBool true)]) "")
   = Ok (JSON_stringify_2 (object [("answer", JBool true)])))
  /\
  (forall data s t,
      nullish data = false -> get_opt data "response" = JStr s ->
      extractAgentMessage data = from_raw_response data (JStr t))
  /\
  (JSON_parse quoted_hello = Some (JStr "hello") /\
   extractAgentMessage (wrapped (JStr "hello") quoted_hello) = Ok (JStr quoted_hello) /\
   quoted_hello <> "hello")
  /\
  (exists r s',
      callAgentAPI (browser false (Responds 200 (Ok quoted_hello))) Extractor.strict
        "hi" "agent-1" None fresh = (Ok r, s') /\
      AgentResponse.success r = true /\
      AgentResponse.data r = JStr "hello" /\
      AgentResponse.message r = JStr quoted_hello).
Proof.
  split; [exact ExtractFacts.extractAgentMessage_usable|].
  split; [repeat split|].
  split; [exact ExtractFacts.string_response_ignored|].
  split; [repeat split; discriminate|].
  destruct (callAgentAPI_run (browser false (Responds 200 (Ok quoted_hello))) Extractor.strict
              "hi" "agent-1" None fresh) as (r & s' & Hrun & Hout).
  cbn in Hout. destruct Hout as (Hs & Hd & Hm & _).
  exists r, s'. auto.
Qed.

(** ** C7 *)

(** C7.  The extraction is not idempotent on its own output.  The string
    [hello] is an output; fed back as the parsed value, in the envelope
    of the body that parses to it, it comes back in quotation marks; fed back
    without a raw response it comes back as "No response received". *)
Theorem extraction_is_not_idempotent :
  extractAgentMessage (wrapped (object [("message", JStr "hello")]) (dq "{'message': 'hello'}"))
  = Ok (JStr "hello")
  /\ JSON_parse quoted_hello = Some (JStr "hello")
  /\ extractAgentMessage (wrapped (JStr "hello") quoted_hello) = Ok (JStr quoted_hello)
  /\ extractAgentMessage (object [("response", JStr "hello")])
     = Ok (JStr "No response received")
  /\ JStr quoted_hello <> JStr "hello"
  /\ JStr "No response received" <> JStr "hello".
Proof. repeat split; discriminate. Qed.

(** ** C9 *)

(** C9.  On every value but [null] and [undefined] the function returns and
    does not throw, and with neither a usable response nor a raw response it
    returns "No response received".  What it returns is not always a string:
    a truthy [message] is returned as it is, here the number 42 of the body
    [{"message": 42}]. *)
Theorem message_is_not_always_a_string :
  (forall data, nullish data = false -> exists v, extractAgentMessage data = Ok v)
  /\
  (forall data,
      nullish data = false ->
      truthy (get_opt data "response") && (typeof (get_opt data "response") =? "object")
        && negb (Extractor.failed (get_opt data "response")) = false ->
      truthy (js_or (get_opt (get_opt data "response") "raw_response")
                 (get_opt data "raw_response")) = false ->
      extractAgentMessage data = Ok (JStr "No response received"))
  /\
  (JSON_parse number_body = Some (object [("message", JNum (number_of_Z 42))]) /\
   extractAgentMessage (wrapped (object [("message", JNum (number_of_Z 42))]) number_body)
   = Ok (JNum (number_of_Z 42)) /\
   typeof (JNum (number_of_Z 42)) = "number")
  /\
  (exists r s',
      callAgentAPI (browser false (Responds 200 (Ok number_body))) Extractor.strict
        "hi" "agent-1" None fresh = (Ok r, s') /\
      AgentResponse.success r = true /\
      AgentResponse.message r = JNum (number_of_Z 42)).
Proof.
  split; [exact ExtractFacts.extractAgentMessage_total|].
  split.
  { intros data Hd Hun Hraw.
    rewrite (ExtractFacts.extractAgentMessage_unusable data Hd Hun).
    apply ExtractFacts.from_raw_response_nothing; assumption. }
  split; [repeat split|].
  destruct (callAgentAPI_run (browser false (Responds 200 (Ok number_body))) Extractor.strict
              "hi" "agent-1" None fresh) as (r & s' & Hrun & Hout).
  cbn in Hout. destruct Hout as (Hs & Hd & Hm & _).
  exists r, s'. auto.
Qed.

(** ** C10 *)

(** C10.  Whatever numbers [Math.random] draws, [generateUUID] returns a
    string of 36 characters: a hyphen at the indices 8, 13, 18 and 23, the
    digit 4 at index 14, one of 8, 9, a, b at index 19, and a lower-case
    hexadecimal digit everywhere else. *)
Theorem generateUUID_is_a_version_4_uuid :
  forall (host : AiAgent.Host) (s : AiAgent.State),
  exists u s',
    AiAgent.generateUUID host s = (Ok u, s') /\
    String.length u = 36 /\
    Uuid.chars_ok_from 0 u = true /\
    String.get 8 u = Some "-"%char /\ String.get 13 u = Some "-"%char /\
    String.get 18 u = Some "-"%char /\ String.get 23 u = Some "-"%char /\
    String.get 14 u = Some "4"%char /\
    (exists c, String.get 19 u = Some c /\ Uuid.variant_digit c = true).
Proof.
  intros host s.
  destruct (returns_run _ _ (AiFacts.generateUUID_spec host) s) as (u & s' & Hrun & Hu).
  exists u, s'. split; [exact Hrun|]. clear Hrun.
  unfold Uuid.is_uuid_v4 in Hu. apply andb_prop in Hu. destruct Hu as [Hlen Hchars].
  apply Nat.eqb_eq in Hlen.
  split; [exact Hlen|]. split; [exact Hchars|].
  do 36 (destruct u as [|? u]; [discriminate Hlen|]).
  clear Hlen.
  cbn [Uuid.chars_ok_from Uuid.char_ok Nat.eqb orb] in Hchars.
  repeat (apply andb_prop in Hchars; destruct Hchars as [? Hchars]).
  repeat match goal with
         | E : Ascii.eqb _ _ = true |- _ => apply Ascii.eqb_eq in E; subst
         end.
  cbn [String.get]. repeat split. eexists. split; [reflexivity|].
  assumption.
Qed.

End Claims.

(* ================================================================== *)
(** * Reasoning about runs and the worlds they leave                    *)
(* ================================================================== *)

Module RunLogic.

Section Rules.

Context {W : Type}.

Lemma runs_ret {A} (a : A) (w : W) Q : Q (Ok a) w -> runs (ret a) w Q.
Proof. intros H. exact H. Qed.

Lemma runs_throw {A} (e : thrown) (w : W) (Q : result A -> W -> Prop) :
  Q (Throw e) w -> runs (throw e) w Q.
Proof. intros H. exact H. Qed.

Lemma runs_lift {A} (r : result A) (w : W) Q : Q r w -> runs (lift r) w Q.
Proof. intros H. exact H. Qed.

Lemma runs_gets {A} (f : W -> A) (w : W) Q : Q (Ok (f w)) w -> runs (gets f) w Q.
Proof. intros H. exact H. Qed.

Lemma runs_modify (f : W -> W) (w : W) Q : Q (Ok tt) (f w) -> runs (modify f) w Q.
Proof. intros H. exact H. Qed.

(** Sequencing: what follows runs from the world the first part leaves. *)
Lemma runs_bind {A B} (m : M W A) (k : A -> M W B) (w : W) Q :
  runs m w (fun r w1 => match r with
                        | Ok a => runs (k a) w1 Q
                        | Throw e => Q (Throw e) w1
                        end) ->
  runs (bind m k) w Q.
Proof.
  unfold runs. cbn [bind M_monad]. destruct (m w) as [[a | e] w1]; cbn [fst snd]; auto.
Qed.

Lemma runs_try_catch {A} (body : M W A) (handler : thrown -> M W A) (w : W) Q :
  runs body w (fun r w1 => match r with
                           | Ok a => Q (Ok a) w1
                           | Throw e => runs (handler e) w1 Q
                           end) ->
  runs (try_catch body handler) w Q.
Proof.
  unfold runs, try_catch. destruct (body w) as [[a | e] w1]; cbn [fst snd]; auto.
Qed.

Lemma runs_try_finally {A} (body : M W A) (after : M W unit) (w : W) Q :
  runs body w (fun r w1 => runs after w1 (fun u w2 => match u with
                                                       | Ok _ => Q r w2
                                                       | Throw e => Q (Throw e) w2
                                                       end)) ->
  runs (try_finally body after) w Q.
Proof.
  unfold runs, try_finally. destruct (body w) as [r w1]. cbn [fst snd].
  destruct (after w1) as [[u | e] w2]; cbn [fst snd]; auto.
Qed.

Lemma runs_weaken {A} (m : M W A) (w : W) (P Q : result A -> W -> Prop) :
  runs m w P -> (forall r w', P r w' -> Q r w') -> runs m w Q.
Proof. unfold runs. auto. Qed.

Lemma runs_and {A} (m : M W A) (w : W) (P Q : result A -> W -> Prop) :
  runs m w P -> runs m w Q -> runs m w (fun r w' => P r w' /\ Q r w').
Proof. unfold runs. auto. Qed.

(** What [spec] says of the outcome holds of every run. *)
Lemma runs_spec {A} (m : M W A) (w : W) (Q : A -> Prop) (E : thrown -> Prop) :
  spec m Q E ->
  runs m w (fun r _ => match r with Ok a => Q a | Throw e => E e end).
Proof. intros H. exact (H w). Qed.

Lemma runs_elim {A} (m : M W A) (w : W) Q :
  runs m w Q -> exists r w', m w = (r, w') /\ Q r w'.
Proof.
  unfold runs. intros H. exists (fst (m w)), (snd (m w)). split; [|exact H].
  destruct (m w); reflexivity.
Qed.

End Rules.

End RunLogic.

(* ================================================================== *)
(** * The effects of a call                                             *)
(* ================================================================== *)

Module TraceFacts.

Import UseAgent Worlds Traces Logic RunLogic.

Lemma added_refl s : added [] s s.
Proof. unfold added, reached. rewrite app_nil_r. auto. Qed.

Lemma reached_added l1 l2 h s1 s2 s3 :
  reached l1 h s1 s2 -> added l2 s2 s3 -> reached (l1 ++ l2) h s1 s3.
Proof.
  unfold added, reached. intros (E1 & G1 & H1) (E2 & G2 & H2).
  rewrite E2, E1, G2, G1, H2, H1, app_assoc. auto.
Qed.

Lemma reached_quiet l h s1 s2 s3 :
  reached l h s1 s2 -> added [] s2 s3 -> reached l h s1 s3.
Proof. intros H1 H2. rewrite <- (app_nil_r l). exact (reached_added _ _ _ _ _ _ H1 H2). Qed.

Lemma reached_observer l h s s' :
  reached l h s s' -> globalErrorCallback s' = globalErrorCallback s.
Proof. intros H. apply H. Qed.

Section WithHost.

Variable host : Host.
Variable parse : string -> result value.

(** ** The steps, each with what it adds *)

Lemma step_emit e s0 l h s Q :
  reached l h s0 s ->
  (forall s', reached (l ++ [e]) h s0 s' -> Q (Ok tt) s') ->
  runs (emit e) s Q.
Proof.
  intros Hs H. apply H. apply (reached_added l [e] h s0 s); [exact Hs|].
  unfold added, reached. cbn. auto.
Qed.

Lemma step_set_hook f s0 l h s Q :
  reached l h s0 s ->
  (forall s', reached l (f h) s0 s' -> Q (Ok tt) s') ->
  runs (set_hook f) s Q.
Proof.
  intros (E & G & Hh) H. apply H. unfold reached. cbn. rewrite Hh. auto.
Qed.

Lemma step_now s0 l h s Q :
  reached l h s0 s ->
  (forall t s', reached l h s0 s' -> Q (Ok t) s') ->
  runs (now host) s Q.
Proof.
  intros Hs H. apply H. unfold reached in *. cbn. exact Hs.
Qed.

Lemma step_fetch body s0 l h s (Q : result (Z * string) -> State -> Prop) :
  reached l h s0 s ->
  (forall s',
      reached (l ++ [Requested LYZR_API_URL (LYZR_API_KEY host) (ToString (JSON_stringify body))])
        h s0 s' ->
      match network host with
      | Rejects e | Responds _ (Throw e) => Q (Throw e) s'
      | Responds status (Ok rawText) => Q (Ok (status, rawText)) s'
      end) ->
  runs (fetch_text host body) s Q.
Proof.
  intros Hs H. unfold fetch_text. apply runs_bind.
  apply (step_emit _ s0 l h s _ Hs). intros s' Hs'. specialize (H s' Hs').
  destruct (network host) as [e | status [rawText | e]]; exact H.
Qed.

Lemma step_envelope status rawText parsed agentId userId sessionId s0 l h s Q :
  reached l h s0 s ->
  (forall data s', envelope_reads status rawText parsed data -> reached l h s0 s' ->
                   Q (Ok data) s') ->
  runs (envelope host status rawText parsed agentId userId sessionId) s Q.
Proof.
  intros Hs H.
  pose proof (ApiFacts.envelope_spec host status rawText parsed agentId userId sessionId s)
    as Hspec.
  unfold runs.
  assert (Hst : added [] s (snd (envelope host status rawText parsed agentId userId sessionId s))).
  { unfold envelope, or_now.
    destruct (ok_status status);
      [destruct (is_false _ || truthy _); [|destruct (truthy _)]|];
      cbn; apply added_refl || (unfold added, reached; cbn; rewrite app_nil_r; auto). }
  destruct (envelope host status rawText parsed agentId userId sessionId s) as [[data | e] s'];
    cbn [fst snd] in *; [|contradiction].
  apply H; [exact Hspec|]. exact (reached_quiet _ _ _ _ _ Hs Hst).
Qed.

Lemma detectError_quiet data endpoint s :
  added [] s (snd (detectError host data endpoint s)).
Proof.
  unfold detectError, get.
  destruct (nullish data); [apply added_refl|].
  cbn [bind ret M_monad lift fst snd].
  destruct (truthy (get_opt data "response") && _).
  - destruct (nullish (get_opt data "response")); [apply added_refl|].
    cbn [bind ret M_monad lift fst snd].
    destruct (is_false _ && truthy _); cbn.
    + unfold added, reached. cbn. rewrite app_nil_r. auto.
    + destruct (is_false _ && truthy _); cbn;
        apply added_refl || (unfold added, reached; cbn; rewrite app_nil_r; auto).
  - cbn. destruct (is_false _ && truthy _); cbn;
      apply added_refl || (unfold added, reached; cbn; rewrite app_nil_r; auto).
Qed.

Lemma step_detectError data endpoint s0 l h s Q :
  nullish data = false ->
  reached l h s0 s ->
  (forall o s',
      (if parse_error_shown data then
         exists d, o = Some d /\ ErrorDetails.type d = parse_error
       else if is_false (get_opt data "success") && truthy (get_opt data "error") then
         exists d, o = Some d /\ ErrorDetails.type d = api_error
                   /\ ErrorDetails.message d = get_opt data "error"
                   /\ ErrorDetails.raw_response d
                      = js_or (get_opt data "details") (get_opt data "raw_response")
                   /\ ErrorDetails.endpoint d = endpoint
       else o = None) ->
      reached l h s0 s' -> Q (Ok o) s') ->
  runs (detectError host data endpoint) s Q.
Proof.
  intros Hd Hs H.
  pose proof (ApiFacts.detectError_spec host data endpoint Hd s) as Hspec.
  pose proof (detectError_quiet data endpoint s) as Hst.
  unfold runs.
  destruct (detectError host data endpoint s) as [[o | e] s']; cbn [fst snd] in *;
    [|contradiction].
  apply H; [exact Hspec|]. exact (reached_quiet _ _ _ _ _ Hs Hst).
Qed.

Lemma step_forward enabled e s0 l h s Q :
  reached l h s0 s ->
  (forall s', reached (l ++ forwarded host (globalErrorCallback s0) enabled e) h s0 s' ->
              Q (Ok tt) s') ->
  runs (if isInIframe host
        then (sendErrorToParent e ;; notify_global enabled e)%monad
        else ret tt) s Q.
Proof.
  intros Hs H. unfold forwarded in H. destruct (isInIframe host).
  - apply runs_bind. apply (step_emit _ s0 l h s _ Hs). intros s1 H1.
    unfold notify_global. apply runs_bind, runs_gets.
    rewrite (reached_observer _ _ _ _ H1).
    destruct (globalErrorCallback s0) as [c|]; [destruct enabled|].
    + apply (step_emit _ s0 _ h s1 _ H1). intros s2 H2. apply H.
      rewrite <- app_assoc in H2. exact H2.
    + apply runs_ret, H. exact H1.
    + apply runs_ret, H. exact H1.
  - apply runs_ret, H. rewrite app_nil_r. exact Hs.
Qed.

Lemma step_onError options e s0 l h s Q :
  reached l h s0 s ->
  (forall s',
      reached (l ++ match UseAgentOptions.onError options with
                    | Some c => [OnError c e]
                    | None => []
                    end) h s0 s' ->
      Q (Ok tt) s') ->
  runs (notify_onError options e) s Q.
Proof.
  intros Hs H. unfold notify_onError.
  destruct (UseAgentOptions.onError options) as [c|].
  - apply (step_emit _ s0 l h s _ Hs), H.
  - apply runs_ret, H. rewrite app_nil_r. exact Hs.
Qed.

(** ** callAgentAPI *)

(** The [catch]: the error record it builds is the one it forwards and the
    one it returns. *)
Lemma handler_trace (e : thrown) s0 l s :
  reached l (hook s0) s0 s ->
  runs (t <- now host ;;
        let err := ErrorDetails.make network_error
                     (message_or e (JStr "Network request failed"))
                     JUndefined JUndefined "/api/agent" t
                     (userAgent_or_unknown host) (href_or_unknown host) in
        (if isInIframe host then sendErrorToParent err ;; notify_global true err else ret tt) ;;
        ret (AgentResponse.make false JNull (JStr "Failed to connect to agent")
               JUndefined (Some err)))%monad s
    (fun r s' =>
       match r with
       | Ok a => added (l ++ api_reports host (globalErrorCallback s0) (AgentResponse.error a))
                   s0 s'
       | Throw _ => False
       end).
Proof.
  intros Hs. apply runs_bind. apply (step_now s0 l _ s _ Hs). intros t s1 H1. cbv zeta.
  apply runs_bind. apply (step_forward _ _ s0 l _ s1 _ H1). intros s2 H2.
  apply runs_ret. exact H2.
Qed.

(** [callAgentAPI] sends one request; it tells of an error exactly when its
    result carries one, and then of that one; the observer's slot and the
    hook are left alone. *)
Lemma callAgentAPI_trace message agentId options s :
  runs (callAgentAPI host parse message agentId options) s
    (fun r s' =>
       match r with
       | Ok a =>
           added (api_request host message agentId options
                  :: api_reports host (globalErrorCallback s) (AgentResponse.error a)) s s'
       | Throw _ => False
       end).
Proof.
  unfold callAgentAPI. apply runs_try_catch. apply runs_bind.
  apply (step_fetch _ s [] _ s _ (added_refl s)). cbn [app]. intros s1 H1.
  fold (api_request host message agentId options) in H1.
  destruct (network host) as [e | status [rawText | e]];
    try exact (handler_trace e s _ s1 H1).
  apply runs_bind, runs_lift.
  destruct (parse rawText) as [parsed | e]; [|exact (handler_trace e s _ s1 H1)].
  apply runs_bind. apply (step_envelope _ _ _ _ _ _ s _ _ s1 _ H1).
  intros data s2 (Hd & Hraw & _) H2.
  apply runs_bind. apply (step_detectError data _ s _ _ s2 _ Hd H2). intros o s3 _ H3.
  rewrite !(get_present data _ Hd), (ApiFacts.message_of_total data Hd).
  destruct o as [d|].
  - apply runs_bind. apply (step_forward _ _ s _ _ s3 _ H3). intros s4 H4.
    cbn. exact H4.
  - cbn. exact H3.
Qed.

(** ** The hook *)

Section OnAPage.

Variables ua href : string.
Hypothesis on_a_page : navigator host = Some ua /\ window host = Some href.

(** Telling of an error, then the result. *)
Lemma report_trace options (e : ErrorDetails) (a : AgentResponse) s0 l h s
    (Q : result AgentResponse -> State -> Prop) :
  reached l h s0 s ->
  (forall s',
      reached (l ++ hook_reports host options (globalErrorCallback s0) (Some e))
        (Hook.make (Hook.loading h) (Some e) (Hook.lastResponse h)) s0 s' ->
      Q (Ok a) s') ->
  runs (setError (Some e) ;;
        (if isInIframe host
         then sendErrorToParent e ;;
              notify_global (not_false (UseAgentOptions.showErrorModal options)) e
         else ret tt) ;;
        notify_onError options e ;;
        ret a)%monad s Q.
Proof.
  intros Hs H.
  apply runs_bind. apply (step_set_hook _ s0 l h s _ Hs). intros s1 H1.
  apply runs_bind. apply (step_forward _ _ s0 l _ s1 _ H1). intros s2 H2.
  apply runs_bind. apply (step_onError options e s0 _ _ s2 _ H2). intros s3 H3.
  apply runs_ret, H. cbn [hook_reports]. rewrite app_assoc. exact H3.
Qed.

(** The [catch] of the hook, and the [finally] after it. *)
Lemma hook_handler_trace options callOptions (e : thrown) s s1 :
  caught (network host) parse e ->
  reached [hook_request host options callOptions]
    (Hook.make true None (Hook.lastResponse (hook s))) s s1 ->
  runs (t <- now host ;;
        ua' <- navigator_userAgent host ;;
        href' <- window_location_href host ;;
        let err := ErrorDetails.make network_error
                     (message_or e (JStr "Network request failed"))
                     (match e with
                      | ErrorObject _ _ stack => stack
                      | Thrown _ => JUndefined
                      end)
                     JUndefined LYZR_API_URL t ua' href' in
        setError (Some err) ;;
        (if isInIframe host
         then sendErrorToParent err ;;
              notify_global (not_false (UseAgentOptions.showErrorModal options)) err
         else ret tt) ;;
        notify_onError options err ;;
        ret (AgentResponse.make false JNull (JStr "Failed to connect to agent")
               JUndefined (Some err)))%monad s1
    (fun r s2 =>
       runs (setLoading false) s2
         (fun u s3 => match u with
                      | Ok _ => settled host parse options callOptions s r s3
                      | Throw e' => settled host parse options callOptions s (Throw e') s3
                      end)).
Proof.
  intros Hc H1.
  apply runs_bind. apply (step_now s _ _ s1 _ H1). intros t s2 H2.
  unfold navigator_userAgent, window_location_href.
  destruct on_a_page as [-> ->].
  apply runs_bind, runs_ret. apply runs_bind, runs_ret. cbv zeta.
  apply (report_trace options _ _ s _ _ s2 _ H2). intros s3 H3.
  apply (step_set_hook _ s _ _ s3 _ H3). intros s4 (E & G & Hh).
  unfold settled. rewrite E, G, Hh. cbn -[hook_reports hook_request].
  repeat split. unfold last_response. unfold caught in Hc.
  destruct (network host) as [e' | status [rawText | e']]; try reflexivity.
  rewrite Hc. reflexivity.
Qed.

(** With an identifier at hand the hook sends one request; when it is done
    it is not loading, its error is the error of the result, which it has
    told the host frame and the observers of, and to no one else. *)
Lemma callAgent_trace options callOptions s :
  truthy (optional (finalAgentId host options callOptions)) = true ->
  runs (callAgent host parse options callOptions) s
    (settled host parse options callOptions s).
Proof.
  intros Hid. unfold callAgent. fold (finalAgentId host options callOptions).
  rewrite Hid. cbn [negb].
  apply runs_bind. apply (step_set_hook _ s [] _ s _ (added_refl s)). intros s1 H1.
  apply runs_bind. apply (step_set_hook _ s [] _ s1 _ H1). intros s2 H2.
  cbn [Hook.loading Hook.error Hook.lastResponse] in H2.
  apply runs_try_finally. apply runs_try_catch. apply runs_bind.
  apply (step_fetch _ s [] _ s2 _ H2). cbn [app]. intros s3 H3.
  fold (finalAgentId host options callOptions) in H3.
  fold (hook_request host options callOptions) in H3.
  assert (Hcatch : forall e, caught (network host) parse e ->
            runs (t <- now host ;;
                  ua' <- navigator_userAgent host ;;
                  href' <- window_location_href host ;;
                  let err := ErrorDetails.make network_error
                               (message_or e (JStr "Network request failed"))
                               (match e with
                                | ErrorObject _ _ stack => stack
                                | Thrown _ => JUndefined
                                end)
                               JUndefined LYZR_API_URL t ua' href' in
                  setError (Some err) ;;
                  (if isInIframe host
                   then sendErrorToParent err ;;
                        notify_global (not_false (UseAgentOptions.showErrorModal options)) err
                   else ret tt) ;;
                  notify_onError options err ;;
                  ret (AgentResponse.make false JNull (JStr "Failed to connect to agent")
                         JUndefined (Some err)))%monad s3
              (fun r s4 =>
                 runs (setLoading false) s4
                   (fun u s5 => match u with
                                | Ok _ => settled host parse options callOptions s r s5
                                | Throw e' =>
                                    settled host parse options callOptions s (Throw e') s5
                                end))).
  { intros e He. exact (hook_handler_trace options callOptions e s s3 He H3). }
  destruct (network host) as [e | status [rawText | e]] eqn:Hnet;
    try (apply Hcatch; reflexivity).
  apply runs_bind, runs_lift.
  destruct (parse rawText) as [parsed | e] eqn:Hparse;
    [|apply Hcatch; exact Hparse].
  clear Hcatch.
  apply runs_bind. apply (step_envelope _ _ _ _ _ _ s _ _ s3 _ H3).
  intros data s4 Hdata H4.
  apply runs_bind. apply (step_set_hook _ s _ _ s4 _ H4). intros s5 H5.
  cbn [Hook.loading Hook.error Hook.lastResponse] in H5.
  pose proof Hdata as (Hd & Hraw & _).
  apply runs_bind. apply (step_detectError data _ s _ _ s5 _ Hd H5). intros o s6 _ H6.
  rewrite !(get_present data _ Hd), (ApiFacts.message_of_total data Hd).
  destruct o as [d|].
  - apply runs_bind. apply (step_set_hook _ s _ _ s6 _ H6). intros s7 H7.
    apply runs_bind. apply (step_forward _ _ s _ _ s7 _ H7). intros s8 H8.
    apply runs_bind. apply (step_onError options d s _ _ s8 _ H8). intros s9 H9.
    apply runs_bind, runs_lift. apply runs_bind, runs_lift. apply runs_ret.
    apply (step_set_hook _ s _ _ s9 _ H9). intros s10 (E & G & Hh).
    unfold settled, last_response. rewrite E, G, Hh, Hnet, Hparse.
    cbn -[hook_request envelope_reads].
    refine (conj _ (conj _ (conj _ (conj _ Hdata)))); reflexivity.
  - apply runs_bind, runs_lift. apply runs_bind, runs_lift. apply runs_bind, runs_lift.
    apply runs_ret.
    apply (step_set_hook _ s _ _ s6 _ H6). intros s7 (E & G & Hh).
    unfold settled, last_response. rewrite E, G, Hh, Hnet, Hparse.
    cbn -[hook_request envelope_reads].
    refine (conj _ (conj _ (conj _ (conj _ Hdata)))); reflexivity.
Qed.

End OnAPage.

End WithHost.

End TraceFacts.

(* ================================================================== *)
(** * The effects of callAIAgent, and its callers                       *)
(* ================================================================== *)

Module AiTraceFacts.

Import AiAgent AiWorlds AiTraces Uuid Logic RunLogic.

Lemma advanced_refl s : advanced 0 [] s s.
Proof. unfold advanced. rewrite app_nil_r, Nat.add_0_r. auto. Qed.

Lemma advanced_trans n1 n2 l1 l2 s1 s2 s3 :
  advanced n1 l1 s1 s2 -> advanced n2 l2 s2 s3 -> advanced (n1 + n2) (l1 ++ l2) s1 s3.
Proof.
  unfold advanced. intros (D1 & E1) (D2 & E2).
  rewrite D2, D1, E2, E1, app_assoc, Nat.add_assoc. auto.
Qed.

Section WithHost.

Variable host : Host.

(** One random number for each [x] and [y] of the template, and nothing
    else. *)
Lemma replace_xy_draws (template : string) s :
  advanced (count_xy template) [] s (snd (replace_xy host template s)).
Proof.
  revert s. induction template as [|c rest IH]; intros s; cbn [replace_xy count_xy].
  - apply advanced_refl.
  - destruct (Ascii.eqb c "x" || Ascii.eqb c "y").
    + unfold replacement, random. cbn [bind ret M_monad fst snd].
      set (s1 := {| draws := S (draws s); events := events s |}).
      specialize (IH s1). destruct (replace_xy host rest s1) as [[t | e] s2]; cbn [snd] in *.
      * destruct IH as (D & E). unfold advanced. rewrite D, E. cbn. split; [lia|reflexivity].
      * destruct IH as (D & E). unfold advanced. rewrite D, E. cbn. split; [lia|reflexivity].
    + cbn [bind ret M_monad fst snd].
      specialize (IH s). destruct (replace_xy host rest s) as [[t | e] s2]; cbn [snd] in *;
        exact IH.
Qed.

Lemma generateUUID_draws s : advanced 31 [] s (snd (generateUUID host s)).
Proof.
  unfold generateUUID. exact (replace_xy_draws "xxxxxxxx-xxxx-4xxx-yxxx-xxxxxxxxxxxx" s).
Qed.

Lemma step_generateUUID s0 n l s (Q : result string -> State -> Prop) :
  advanced n l s0 s ->
  (forall u s', is_uuid_v4 u = true -> advanced (n + 31) l s0 s' -> Q (Ok u) s') ->
  runs (generateUUID host) s Q.
Proof.
  intros Hs H. unfold runs.
  pose proof (AiFacts.generateUUID_spec host s) as Hu.
  pose proof (generateUUID_draws s) as Hd.
  destruct (generateUUID host s) as [[u | e] s']; cbn [fst snd] in *; [|contradiction].
  apply H; [exact Hu|].
  pose proof (advanced_trans _ _ _ _ _ _ _ Hs Hd) as Ht.
  rewrite app_nil_r in Ht. exact Ht.
Qed.

(** An identifier: the caller's if usable, else a fresh one, at the price of
    31 random numbers. *)
Lemma step_identifier (o : option string) (f : string -> string) s0 n l s
    (Q : result string -> State -> Prop) :
  advanced n l s0 s ->
  (forall id s',
      match given o with
      | Some g => id = g
      | None => exists u, is_uuid_v4 u = true /\ id = f u
      end ->
      advanced (n + match given o with Some _ => 0 | None => 31 end) l s0 s' ->
      Q (Ok id) s') ->
  runs (given_or o (u <- generateUUID host ;; ret (f u))%monad) s Q.
Proof.
  intros Hs H.
  assert (Hfresh : given o = None ->
                   runs (u <- generateUUID host ;; ret (f u))%monad s Q).
  { intros Hg. rewrite Hg in H. apply runs_bind.
    apply (step_generateUUID s0 n l s _ Hs). intros u s' Hu Hs'.
    apply runs_ret. apply H; eauto. }
  unfold given_or, given in *. destruct o as [g|]; [|auto].
  destruct (String.eqb g ""); [auto|].
  apply runs_ret, H; [reflexivity|]. rewrite Nat.add_0_r. exact Hs.
Qed.

Variable parse : string -> result value.

(** [callAIAgent] settles the identifiers, sends one request with them, and
    writes to the console what its [catch] caught. *)
Lemma callAIAgent_trace message agent_id options s :
  runs (callAIAgent host parse message agent_id options) s
    (sent host parse message agent_id options s).
Proof.
  unfold callAIAgent. apply runs_try_catch.
  apply runs_bind. apply (step_identifier _ _ s 0 [] s _ (advanced_refl s)).
  intros user_id s1 Hu H1.
  apply runs_bind. apply (step_identifier _ _ s _ [] s1 _ H1).
  intros session_id s2 Hsid H2.
  fold (user_id_of options) in Hu, H1, H2. fold (session_id_of options) in Hsid, H2.
  assert (Hn : 0 + match user_id_of options with Some _ => 0 | None => 31 end
               + match session_id_of options with Some _ => 0 | None => 31 end
               = 31 * missing options).
  { unfold missing. destruct (user_id_of options), (session_id_of options); reflexivity. }
  rewrite Hn in H2. clear Hn H1.
  assert (Hids : user_id_sent options user_id /\ session_id_sent agent_id options session_id).
  { split; [exact Hu | exact Hsid]. }
  clear Hu Hsid.
  assert (Hsent : forall s3,
             advanced (31 * missing options)
               [request host message agent_id user_id session_id] s s3 ->
             forall out log,
               console (network host) parse = log ->
               (forall a, out = Ok a -> AIAgentResponse.success a = true ->
                          echoes host agent_id user_id session_id a) ->
               forall s4, advanced 0 log s3 s4 ->
               sent host parse message agent_id options s out s4).
  { intros s3 H3 out log Hlog Hecho s4 H4. exists user_id, session_id.
    destruct Hids as [Hu Hsid].
    split; [exact Hu|]. split; [exact Hsid|]. split; [|exact Hecho].
    pose proof (advanced_trans _ _ _ _ _ _ _ H3 H4) as (D & E).
    unfold advanced. rewrite D, E, Hlog. split; [lia | reflexivity]. }
  (* the request *)
  unfold fetch_text. apply runs_bind. apply runs_bind. unfold emit. apply runs_modify.
  set (s3 := {| draws := draws s2; events := (events s2 ++ _)%list |}).
  assert (H3 : advanced (31 * missing options)
                 [request host message agent_id user_id session_id] s s3).
  { destruct H2 as (D & E). unfold advanced, s3. cbn [draws events].
    rewrite D, E, app_nil_r. auto. }
  specialize (Hsent s3 H3). clearbody s3. clear H2 H3 Hids.
  assert (Hcatch : forall e,
             failure (network host) parse = Some e ->
             runs (emit (ConsoleError "AI Agent call failed:" e) ;;
                   details <- lift (describe e) ;;
                   ret (AIAgentResponse.make false JUndefined JUndefined JUndefined JUndefined
                          JUndefined JUndefined (JStr "Failed to call AI agent")
                          details))%monad s3
               (sent host parse message agent_id options s)).
  { intros e He. apply runs_bind. unfold emit. apply runs_modify.
    apply runs_bind, runs_lift.
    destruct (describe e) as [details | t].
    - apply runs_ret.
      apply (Hsent _ [ConsoleError "AI Agent call failed:" e]).
      + unfold console. rewrite He. reflexivity.
      + intros a Ha. injection Ha as <-. cbn. discriminate.
      + unfold advanced. cbn. auto.
    - apply (Hsent _ [ConsoleError "AI Agent call failed:" e]).
      + unfold console. rewrite He. reflexivity.
      + intros a Ha. discriminate Ha.
      + unfold advanced. cbn. auto. }
  assert (Hdone : forall a,
             failure (network host) parse = None ->
             (AIAgentResponse.success a = true ->
              echoes host agent_id user_id session_id a) ->
             sent host parse message agent_id options s (Ok a) s3).
  { intros a Hf Hecho. apply (Hsent (Ok a) []); [| |apply advanced_refl].
    - unfold console. rewrite Hf. reflexivity.
    - intros a' Ha. injection Ha as <-. exact Hecho. }
  clear Hsent. unfold failure in Hcatch, Hdone.
  destruct (network host) as [e | status [rawText | e]];
    try (apply runs_throw; apply Hcatch; reflexivity).
  apply runs_ret. cbn beta iota.
  destruct (ok_status status).
  - apply runs_bind, runs_lift.
    destruct (parse rawText) as [parsed | e]; [|apply Hcatch; reflexivity].
    destruct (is_false (get_opt parsed "success") || truthy (get_opt parsed "error")).
    + apply runs_ret. apply Hdone; [reflexivity|]. cbn. discriminate.
    + apply runs_ret. apply Hdone; [reflexivity|]. intros _. unfold echoes. cbn. auto.
  - apply runs_bind, runs_lift.
    destruct (error_data parse status rawText) as [errorData | e];
      [|apply Hcatch; reflexivity].
    unfold get. destruct (nullish errorData).
    + apply runs_bind, runs_lift. apply Hcatch. reflexivity.
    + do 3 apply runs_bind, runs_lift. apply runs_ret.
      apply Hdone; [reflexivity|]. cbn. discriminate.
Qed.

End WithHost.

End AiTraceFacts.

(* ================================================================== *)
(** * Further properties of the two files                               *)
(* ================================================================== *)

Module Behaviour.

Import Logic RunLogic.

(** ** src/hooks/useAgent.ts *)

Section UseAgentProperties.

Import UseAgent Worlds Traces TraceFacts.

Lemma outcome_cases net parse r :
  api_outcome net parse r ->
  (exists e, connection_failed e r /\ caught net parse e)
  \/ (exists m t, api_failed m t r)
  \/ (exists p t, succeeded p t r).
Proof.
  unfold api_outcome, caught. intros H.
  destruct net as [e | status [rawText | e]]; eauto.
  destruct (parse rawText) eqn:Hp; eauto.
  destruct (ok_status status); [destruct (Extractor.failed a)|]; eauto 6.
Qed.

Lemma api_outcome_agree net parse r1 r2 :
  api_outcome net parse r1 -> api_outcome net parse r2 -> same_answer r1 r2.
Proof.
  unfold api_outcome, same_answer. intros H1 H2.
  assert (C : (exists e, connection_failed e r1 /\ connection_failed e r2)
              \/ (exists m t, api_failed m t r1 /\ api_failed m t r2)
              \/ (exists p t, succeeded p t r1 /\ succeeded p t r2)).
  { destruct net as [e | status [rawText | e]]; eauto.
    destruct (parse rawText); eauto.
    destruct (ok_status status); [destruct (Extractor.failed a)|]; eauto 8. }
  destruct C as [(e & C1 & C2) | [(m & t & C1 & C2) | (p & t & C1 & C2)]].
  - destruct C1 as (-> & -> & -> & -> & d1 & -> & -> & ->).
    destruct C2 as (-> & -> & -> & -> & d2 & -> & -> & ->). auto 10.
  - destruct C1 as (-> & -> & -> & -> & d1 & -> & -> & -> & _).
    destruct C2 as (-> & -> & -> & -> & d2 & -> & -> & -> & _). auto 10.
  - destruct C1 as (-> & -> & -> & -> & ->).
    destruct C2 as (-> & -> & -> & -> & ->). auto 10.
Qed.

(** X1.  [callAgentAPI] sends exactly one request, and what it adds to the
    events after it is told of the error of its result, by [api_reports].
    On a page that is not embedded it tells no one, error or not: the
    request is all it adds.  On an embedded page it tells of the error its
    result carries, of that very record: the host frame first, then the
    registered observer if there is one; a success tells nothing.  The
    observer's slot and the cells of the hook are left as they were.  (The
    observer is outside the program: its call is recorded and returns.) *)
Theorem callAgentAPI_reports_the_error_it_returns host parse message agentId options s :
  exists r s',
    callAgentAPI host parse message agentId options s = (Ok r, s') /\
    events s' = (events s ++ api_request host message agentId options
                   :: api_reports host (globalErrorCallback s) (AgentResponse.error r))%list /\
    (AgentResponse.success r = true ->
     events s' = (events s ++ [api_request host message agentId options])%list) /\
    (isInIframe host = false ->
     events s' = (events s ++ [api_request host message agentId options])%list) /\
    (isInIframe host = true ->
     forall d, AgentResponse.error r = Some d ->
       events s' = (events s ++ api_request host message agentId options
                      :: SentToParent d
                      :: match globalErrorCallback s with
                         | Some c => [GlobalError c (Some d)]
                         | None => []
                         end)%list) /\
    globalErrorCallback s' = globalErrorCallback s /\
    hook s' = hook s.
Proof.
  destruct (runs_elim _ _ _
              (runs_and _ _ _ _
                 (callAgentAPI_trace host parse message agentId options s)
                 (runs_spec _ s _ _ (ApiFacts.callAgentAPI_spec host parse message agentId options))))
    as (r & s' & Hrun & Htrace & Hout).
  destruct r as [a | e]; [|contradiction].
  exists a, s'. destruct Htrace as (E & G & Hh).
  split; [exact Hrun|]. split; [exact E|].
  split; [|split; [|split; [|auto]]].
  - intros Hs. rewrite E.
    destruct (outcome_cases _ _ _ Hout) as [(e & C & _) | [(m & t & C) | (p & t & C)]].
    + destruct C as (C & _). congruence.
    + destruct C as (C & _). congruence.
    + destruct C as (_ & _ & _ & _ & ->). reflexivity.
  - intros Hi. rewrite E. unfold api_reports, forwarded. rewrite Hi.
    destruct (AgentResponse.error a); reflexivity.
  - intros Hi d Hd. rewrite E, Hd. unfold api_reports, forwarded. rewrite Hi.
    destruct (globalErrorCallback s); reflexivity.
Qed.

(** The run of the hook's [callAgent] on a page with an identifier. *)
Lemma callAgent_run host parse options callOptions s ua href :
  navigator host = Some ua ->
  window host = Some href ->
  truthy (optional (finalAgentId host options callOptions)) = true ->
  exists r s',
    callAgent host parse options callOptions s = (Ok r, s') /\
    api_outcome (network host) parse r /\
    settled host parse options callOptions s (Ok r) s'.
Proof.
  intros Hnav Hwin Hid.
  pose proof (HookFacts.callAgent_spec host parse ua href (conj Hnav Hwin) options callOptions)
    as Hspec.
  destruct (runs_elim _ _ _
              (runs_and _ _ _ _
                 (callAgent_trace host parse ua href (conj Hnav Hwin) options callOptions s Hid)
                 (runs_spec _ s _ _ Hspec)))
    as (r & s' & Hrun & Htrace & Hout).
  destruct r as [a | e]; [|contradiction].
  rewrite Hid in Hout. eauto.
Qed.

(** X2.  With the same message and identifiers the hook's [callAgent] and
    [callAgentAPI] each send one request, the first event each adds, and it
    is the same request: the same address, key and body.  Their results say
    the same: the same [success], [data], [message] and [raw_response], and
    an error of the same type with the same message.  What follows the
    request among the events is what each tells of its error. *)
Theorem hook_agrees_with_callAgentAPI host parse options callOptions id s1 s2 ua href :
  navigator host = Some ua ->
  window host = Some href ->
  finalAgentId host options callOptions = Some id ->
  String.eqb id "" = false ->
  exists r1 s1' r2 s2',
    callAgent host parse options callOptions s1 = (Ok r1, s1') /\
    callAgentAPI host parse (AgentCallOptions.message callOptions) id
      (api_options callOptions) s2 = (Ok r2, s2') /\
    same_answer r1 r2 /\
    events s1'
    = (events s1
       ++ api_request host (AgentCallOptions.message callOptions) id (api_options callOptions)
       :: hook_reports host options (globalErrorCallback s1) (AgentResponse.error r1))%list /\
    events s2'
    = (events s2
       ++ api_request host (AgentCallOptions.message callOptions) id (api_options callOptions)
       :: api_reports host (globalErrorCallback s2) (AgentResponse.error r2))%list.
Proof.
  intros Hnav Hwin Hfinal Hid.
  assert (Ht : truthy (optional (finalAgentId host options callOptions)) = true).
  { rewrite Hfinal. cbn. rewrite Hid. reflexivity. }
  assert (Hreq : hook_request host options callOptions
                 = api_request host (AgentCallOptions.message callOptions) id
                     (api_options callOptions)).
  { unfold hook_request, api_request, api_options. rewrite Hfinal. reflexivity. }
  destruct (callAgent_run host parse options callOptions s1 ua href Hnav Hwin Ht)
    as (r1 & s1' & Hrun1 & Hout1 & E1 & _).
  destruct (runs_elim _ _ _
              (runs_and _ _ _ _
                 (callAgentAPI_trace host parse (AgentCallOptions.message callOptions) id
                    (api_options callOptions) s2)
                 (runs_spec _ s2 _ _
                    (ApiFacts.callAgentAPI_spec host parse (AgentCallOptions.message callOptions)
                       id (api_options callOptions)))))
    as (r2 & s2' & Hrun2 & Htrace & Hout2).
  destruct r2 as [r2 | e]; [|contradiction].
  destruct Htrace as (E2 & _).
  exists r1, s1', r2, s2'. split; [exact Hrun1|]. split; [exact Hrun2|].
  split; [exact (api_outcome_agree _ _ _ _ Hout1 Hout2)|].
  split; [rewrite <- Hreq; exact E1 | exact E2].
Qed.

Lemma hook_agrees_with_callAgentAPI_witness :
  exists r1 s1' r2 s2',
    callAgent (browser true (Responds 500 (Ok rate_limited_body))) Extractor.strict
      (UseAgentOptions.make (Some "agent-1") None None)
      (AgentCallOptions.make "hi" None (Some "u1") None None) fresh = (Ok r1, s1') /\
    callAgentAPI (browser true (Responds 500 (Ok rate_limited_body))) Extractor.strict
      "hi" "agent-1"
      (api_options (AgentCallOptions.make "hi" None (Some "u1") None None)) fresh
    = (Ok r2, s2') /\
    same_answer r1 r2 /\
    events s1'
    = (events fresh
       ++ api_request (browser true (Responds 500 (Ok rate_limited_body))) "hi" "agent-1"
            (api_options (AgentCallOptions.make "hi" None (Some "u1") None None))
       :: hook_reports (browser true (Responds 500 (Ok rate_limited_body)))
            (UseAgentOptions.make (Some "agent-1") None None)
            (globalErrorCallback fresh) (AgentResponse.error r1))%list /\
    events s2'
    = (events fresh
       ++ api_request (browser true (Responds 500 (Ok rate_limited_body))) "hi" "agent-1"
            (api_options (AgentCallOptions.make "hi" None (Some "u1") None None))
       :: api_reports (browser true (Responds 500 (Ok rate_limited_body)))
            (globalErrorCallback fresh) (AgentResponse.error r2))%list.
Proof.
  apply (hook_agrees_with_callAgentAPI
           (browser true (Responds 500 (Ok rate_limited_body))) Extractor.strict
           (UseAgentOptions.make (Some "agent-1") None None)
           (AgentCallOptions.make "hi" None (Some "u1") None None)
           "agent-1" fresh fresh "Mozilla/5.0" "https://app.example/"); reflexivity.
Defined.

(** X3.  When the hook's [callAgent] is done with a request, on every way
    out (success, failure, a throw caught), the hook is not loading and its
    error cell holds the error of the result, nothing on a success; its
    last response is the envelope of the answer when one was built, and what
    it was when the transport or the extractor threw. *)
Theorem hook_cells_after_a_call host parse options callOptions s ua href :
  navigator host = Some ua ->
  window host = Some href ->
  truthy (optional (finalAgentId host options callOptions)) = true ->
  exists r s',
    callAgent host parse options callOptions s = (Ok r, s') /\
    Hook.loading (hook s') = false /\
    Hook.error (hook s') = AgentResponse.error r /\
    (AgentResponse.success r = true -> Hook.error (hook s') = None) /\
    last_response (network host) parse
      (Hook.lastResponse (hook s)) (Hook.lastResponse (hook s')).
Proof.
  intros Hnav Hwin Hid.
  destruct (callAgent_run host parse options callOptions s ua href Hnav Hwin Hid)
    as (r & s' & Hrun & Hout & _ & _ & Hl & He & Hlast).
  exists r, s'. split; [exact Hrun|]. split; [exact Hl|]. split; [exact He|].
  split; [|exact Hlast].
  intros Hs. rewrite He.
  destruct (outcome_cases _ _ _ Hout) as [(e & C & _) | [(m & t & C) | (p & t & C)]].
  - destruct C as (C & _). congruence.
  - destruct C as (C & _). congruence.
  - destruct C as (_ & _ & _ & _ & ->). reflexivity.
Qed.

Lemma hook_cells_after_a_call_witness :
  exists r s',
    callAgent (browser true (Rejects (ErrorObject "TypeError" "fetch failed" JUndefined)))
      Extractor.strict
      (UseAgentOptions.make (Some "agent-1") (Some 7) None)
      (AgentCallOptions.make "hi" None None None None) fresh = (Ok r, s') /\
    Hook.loading (hook s') = false /\
    Hook.error (hook s') = AgentResponse.error r /\
    (AgentResponse.success r = true -> Hook.error (hook s') = None) /\
    last_response (Rejects (ErrorObject "TypeError" "fetch failed" JUndefined))
      Extractor.strict (Hook.lastResponse (hook fresh)) (Hook.lastResponse (hook s')).
Proof.
  apply (hook_cells_after_a_call
           (browser true (Rejects (ErrorObject "TypeError" "fetch failed" JUndefined)))
           Extractor.strict
           (UseAgentOptions.make (Some "agent-1") (Some 7) None)
           (AgentCallOptions.make "hi" None None None None) fresh
           "Mozilla/5.0" "https://app.example/"); reflexivity.
Defined.

(** X4.  With an identifier at hand the hook's [callAgent] sends exactly one
    request, and what it adds to the events after it is told of the error of
    its result, by [hook_reports]: nothing on a success; of an error, that
    very record.  On a page that is not embedded only the hook's own
    [onError] is told, if the hook has one.  On an embedded page the host
    frame is told first, then the registered observer if there is one and
    [showErrorModal] is not [false], then [onError].  Switching the modal
    off silences the registered observer only.  The observer's slot is left
    as it was.  (The observers are outside the program: their calls are
    recorded and return.) *)
Theorem hook_reports_the_error_it_returns host parse options callOptions s ua href :
  navigator host = Some ua ->
  window host = Some href ->
  truthy (optional (finalAgentId host options callOptions)) = true ->
  exists r s',
    callAgent host parse options callOptions s = (Ok r, s') /\
    events s' = (events s ++ hook_request host options callOptions
                   :: hook_reports host options (globalErrorCallback s)
                        (AgentResponse.error r))%list /\
    (AgentResponse.success r = true ->
     events s' = (events s ++ [hook_request host options callOptions])%list) /\
    (isInIframe host = false ->
     forall d, AgentResponse.error r = Some d ->
       events s' = (events s ++ hook_request host options callOptions
                      :: match UseAgentOptions.onError options with
                         | Some c => [OnError c d]
                         | None => []
                         end)%list) /\
    (isInIframe host = true ->
     forall d, AgentResponse.error r = Some d ->
       events s' = (events s ++ hook_request host options callOptions
                      :: SentToParent d
                      :: match globalErrorCallback s with
                         | Some c =>
                             if not_false (UseAgentOptions.showErrorModal options)
                             then [GlobalError c (Some d)] else []
                         | None => []
                         end
                      ++ match UseAgentOptions.onError options with
                         | Some c => [OnError c d]
                         | None => []
                         end)%list) /\
    (UseAgentOptions.showErrorModal options = Some false ->
     forall c e, ~ In (GlobalError c e) (hook_reports host options (globalErrorCallback s)
                                           (AgentResponse.error r))) /\
    globalErrorCallback s' = globalErrorCallback s.
Proof.
  intros Hnav Hwin Hid.
  destruct (callAgent_run host parse options callOptions s ua href Hnav Hwin Hid)
    as (r & s' & Hrun & Hout & E & G & _).
  exists r, s'. split; [exact Hrun|]. split; [exact E|].
  split; [|split; [|split; [|split; [|exact G]]]].
  - intros Hs. rewrite E.
    destruct (outcome_cases _ _ _ Hout) as [(e & C & _) | [(m & t & C) | (p & t & C)]].
    + destruct C as (C & _). congruence.
    + destruct C as (C & _). congruence.
    + destruct C as (_ & _ & _ & _ & ->). reflexivity.
  - intros Hi d Hd. rewrite E, Hd. unfold hook_reports, forwarded. rewrite Hi. reflexivity.
  - intros Hi d Hd. rewrite E, Hd. unfold hook_reports, forwarded. rewrite Hi. reflexivity.
  - intros Hoff c e. unfold hook_reports, forwarded. rewrite Hoff. cbn [not_false].
    destruct (AgentResponse.error r) as [d|]; [|intros []].
    intros Hin. apply in_app_or in Hin. destruct Hin as [Hin | Hin].
    + destruct (isInIframe host); [|destruct Hin].
      destruct Hin as [Hin | Hin]; [discriminate Hin|].
      destruct (globalErrorCallback s); destruct Hin.
    + destruct (UseAgentOptions.onError options); [|destruct Hin].
      destruct Hin as [Hin | []]. discriminate Hin.
Qed.

Lemma hook_reports_the_error_it_returns_witness :
  exists r s',
    callAgent (browser true (Responds 500 (Ok rate_limited_body))) Extractor.strict
      (UseAgentOptions.make (Some "agent-1") (Some 7) (Some false))
      (AgentCallOptions.make "hi" None None None None) fresh = (Ok r, s') /\
    events s'
    = (events fresh
       ++ hook_request (browser true (Responds 500 (Ok rate_limited_body)))
            (UseAgentOptions.make (Some "agent-1") (Some 7) (Some false))
            (AgentCallOptions.make "hi" None None None None)
       :: hook_reports (browser true (Responds 500 (Ok rate_limited_body)))
            (UseAgentOptions.make (Some "agent-1") (Some 7) (Some false))
            (globalErrorCallback fresh) (AgentResponse.error r))%list /\
    (AgentResponse.success r = true ->
     events s'
     = (events fresh
        ++ [hook_request (browser true (Responds 500 (Ok rate_limited_body)))
              (UseAgentOptions.make (Some "agent-1") (Some 7) (Some false))
              (AgentCallOptions.make "hi" None None None None)])%list) /\
    (true = false ->
     forall d, AgentResponse.error r = Some d ->
       events s'
       = (events fresh
          ++ [hook_request (browser true (Responds 500 (Ok rate_limited_body)))
                (UseAgentOptions.make (Some "agent-1") (Some 7) (Some false))
                (AgentCallOptions.make "hi" None None None None);
              OnError 7 d])%list) /\
    (true = true ->
     forall d, AgentResponse.error r = Some d ->
       events s'
       = (events fresh
          ++ [hook_request (browser true (Responds 500 (Ok rate_limited_body)))
                (UseAgentOptions.make (Some "agent-1") (Some 7) (Some false))
                (AgentCallOptions.make "hi" None None None None);
              SentToParent d; OnError 7 d])%list) /\
    (UseAgentOptions.showErrorModal (UseAgentOptions.make (Some "agent-1") (Some 7) (Some false))
     = Some false ->
     forall c e,
       ~ In (GlobalError c e)
           (hook_reports (browser true (Responds 500 (Ok rate_limited_body)))
              (UseAgentOptions.make (Some "agent-1") (Some 7) (Some false))
              (globalErrorCallback fresh) (AgentResponse.error r))) /\
    globalErrorCallback s' = globalErrorCallback fresh.
Proof.
  apply (hook_reports_the_error_it_returns
           (browser true (Responds 500 (Ok rate_limited_body))) Extractor.strict
           (UseAgentOptions.make (Some "agent-1") (Some 7) (Some false))
           (AgentCallOptions.make "hi" None None None None) fresh
           "Mozilla/5.0" "https://app.example/"); reflexivity.
Defined.

(** X5.  The slot of the observer holds the last registration: of two
    observers registered one after the other, the second is the one
    [callAgentAPI] tells of an error and the one [clearGlobalError] calls,
    with no error, and it stays registered.  The first is told nothing. *)
Theorem last_registration_is_the_one_told host parse message agentId options c1 c2 s :
  exists r s',
    (setGlobalErrorCallback c1 ;;
     setGlobalErrorCallback c2 ;;
     r <- callAgentAPI host parse message agentId options ;;
     clearGlobalError ;;
     ret r)%monad s = (Ok r, s') /\
    events s' = (events s ++ api_request host message agentId options
                   :: api_reports host (Some c2) (AgentResponse.error r)
                   ++ [GlobalError c2 None])%list /\
    globalErrorCallback s' = Some c2.
Proof.
  set (s2 := {| globalErrorCallback := Some c2; clock := clock s;
                events := events s; hook := hook s |}).
  destruct (runs_elim _ _ _ (callAgentAPI_trace host parse message agentId options s2))
    as (r & s3 & Hrun & Htrace).
  destruct r as [a | e]; [|contradiction].
  destruct Htrace as (E & G & Hh). cbn [events globalErrorCallback s2] in E, G.
  exists a. eexists. split.
  - cbn [bind ret M_monad setGlobalErrorCallback modify
           clock events hook globalErrorCallback].
    fold s2. rewrite Hrun. unfold clearGlobalError, gets, call_global, emit, modify.
    cbn [bind ret M_monad]. rewrite G. reflexivity.
  - cbn [events globalErrorCallback]. rewrite E, G, <- app_assoc. auto.
Qed.

(** On a page the error cell of the hook holds the error of the result,
    with an identifier or without. *)
Lemma callAgent_error_cell host parse options callOptions s ua href :
  navigator host = Some ua ->
  window host = Some href ->
  exists r s',
    callAgent host parse options callOptions s = (Ok r, s') /\
    Hook.error (hook s') = AgentResponse.error r.
Proof.
  intros Hnav Hwin.
  destruct (truthy (optional (finalAgentId host options callOptions))) eqn:Hid.
  - destruct (callAgent_run host parse options callOptions s ua href Hnav Hwin Hid)
      as (r & s' & Hrun & _ & _ & _ & _ & He & _).
    eauto.
  - unfold callAgent. fold (finalAgentId host options callOptions). rewrite Hid.
    unfold navigator_userAgent, window_location_href. rewrite Hnav, Hwin.
    cbn. eauto.
Qed.

(** X6.  After a call of the hook's [callAgent] on a page, [requestFix] (of
    the render that sees the new cells) asks the host frame to fix the very
    error the call returned, and asks nothing after a success; once
    [clearError] has run it asks nothing. *)
Theorem fix_is_requested_for_the_error_returned host parse options callOptions s ua href :
  navigator host = Some ua ->
  window host = Some href ->
  exists r s1,
    callAgent host parse options callOptions s = (Ok r, s1) /\
    events (snd (requestFix s1)) = (events s1 ++ fix_request (AgentResponse.error r))%list /\
    events (snd ((clearError ;; requestFix)%monad s1)) = events s1.
Proof.
  intros Hnav Hwin.
  destruct (callAgent_error_cell host parse options callOptions s ua href Hnav Hwin)
    as (r & s1 & Hrun & He).
  exists r, s1. split; [exact Hrun|]. split.
  - unfold requestFix, gets. cbn [bind ret M_monad]. rewrite He.
    destruct (AgentResponse.error r); cbn; [reflexivity|]. rewrite app_nil_r. reflexivity.
  - reflexivity.
Qed.

Lemma fix_is_requested_for_the_error_returned_witness :
  exists r s1,
    callAgent (browser true (Responds 500 (Ok rate_limited_body))) Extractor.strict
      (UseAgentOptions.make (Some "agent-1") None None)
      (AgentCallOptions.make "hi" None None None None) fresh = (Ok r, s1) /\
    events (snd (requestFix s1)) = (events s1 ++ fix_request (AgentResponse.error r))%list /\
    events (snd ((clearError ;; requestFix)%monad s1)) = events s1.
Proof.
  apply (fix_is_requested_for_the_error_returned
           (browser true (Responds 500 (Ok rate_limited_body))) Extractor.strict
           (UseAgentOptions.make (Some "agent-1") None None)
           (AgentCallOptions.make "hi" None None None None) fresh
           "Mozilla/5.0" "https://app.example/"); reflexivity.
Defined.

(** X7.  [detectError] throws a [TypeError] on [null] and [undefined], before
    it has done anything, and on nothing else.  On every other value it
    returns, without an event; it returns a record exactly when a [success]
    that is [false] stands next to a truthy [error], in the response or at
    the top: an [error] alone, or [success: false] alone, is no error.  The
    record names the endpoint it was given, and [unknown] for the user agent
    and the address where [navigator] and [window] are not defined. *)
Theorem detectError_needs_the_flag_and_the_error host data endpoint s :
  (nullish data = true ->
   detectError host data endpoint s = (Throw (TypeError (ToString data) "response"), s)) /\
  (nullish data = false ->
   exists o s',
     detectError host data endpoint s = (Ok o, s') /\
     events s' = events s /\
     (failure_flagged data = false -> o = None) /\
     (failure_flagged data = true ->
      exists d, o = Some d /\
                ErrorDetails.endpoint d = endpoint /\
                ErrorDetails.userAgent d = userAgent_or_unknown host /\
                ErrorDetails.url d = href_or_unknown host /\
                ErrorDetails.timestamp d = Date_toISOString host (clock s))).
Proof.
  split; intros Hd.
  - unfold detectError, get. rewrite Hd. reflexivity.
  - unfold failure_flagged, parse_error_shown, detectError.
    rewrite !(get_present data _ Hd).
    set (response := get_opt data "response").
    cbn [bind ret M_monad lift fst].
    destruct (truthy response && (typeof response =? "object")) eqn:Hobj.
    + rewrite !(get_present response _ (object_not_nullish _ Hobj)).
      cbn [bind ret M_monad lift fst andb].
      destruct (is_false (get_opt response "success") && truthy (get_opt response "error")).
      * cbn. do 2 eexists. repeat split; try discriminate. intros _. eexists. repeat split.
      * cbn [bind ret M_monad lift fst andb orb].
        destruct (is_false (get_opt data "success") && truthy (get_opt data "error")); cbn;
          do 2 eexists; repeat split; try discriminate; intros _; eexists; repeat split.
    + cbn [bind ret M_monad lift fst andb orb].
      destruct (is_false (get_opt data "success") && truthy (get_opt data "error")); cbn;
        do 2 eexists; repeat split; try discriminate; intros _; eexists; repeat split.
Qed.

(** The message of an envelope without response whose body is no JSON text:
    the body itself, and the fixed text for an empty body. *)
Lemma message_of_plain_text rawText :
  JSON_parse rawText = None ->
  message_of (unwrapped rawText)
  = if String.eqb rawText "" then JStr "No response received" else JStr rawText.
Proof.
  intros Hp. unfold message_of.
  rewrite (ExtractFacts.extractAgentMessage_unusable (unwrapped rawText)) by reflexivity.
  unfold from_raw_response.
  assert (Hg : get (unwrapped rawText) "raw_response" = Ok (JStr rawText)) by reflexivity.
  assert (Hr : get_opt (get_opt (unwrapped rawText) "response") "raw_response" = JUndefined)
    by reflexivity.
  rewrite Hg, Hr. cbn [bind ret result_monad].
  change (js_or JUndefined (JStr rawText)) with (JStr rawText).
  cbn [truthy]. destruct (String.eqb rawText ""); cbn [negb]; [reflexivity|].
  unfold JSON_parse_value, String_of. cbn [stringable ToString bind result_monad]. rewrite Hp. reflexivity.
Qed.

(** X8.  A failure whose body is no JSON text (a status outside 200..299, or
    an extractor that reports a failure): the message of the result is the
    body as it came, and the text "No response received" when the body is
    empty. *)
Theorem plain_text_body_is_the_message host parse message agentId options s
    status rawText parsed :
  network host = Responds status (Ok rawText) ->
  parse rawText = Ok parsed ->
  ok_status status && negb (Extractor.failed parsed) = false ->
  JSON_parse rawText = None ->
  exists r s',
    callAgentAPI host parse message agentId options s = (Ok r, s') /\
    AgentResponse.success r = false /\
    AgentResponse.message r
    = (if String.eqb rawText "" then JStr "No response received" else JStr rawText) /\
    AgentResponse.raw_response r = JStr rawText.
Proof.
  intros Hnet Hparse Hfail Hplain.
  destruct (returns_run _ _
              (ApiFacts.callAgentAPI_spec host parse message agentId options) s)
    as (r & s' & Hrun & Hout).
  exists r, s'. split; [exact Hrun|].
  unfold api_outcome in Hout. rewrite Hnet, Hparse in Hout.
  rewrite <- (message_of_plain_text rawText Hplain).
  destruct (ok_status status); cbn [andb] in Hfail.
  - apply negb_false_iff in Hfail. rewrite Hfail in Hout.
    destruct Hout as (Hs & _ & Hm & Hr & _). auto.
  - destruct Hout as (Hs & _ & Hm & Hr & _). auto.
Qed.

Lemma plain_text_body_is_the_message_witness :
  exists r s',
    callAgentAPI (browser false (Responds 502 (Ok "Bad Gateway"))) Extractor.strict
      "hi" "agent-1" None fresh = (Ok r, s') /\
    AgentResponse.success r = false /\
    AgentResponse.message r
    = (if String.eqb "Bad Gateway" "" then JStr "No response received"
       else JStr "Bad Gateway") /\
    AgentResponse.raw_response r = JStr "Bad Gateway".
Proof.
  apply (plain_text_body_is_the_message
           (browser false (Responds 502 (Ok "Bad Gateway"))) Extractor.strict
           "hi" "agent-1" None fresh 502%Z "Bad Gateway"
           (Extractor.failure "No valid JSON found in response" "Bad Gateway"));
    reflexivity.
Defined.

(** The message of an envelope without response whose body is JSON text,
    as the second part of [extractAgentMessage] reads it. *)
Lemma message_of_json_text rawText parsed :
  JSON_parse rawText = Some parsed ->
  Ok (message_of (unwrapped rawText))
  = catch
      (result_ <- get parsed "result" ;;
       if truthy (get_opt result_ "message") then get result_ "message"
       else
         message <- get parsed "message" ;;
         if truthy message then ret message
         else
           status <- get parsed "status" ;;
           if is_string status "success" && truthy result_ then
             if String.eqb (typeof result_) "string" then ret result_
             else
               m <- get result_ "message" ;;
               ret (js_or m (JSON_stringify_2 result_))
           else ret (JSON_stringify_2 parsed))
      (fun _ => ret (JStr rawText)).
Proof.
  intros Hp.
  assert (Hne : String.eqb rawText "" = false).
  { destruct rawText; [discriminate Hp | reflexivity]. }
  rewrite <- (ApiFacts.message_of_total (unwrapped rawText)) by reflexivity.
  rewrite (ExtractFacts.extractAgentMessage_unusable (unwrapped rawText)) by reflexivity.
  unfold from_raw_response.
  assert (Hg : get (unwrapped rawText) "raw_response" = Ok (JStr rawText)) by reflexivity.
  assert (Hr : get_opt (get_opt (unwrapped rawText) "response") "raw_response" = JUndefined)
    by reflexivity.
  rewrite Hg, Hr. cbn [bind ret result_monad].
  change (js_or JUndefined (JStr rawText)) with (JStr rawText).
  cbn [truthy]. rewrite Hne. cbn [negb].
  unfold JSON_parse_value, String_of. cbn [stringable ToString bind result_monad]. rewrite Hp. reflexivity.
Qed.

(** X9.  A failure whose body is JSON text (a status outside 200..299, or
    an extractor that reports a failure), with every number of the body one
    that binary64 keeps as written ([numbers_kept]: no more than 15
    significant digits, no overflow, no underflow): the message of the result
    is read off the body, in this order: [result.message] if truthy, else
    [message] if truthy, else, unless the body says [status: 'success'] with
    a truthy [result], the body printed with an indentation of two.  A body
    that is the text [null] is returned as it is: reading it throws, and the
    [catch] answers with the raw text. *)
Theorem failure_message_is_read_off_the_body host parse message agentId options s
    status rawText extracted parsed :
  network host = Responds status (Ok rawText) ->
  parse rawText = Ok extracted ->
  ok_status status && negb (Extractor.failed extracted) = false ->
  JSON_parse rawText = Some parsed ->
  numbers_kept parsed = true ->
  exists r s',
    callAgentAPI host parse message agentId options s = (Ok r, s') /\
    AgentResponse.success r = false /\
    (nullish parsed = true -> AgentResponse.message r = JStr rawText) /\
    (truthy (get_opt (get_opt parsed "result") "message") = true ->
     AgentResponse.message r = get_opt (get_opt parsed "result") "message") /\
    (truthy (get_opt (get_opt parsed "result") "message") = false ->
     truthy (get_opt parsed "message") = true ->
     AgentResponse.message r = get_opt parsed "message") /\
    (nullish parsed = false ->
     truthy (get_opt (get_opt parsed "result") "message") = false ->
     truthy (get_opt parsed "message") = false ->
     is_string (get_opt parsed "status") "success" && truthy (get_opt parsed "result") = false ->
     AgentResponse.message r = JSON_stringify_2 parsed).
Proof.
  intros Hnet Hparse Hfail Hjson _.
  destruct (returns_run _ _
              (ApiFacts.callAgentAPI_spec host parse message agentId options) s)
    as (r & s' & Hrun & Hout).
  exists r, s'. split; [exact Hrun|].
  unfold api_outcome in Hout. rewrite Hnet, Hparse in Hout.
  assert (H : AgentResponse.success r = false /\
              AgentResponse.message r = message_of (unwrapped rawText)).
  { destruct (ok_status status); cbn [andb] in Hfail.
    - apply negb_false_iff in Hfail. rewrite Hfail in Hout.
      destruct Hout as (Hs & _ & Hm & _). auto.
    - destruct Hout as (Hs & _ & Hm & _). auto. }
  destruct H as [Hs Hm]. split; [exact Hs|].
  pose proof (message_of_json_text rawText parsed Hjson) as Heq.
  rewrite <- Hm in Heq. clear Hm Hout Hrun.
  unfold get in Heq.
  destruct (nullish parsed) eqn:Hn.
  - cbn in Heq. injection Heq as ->.
    split; [reflexivity|]. split; [|split; [|discriminate]].
    + destruct parsed; discriminate.
    + destruct parsed; discriminate.
  - split; [discriminate|]. cbn [bind ret result_monad] in Heq.
    destruct (truthy (get_opt (get_opt parsed "result") "message")) eqn:Hrm.
    + rewrite (truthy_get_opt_receiver _ _ Hrm) in Heq. cbn in Heq. injection Heq as ->.
      split; [reflexivity|]. split; discriminate.
    + split; [discriminate|].
      destruct (truthy (get_opt parsed "message")) eqn:Hpm.
      * cbn in Heq. injection Heq as ->. split; [reflexivity|]. discriminate.
      * split; [discriminate|]. intros _ _ _ Hst. rewrite Hst in Heq.
        cbn in Heq. injection Heq as ->. reflexivity.
Qed.

Lemma failure_message_is_read_off_the_body_witness :
  exists r s',
    callAgentAPI (browser false (Responds 500 (Ok oops_body))) Extractor.strict
      "hi" "agent-1" None fresh = (Ok r, s') /\
    AgentResponse.success r = false /\
    (nullish (JObj [("message", JStr "oops")]) = true ->
     AgentResponse.message r = JStr oops_body) /\
    (truthy (get_opt (get_opt (JObj [("message", JStr "oops")]) "result") "message") = true ->
     AgentResponse.message r
     = get_opt (get_opt (JObj [("message", JStr "oops")]) "result") "message") /\
    (truthy (get_opt (get_opt (JObj [("message", JStr "oops")]) "result") "message") = false ->
     truthy (get_opt (JObj [("message", JStr "oops")]) "message") = true ->
     AgentResponse.message r = get_opt (JObj [("message", JStr "oops")]) "message") /\
    (nullish (JObj [("message", JStr "oops")]) = false ->
     truthy (get_opt (get_opt (JObj [("message", JStr "oops")]) "result") "message") = false ->
     truthy (get_opt (JObj [("message", JStr "oops")]) "message") = false ->
     is_string (get_opt (JObj [("message", JStr "oops")]) "status") "success"
     && truthy (get_opt (JObj [("message", JStr "oops")]) "result") = false ->
     AgentResponse.message r = JSON_stringify_2 (JObj [("message", JStr "oops")])).
Proof.
  apply (failure_message_is_read_off_the_body
           (browser false (Responds 500 (Ok oops_body))) Extractor.strict
           "hi" "agent-1" None fresh 500%Z oops_body
           (JObj [("message", JStr "oops")]) (JObj [("message", JStr "oops")]));
    reflexivity.
Defined.

(** X10.  The hook reads [navigator] and [window] unguarded.  Where they are
    not defined and the transport or the extractor throws, its [callAgent]
    does not return: building the error record throws a [ReferenceError],
    which leaves the call.  The [finally] still runs, so the hook is not
    loading; but the error of the request is kept nowhere and told to no
    one: the error cell is empty and the request is the only event.
    ([callAgentAPI] guards both reads and returns in every world.) *)
Theorem hook_throws_where_there_is_no_page host parse options callOptions s e :
  navigator host = None ->
  truthy (optional (finalAgentId host options callOptions)) = true ->
  caught (network host) parse e ->
  exists m s',
    callAgent host parse options callOptions s
    = (Throw (ErrorObject "ReferenceError" m JUndefined), s') /\
    Hook.loading (hook s') = false /\
    Hook.error (hook s') = None /\
    events s' = (events s ++ [hook_request host options callOptions])%list.
Proof.
  intros Hnav Hid Hcaught.
  assert (Hruns : runs (callAgent host parse options callOptions) s
                    (fun r s' =>
                       r = Throw (ErrorObject "ReferenceError" "navigator is not defined"
                                    JUndefined) /\
                       Hook.loading (hook s') = false /\
                       Hook.error (hook s') = None /\
                       events s' = (events s ++ [hook_request host options callOptions])%list)).
  { unfold callAgent. fold (finalAgentId host options callOptions). rewrite Hid. cbn [negb].
    apply runs_bind. apply (step_set_hook _ s [] _ s _ (added_refl s)). intros s1 H1.
    apply runs_bind. apply (step_set_hook _ s [] _ s1 _ H1). intros s2 H2.
    cbn [Hook.loading Hook.error Hook.lastResponse] in H2.
    apply runs_try_finally. apply runs_try_catch. apply runs_bind.
    apply (step_fetch host _ s [] _ s2 _ H2). cbn [app]. intros s3 H3.
    fold (finalAgentId host options callOptions) in H3.
    fold (hook_request host options callOptions) in H3.
    assert (Hhandler :
              forall e',
                runs (t <- now host ;;
                      ua' <- navigator_userAgent host ;;
                      href' <- window_location_href host ;;
                      let err := ErrorDetails.make network_error
                                   (message_or e' (JStr "Network request failed"))
                                   (match e' with
                                    | ErrorObject _ _ stack => stack
                                    | Thrown _ => JUndefined
                                    end)
                                   JUndefined LYZR_API_URL t ua' href' in
                      setError (Some err) ;;
                      (if isInIframe host
                       then sendErrorToParent err ;;
                            notify_global (not_false (UseAgentOptions.showErrorModal options))
                              err
                       else ret tt) ;;
                      notify_onError options err ;;
                      ret (AgentResponse.make false JNull (JStr "Failed to connect to agent")
                             JUndefined (Some err)))%monad s3
                  (fun r s4 =>
                     runs (setLoading false) s4
                       (fun u s5 =>
                          match u with
                          | Ok _ =>
                              r = Throw (ErrorObject "ReferenceError"
                                           "navigator is not defined" JUndefined) /\
                              Hook.loading (hook s5) = false /\
                              Hook.error (hook s5) = None /\
                              events s5
                              = (events s ++ [hook_request host options callOptions])%list
                          | Throw _ => False
                          end))).
    { intros e'. apply runs_bind. apply (step_now host s _ _ s3 _ H3). intros t s4 H4.
      unfold navigator_userAgent. rewrite Hnav. apply runs_bind, runs_throw.
      apply (step_set_hook _ s _ _ s4 _ H4). intros s5 (E & _ & Hh).
      rewrite E, Hh. cbn. auto. }
    unfold caught in Hcaught.
    destruct (network host) as [e' | status [rawText | e']]; try apply Hhandler.
    apply runs_bind, runs_lift. rewrite Hcaught. apply Hhandler. }
  destruct (runs_elim _ _ _ Hruns) as (r & s' & Hrun & -> & Hl & He & Hev).
  eauto 10.
Qed.

Lemma hook_throws_where_there_is_no_page_witness :
  exists m s',
    callAgent (off_page (Rejects (ErrorObject "TypeError" "fetch failed" JUndefined)))
      Extractor.strict (UseAgentOptions.make None None None)
      (AgentCallOptions.make "hi" None None None None) fresh
    = (Throw (ErrorObject "ReferenceError" m JUndefined), s') /\
    Hook.loading (hook s') = false /\
    Hook.error (hook s') = None /\
    events s'
    = (events fresh
       ++ [hook_request (off_page (Rejects (ErrorObject "TypeError" "fetch failed" JUndefined)))
             (UseAgentOptions.make None None None)
             (AgentCallOptions.make "hi" None None None None)])%list.
Proof.
  apply (hook_throws_where_there_is_no_page
           (off_page (Rejects (ErrorObject "TypeError" "fetch failed" JUndefined)))
           Extractor.strict (UseAgentOptions.make None None None)
           (AgentCallOptions.make "hi" None None None None) fresh
           (ErrorObject "TypeError" "fetch failed" JUndefined)); reflexivity.
Defined.

End UseAgentProperties.

(** ** src/utils/aiAgent.ts *)

Section AiAgentProperties.

Import AiAgent AiWorlds AiTraces AiTraceFacts UseAIAgent UseCases.

(** What leaves [callAIAgent] as a throw is the conversion of a value that
    its [catch] caught and that has no text; the call had no answer. *)
Lemma describe_throws e t :
  describe e = Throw t -> exists v, e = Thrown v /\ stringable v = false.
Proof.
  destruct e as [name text stack | v]; [discriminate|].
  unfold describe, String_of. intros H. exists v. split; [reflexivity|].
  destruct (stringable v); [discriminate H | reflexivity].
Qed.

Lemma failure_no_answer net parse e : failure net parse = Some e -> answer net parse = None.
Proof.
  unfold failure, answer.
  destruct net as [e' | status [rawText | e']]; try reflexivity.
  destruct (ok_status status); [|reflexivity].
  destruct (parse rawText); [discriminate | reflexivity].
Qed.

Lemma rejected_no_text net parse t :
  rejected net parse t ->
  answer net parse = None /\
  exists v, failure net parse = Some (Thrown v) /\ stringable v = false.
Proof.
  intros (e & Hc & Hd). apply Claims.caught_failure in Hc.
  destruct (describe_throws e t Hd) as (v & -> & Hv).
  split; [exact (failure_no_answer _ _ _ Hc) | eauto].
Qed.

(** X11.  [callAIAgent] uses the identifiers of the caller that are not empty
    and makes the others: a user identifier [user-] and a UUID, a session
    identifier of the agent identifier, a hyphen and the first 12 characters
    of a UUID, at 31 random numbers for each one made and none otherwise.  It
    sends exactly one request, with these, and writes to the console what its
    [catch] caught, if anything.  So it is on every way out of the call, a
    result or a throw.  A result that says success names the identifiers of
    the answer, and where the answer has none those of the request. *)
Theorem callAIAgent_settles_the_identifiers host parse message agent_id options s :
  exists out s' user_id session_id,
    callAIAgent host parse message agent_id options s = (out, s') /\
    user_id_sent options user_id /\
    session_id_sent agent_id options session_id /\
    events s' = (events s ++ request host message agent_id user_id session_id
                   :: console (network host) parse)%list /\
    draws s' = draws s + 31 * missing options /\
    (forall r, out = Ok r -> AIAgentResponse.success r = true ->
               echoes host agent_id user_id session_id r).
Proof.
  destruct (runs_elim _ _ _ (callAIAgent_trace host parse message agent_id options s))
    as (out & s' & Hrun & Htrace).
  destruct Htrace as (user_id & session_id & Hu & Hsid & (D & E) & Hecho).
  exists out, s', user_id, session_id. auto 10.
Qed.

(** X12.  A status outside 200..299 whose body the extractor cannot read (it
    throws, or it answers something falsy and the body is no JSON text):
    [callAIAgent] reports the body itself as the error, and the text "API
    returned status N" when the body is empty; [details] and [raw_response]
    are the body.  Nothing is caught, so nothing is written to the
    console. *)
Theorem unreadable_error_body_is_the_error host parse message agent_id options s
    status rawText :
  network host = Responds status (Ok rawText) ->
  ok_status status = false ->
  (exists e, parse rawText = Throw e)
  \/ (exists first, parse rawText = Ok first /\ truthy first = false
                    /\ JSON_parse rawText = None) ->
  exists r s',
    callAIAgent host parse message agent_id options s = (Ok r, s') /\
    AIAgentResponse.success r = false /\
    AIAgentResponse.error r
    = (if String.eqb rawText "" then JStr (status_message status) else JStr rawText) /\
    AIAgentResponse.details r = JStr rawText /\
    AIAgentResponse.raw_response r = JStr rawText /\
    console (network host) parse = [].
Proof.
  intros Hnet Hok Hunreadable.
  assert (Hdata : error_data parse status rawText
                  = Ok (object [("error", js_or (JStr rawText)
                                            (JStr (status_message status)))])).
  { unfold error_data. destruct Hunreadable as [[e Hp] | (first & Hp & Hf & Hj)].
    - rewrite Hp. reflexivity.
    - rewrite Hp. cbn [bind ret result_monad catch]. rewrite Hf.
      unfold JSON_parse_value, String_of. cbn [stringable ToString bind result_monad].
      rewrite Hj. reflexivity. }
  assert (Hnone : failure (network host) parse = None).
  { unfold failure. rewrite Hnet, Hok, Hdata. reflexivity. }
  destruct (Claims.callAIAgent_returns host parse message agent_id options s)
    as (r & s' & Hrun & Hout).
  { intros v Hv. rewrite Hnone in Hv. discriminate Hv. }
  exists r, s'. split; [exact Hrun|].
  unfold ai_outcome in Hout. rewrite Hnet, Hok, Hdata in Hout.
  unfold console. rewrite Hnone.
  set (v := js_or (JStr rawText) (JStr (status_message status))) in *.
  change (nullish (object [("error", v)])) with false in Hout |- *.
  destruct Hout as (Hs & He & Hd & Hr).
  change (get_opt (object [("error", v)]) "error") with v in He.
  change (get_opt (object [("error", v)]) "message") with JUndefined in He.
  change (get_opt (object [("error", v)]) "details") with JUndefined in Hd.
  split; [exact Hs|]. split; [|split; [exact Hd | split; [exact Hr | reflexivity]]].
  assert (Hv : v = if String.eqb rawText "" then JStr (status_message status)
                   else JStr rawText).
  { unfold v, js_or. cbv [truthy]. destruct (String.eqb rawText ""); reflexivity. }
  assert (Ht : truthy v = true).
  { rewrite Hv. destruct (String.eqb rawText "") eqn:Hne; [reflexivity|].
    cbv [truthy]. rewrite Hne. reflexivity. }
  rewrite He. unfold js_or at 1. rewrite Ht. exact Hv.
Qed.

Lemma unreadable_error_body_is_the_error_witness :
  exists r s',
    callAIAgent (page (Responds 503 (Ok "Service Unavailable")))
      (fun _ => Throw (Thrown JNull)) "hi" "agent-1" None fresh = (Ok r, s') /\
    AIAgentResponse.success r = false /\
    AIAgentResponse.error r
    = (if String.eqb "Service Unavailable" "" then JStr (status_message 503)
       else JStr "Service Unavailable") /\
    AIAgentResponse.details r = JStr "Service Unavailable" /\
    AIAgentResponse.raw_response r = JStr "Service Unavailable" /\
    console (network (page (Responds 503 (Ok "Service Unavailable"))))
      (fun _ => Throw (Thrown JNull)) = [].
Proof.
  apply (unreadable_error_body_is_the_error
           (page (Responds 503 (Ok "Service Unavailable")))
           (fun _ => Throw (Thrown JNull)) "hi" "agent-1" None fresh
           503%Z "Service Unavailable").
  - reflexivity.
  - reflexivity.
  - left. exists (Thrown JNull). reflexivity.
Defined.

Lemma runs_within {A} (m : M State A) (s : HookState) (Q : result A -> HookState -> Prop) :
  runs m (world s) (fun r w => Q r {| world := w; cells := cells s |}) ->
  runs (within m) s Q.
Proof. unfold runs, within. destruct (m (world s)) as [r w]. auto. Qed.

(** X13.  The hook [useAIAgent]: its [callAgent] ends as [callAIAgent] ends,
    with the same result or the same throw, and does to the world what
    [callAIAgent] does, and nothing more.  After a result the hook is not
    loading; after a success the response cell holds the response and the
    error cell [null]; after a failure the error cell holds the error of the
    result, which is truthy, so never the stand-in "Unknown error", and the
    response cell [null].  After a throw the hook is left loading, with both
    cells [null]: nothing resets the flag. *)
Theorem useAIAgent_cells_after_a_call host parse message agent_id options s :
  exists out s',
    UseAIAgent.callAgent host parse message agent_id options s = (out, s') /\
    callAIAgent host parse message agent_id options (world s) = (out, world s') /\
    match out with
    | Ok r =>
        Cells.loading (cells s') = false /\
        (if AIAgentResponse.success r
         then Cells.response (cells s') = AIAgentResponse.response r /\
              Cells.error (cells s') = JNull
         else Cells.error (cells s') = AIAgentResponse.error r /\
              truthy (AIAgentResponse.error r) = true /\
              Cells.response (cells s') = JNull)
    | Throw _ =>
        Cells.loading (cells s') = true /\
        Cells.error (cells s') = JNull /\
        Cells.response (cells s') = JNull
    end.
Proof.
  destruct (AiFacts.callAIAgent_run host parse message agent_id options (world s))
    as (out & w & Hrun & Hout).
  exists out.
  unfold UseAIAgent.callAgent, within, setLoading, setError, setResponse, set_cells, modify.
  cbn [bind ret M_monad world cells]. rewrite Hrun.
  destruct out as [r | t]; cbn [bind ret M_monad world cells].
  - assert (Herr : AIAgentResponse.success r = false ->
                   truthy (AIAgentResponse.error r) = true).
    { exact (Claims.ai_outcome_error _ _ _ Hout). }
    destruct (AIAgentResponse.success r).
    + eexists. split; [reflexivity|]. cbn. auto.
    + eexists. split; [reflexivity|]. cbn. unfold js_or. rewrite (Herr eq_refl). auto.
  - eexists. split; [reflexivity|]. cbn. auto.
Qed.

(** The run of [callAIAgent], with what it says of the answer: a result
    holds the answer, or says failure when there is none; a throw is the
    conversion of a caught value that has no text. *)
Lemma answer_outcome net parse r :
  ai_outcome net parse r ->
  match answer net parse with
  | Some p => AIAgentResponse.success r = true /\ AIAgentResponse.response r = p
  | None => AIAgentResponse.success r = false
  end.
Proof.
  unfold ai_outcome, answer.
  destruct net as [e | status [rawText | e]]; try (intros H; apply H).
  destruct (ok_status status).
  - destruct (parse rawText) as [parsed | e]; [|intros H; apply H].
    destruct (Extractor.failed parsed); intros H; [apply H|].
    destruct H as (Hs & Hr & _). auto.
  - destruct (error_data parse status rawText) as [d | e]; [|intros H; apply H].
    destruct (nullish d); intros H; apply H.
Qed.

Lemma callAIAgent_answer host parse message agent_id options s :
  exists out s',
    callAIAgent host parse message agent_id options s = (out, s') /\
    match out with
    | Ok r =>
        match answer (network host) parse with
        | Some p => AIAgentResponse.success r = true /\ AIAgentResponse.response r = p
        | None => AIAgentResponse.success r = false
        end
    | Throw _ =>
        answer (network host) parse = None /\
        exists v, failure (network host) parse = Some (Thrown v) /\ stringable v = false
    end.
Proof.
  destruct (AiFacts.callAIAgent_run host parse message agent_id options s)
    as (out & s' & Hrun & Hout).
  exists out, s'. split; [exact Hrun|]. destruct out as [r | t].
  - apply answer_outcome, Hout.
  - exact (rejected_no_text _ _ _ Hout).
Qed.

(** With an answer the call returns it. *)
Lemma callAIAgent_answers host parse message agent_id options s p :
  answer (network host) parse = Some p ->
  exists r s',
    callAIAgent host parse message agent_id options s = (Ok r, s') /\
    AIAgentResponse.success r = true /\ AIAgentResponse.response r = p.
Proof.
  intros Ha.
  destruct (callAIAgent_answer host parse message agent_id options s)
    as ([r | t] & s' & Hrun & Hans); rewrite Ha in Hans.
  - eauto.
  - destruct Hans as [Hans _]. discriminate Hans.
Qed.

Lemma truthy_receiver v k : truthy (get_opt v k) = true -> truthy v = true.
Proof. destruct v; simpl; congruence. Qed.

(** The text of a truthy response: found without a throw; it is truthy or
    the fallback; a response that is a string is the text. *)
Lemma text_of_truthy response fallback :
  truthy response = true ->
  exists v, text_of response fallback = Ok v /\
            (truthy v = true \/ v = JStr fallback) /\
            (forall t, response = JStr t -> v = JStr t).
Proof.
  intros Ht. unfold text_of.
  destruct (typeof response =? "string") eqn:Hty.
  - exists response. auto.
  - rewrite !(get_present response _ (truthy_not_nullish _ Ht)).
    cbn [bind ret result_monad].
    destruct (truthy (get_opt response "message")) eqn:Hm.
    + eexists. split; [reflexivity|]. split; [auto|].
      intros t ->. discriminate Hty.
    + eexists. split; [reflexivity|]. split.
      * unfold js_or. destruct (truthy (get_opt response "response")) eqn:Hr; auto.
      * intros t ->. discriminate Hty.
Qed.

(** X14.  [generateCommitMessage] never hands back an empty message: what it
    returns is truthy.  It is "Update" whenever the call finds no answer,
    and an answer that is a non-empty string is returned as it is.  It
    throws only where [callAIAgent] does: when there is no answer and what
    was caught is a value that has no text. *)
Theorem commit_message_is_never_empty host parse changes agent_id s :
  exists out s',
    generateCommitMessage host parse changes agent_id s = (out, s') /\
    match out with
    | Ok v =>
        truthy v = true /\
        (answer (network host) parse = None -> v = JStr "Update") /\
        (forall t, answer (network host) parse = Some (JStr t) -> String.eqb t "" = false ->
                   v = JStr t)
    | Throw _ =>
        answer (network host) parse = None /\
        exists v, failure (network host) parse = Some (Thrown v) /\ stringable v = false
    end.
Proof.
  unfold generateCommitMessage.
  match goal with
  | |- context [callAIAgent host parse ?m agent_id None] =>
      destruct (callAIAgent_answer host parse m agent_id None s) as (out & s' & Hrun & Hans)
  end.
  cbn [bind M_monad]. rewrite Hrun. destruct out as [r | t]; [|eauto].
  destruct (answer (network host) parse) as [p|].
  - destruct Hans as [-> ->]. cbn [andb].
    destruct (truthy p) eqn:Hp.
    + destruct (text_of_truthy p "Update" Hp) as (v & -> & Hv & Hstr).
      exists (Ok v), s'. split; [reflexivity|]. split.
      * destruct Hv as [Hv | ->]; [exact Hv | reflexivity].
      * split; [discriminate|]. intros t Ht _. injection Ht as ->. apply Hstr. reflexivity.
    + exists (Ok (JStr "Update")), s'. split; [reflexivity|]. split; [reflexivity|].
      split; [discriminate|]. intros t Ht Hne. injection Ht as ->.
      cbn in Hp. rewrite Hne in Hp. discriminate Hp.
  - rewrite Hans. cbn [andb]. exists (Ok (JStr "Update")), s'.
    split; [reflexivity|]. split; [reflexivity|]. split; [reflexivity|]. discriminate.
Qed.

(** The common end of [explainCode] and [generateDocs]. *)
Lemma text_or_nothing host parse prompt agent_id s :
  exists out s',
    (result <- callAIAgent host parse prompt agent_id None ;;
     if AIAgentResponse.success result && truthy (AIAgentResponse.response result)
     then lift (text_of (AIAgentResponse.response result) "")
     else ret (JStr ""))%monad s = (out, s') /\
    match out with
    | Ok v =>
        (answer (network host) parse = None -> v = JStr "") /\
        (forall t, answer (network host) parse = Some (JStr t) -> v = JStr t)
    | Throw _ =>
        answer (network host) parse = None /\
        exists v, failure (network host) parse = Some (Thrown v) /\ stringable v = false
    end.
Proof.
  destruct (callAIAgent_answer host parse prompt agent_id None s)
    as (out & s' & Hrun & Hans).
  cbn [bind M_monad]. rewrite Hrun. destruct out as [r | t]; [|eauto].
  destruct (answer (network host) parse) as [p|].
  - destruct Hans as [-> ->]. cbn [andb].
    destruct (truthy p) eqn:Hp.
    + destruct (text_of_truthy p "" Hp) as (v & -> & _ & Hstr).
      exists (Ok v), s'. split; [reflexivity|]. split; [discriminate|].
      intros t Ht. injection Ht as ->. apply Hstr. reflexivity.
    + exists (Ok (JStr "")), s'. split; [reflexivity|]. split; [discriminate|].
      intros t Ht. injection Ht as ->. cbn in Hp.
      apply negb_false_iff, String.eqb_eq in Hp. subst t. reflexivity.
  - rewrite Hans. cbn [andb]. exists (Ok (JStr "")), s'.
    split; [reflexivity|]. split; [reflexivity|]. discriminate.
Qed.

(** X15.  [explainCode] and [generateDocs] return the empty string whenever
    the call finds no answer, and an answer that is a string as it is.  Each
    throws only where [callAIAgent] does: when there is no answer and what
    was caught is a value that has no text. *)
Theorem explanation_and_docs_fall_back_to_nothing host parse code agent_id s :
  (exists out s',
      explainCode host parse code agent_id s = (out, s') /\
      match out with
      | Ok v =>
          (answer (network host) parse = None -> v = JStr "") /\
          (forall t, answer (network host) parse = Some (JStr t) -> v = JStr t)
      | Throw _ =>
          answer (network host) parse = None /\
          exists v, failure (network host) parse = Some (Thrown v) /\ stringable v = false
      end) /\
  (exists out s',
      generateDocs host parse code agent_id s = (out, s') /\
      match out with
      | Ok v =>
          (answer (network host) parse = None -> v = JStr "") /\
          (forall t, answer (network host) parse = Some (JStr t) -> v = JStr t)
      | Throw _ =>
          answer (network host) parse = None /\
          exists v, failure (network host) parse = Some (Thrown v) /\ stringable v = false
      end).
Proof.
  split; apply text_or_nothing.
Qed.

(** ** The lines of a text *)

Lemma split_lines_not_empty text : split_lines text <> [].
Proof.
  destruct text as [|c rest]; cbn [split_lines]; [discriminate|].
  destruct (Ascii.eqb c newline); [discriminate|].
  destruct (split_lines rest); discriminate.
Qed.

(** Joined by line feeds the lines give the text back. *)
Lemma join_split_lines text : join nl (split_lines text) = text.
Proof.
  induction text as [|c rest IH]; cbn [split_lines]; [reflexivity|].
  pose proof (split_lines_not_empty rest) as Hne.
  destruct (Ascii.eqb c newline) eqn:Hc.
  - apply Ascii.eqb_eq in Hc. subst c.
    destruct (split_lines rest) as [|line lines]; [contradiction|].
    change (join nl (EmptyString :: line :: lines))
      with (String newline (join nl (line :: lines))).
    rewrite IH. reflexivity.
  - destruct (split_lines rest) as [|line lines]; [contradiction|].
    destruct lines as [|l2 lines].
    + cbn [join] in *. rewrite IH. reflexivity.
    + change (join nl (String c line :: l2 :: lines))
        with (String c (line ++ nl ++ join nl (l2 :: lines))).
      change (join nl (line :: l2 :: lines))
        with (line ++ nl ++ join nl (l2 :: lines)) in IH.
      rewrite IH. reflexivity.
Qed.

Lemma split_lines_one_line text : Forall (fun l => one_line l = true) (split_lines text).
Proof.
  induction text as [|c rest IH]; cbn [split_lines].
  - constructor; [reflexivity | constructor].
  - destruct (Ascii.eqb c newline) eqn:Hc.
    + constructor; [reflexivity | exact IH].
    + destruct (split_lines rest) as [|line lines].
      * constructor; [|constructor]. cbn [one_line]. rewrite Hc. reflexivity.
      * inversion IH as [|? ? Hl Hls]; subst.
        constructor; [|exact Hls]. cbn [one_line]. rewrite Hc, Hl. reflexivity.
Qed.

(** X16.  When the answer is a string, [getSuggestions] returns its lines
    that are not blank, in their order: cut the text at its line feeds, drop
    the pieces made of white space only. *)
Theorem suggestions_are_the_lines_that_are_not_blank host parse code agent_id s t :
  answer (network host) parse = Some (JStr t) ->
  exists suggestions lines s',
    getSuggestions host parse code agent_id s = (Ok suggestions, s') /\
    join nl lines = t /\
    Forall (fun l => one_line l = true) lines /\
    suggestions = filter (fun l => negb (blank l)) lines.
Proof.
  intros Ha. unfold getSuggestions.
  match goal with
  | |- context [callAIAgent host parse ?m agent_id None] =>
      destruct (callAIAgent_answers host parse m agent_id None s _ Ha)
        as (r & s' & Hrun & Hs & Hr)
  end.
  cbn [bind M_monad]. rewrite Hrun, Hs, Hr. cbn [andb].
  destruct (truthy (JStr t)) eqn:Ht.
  - cbn [text_of typeof String.eqb]. cbn.
    exists (filter (fun l => negb (blank l)) (split_lines t)), (split_lines t), s'.
    split; [reflexivity|]. split; [apply join_split_lines|].
    split; [apply split_lines_one_line | reflexivity].
  - cbn in Ht. apply negb_false_iff, String.eqb_eq in Ht. subst t.
    exists [], [EmptyString], s'. repeat split. constructor; [reflexivity | constructor].
Qed.

Lemma suggestions_are_the_lines_that_are_not_blank_witness :
  exists suggestions lines s',
    getSuggestions (page (Responds 200 (Ok (dq "'Use const\n\n  \nAdd tests'"))))
      Extractor.strict "let x = 1" "agent-1" fresh = (Ok suggestions, s') /\
    join nl lines = "Use const" ++ nl ++ nl ++ "  " ++ nl ++ "Add tests" /\
    Forall (fun l => one_line l = true) lines /\
    suggestions = filter (fun l => negb (blank l)) lines.
Proof.
  apply (suggestions_are_the_lines_that_are_not_blank
           (page (Responds 200 (Ok (dq "'Use const\n\n  \nAdd tests'"))))
           Extractor.strict "let x = 1" "agent-1" fresh
           ("Use const" ++ nl ++ nl ++ "  " ++ nl ++ "Add tests")).
  reflexivity.
Defined.

(** X17.  When the call finds no answer, [getSuggestions] returns no
    suggestion, unless [callAIAgent] throws: then what was caught is a value
    that has no text, and [getSuggestions] throws what it throws. *)
Theorem no_answer_no_suggestions host parse code agent_id s :
  answer (network host) parse = None ->
  exists out s',
    getSuggestions host parse code agent_id s = (out, s') /\
    match out with
    | Ok suggestions => suggestions = []
    | Throw _ =>
        exists v, failure (network host) parse = Some (Thrown v) /\ stringable v = false
    end.
Proof.
  intros Ha. unfold getSuggestions.
  match goal with
  | |- context [callAIAgent host parse ?m agent_id None] =>
      destruct (callAIAgent_answer host parse m agent_id None s) as (out & s' & Hrun & Hans)
  end.
  cbn [bind M_monad]. rewrite Hrun. destruct out as [r | t].
  - rewrite Ha in Hans. rewrite Hans. cbn [andb]. exists (Ok []), s'. auto.
  - exists (Throw t), s'. split; [reflexivity | apply Hans].
Qed.

Lemma no_answer_no_suggestions_witness :
  exists out s',
    getSuggestions (page (Responds 500 (Ok Worlds.rate_limited_body))) Extractor.strict
      "let x = 1" "agent-1" fresh = (out, s') /\
    match out with
    | Ok suggestions => suggestions = []
    | Throw _ =>
        exists v,
          failure (network (page (Responds 500 (Ok Worlds.rate_limited_body))))
            Extractor.strict = Some (Thrown v) /\
          stringable v = false
    end.
Proof.
  apply (no_answer_no_suggestions
           (page (Responds 500 (Ok Worlds.rate_limited_body))) Extractor.strict
           "let x = 1" "agent-1" fresh).
  reflexivity.
Defined.

(** X18.  On an answer, where the three others return, [getSuggestions] can
    throw: when the answer is an object whose [message] is truthy and no
    string (a number, an object, an array), the text has no [split] and the
    call ends in a [TypeError].  [explainCode] hands the same message back
    as it is. *)
Theorem suggestions_reject_a_message_that_is_no_text host parse code agent_id s p :
  answer (network host) parse = Some p ->
  truthy (get_opt p "message") = true ->
  String.eqb (typeof (get_opt p "message")) "string" = false ->
  (exists m s',
      getSuggestions host parse code agent_id s
      = (Throw (ErrorObject "TypeError" m JUndefined), s')) /\
  (exists s', explainCode host parse code agent_id s = (Ok (get_opt p "message"), s')).
Proof.
  intros Ha Hm Hty.
  assert (Hp : truthy p = true) by exact (truthy_receiver _ _ Hm).
  assert (Hobj : String.eqb (typeof p) "string" = false).
  { destruct p; try reflexivity. discriminate Hm. }
  assert (Htext : forall fallback, text_of p fallback = Ok (get_opt p "message")).
  { intros fallback. unfold text_of. rewrite Hobj.
    rewrite (get_present p _ (truthy_not_nullish _ Hp)). cbn [bind ret result_monad].
    rewrite Hm. reflexivity. }
  split.
  - unfold getSuggestions.
    match goal with
    | |- context [callAIAgent host parse ?m agent_id None] =>
        destruct (callAIAgent_answers host parse m agent_id None s _ Ha)
          as (r & s' & Hrun & Hs & Hr)
    end.
    cbn [bind M_monad]. rewrite Hrun, Hs, Hr, Hp. cbn [andb].
    unfold lift. rewrite Htext.
    destruct (get_opt p "message"); try (do 2 eexists; reflexivity).
    discriminate Hty.
  - unfold explainCode.
    match goal with
    | |- context [callAIAgent host parse ?m agent_id None] =>
        destruct (callAIAgent_answers host parse m agent_id None s _ Ha)
          as (r & s' & Hrun & Hs & Hr)
    end.
    cbn [bind M_monad]. rewrite Hrun, Hs, Hr, Hp. cbn [andb].
    unfold lift. rewrite Htext. eauto.
Qed.

Lemma suggestions_reject_a_message_that_is_no_text_witness :
  (exists m s',
      getSuggestions (page (Responds 200 (Ok Worlds.number_body))) Extractor.strict
        "let x = 1" "agent-1" fresh
      = (Throw (ErrorObject "TypeError" m JUndefined), s')) /\
  (exists s',
      explainCode (page (Responds 200 (Ok Worlds.number_body))) Extractor.strict
        "let x = 1" "agent-1" fresh
      = (Ok (get_opt (JObj [("message", JNum (number_of_Z 42))]) "message"), s')).
Proof.
  apply (suggestions_reject_a_message_that_is_no_text
           (page (Responds 200 (Ok Worlds.number_body))) Extractor.strict
           "let x = 1" "agent-1" fresh
           (JObj [("message", JNum (number_of_Z 42))])); reflexivity.
Defined.

End AiAgentProperties.

End Behaviour.
